(** * Test-coverage analyser (scripts/test-coverage-analysis.py)

    A shallow embedding of the analyser's static part: the text helpers it
    takes from Python ([str.replace], [str.split], [str.strip]), the three
    regular expressions it hands to [re.findall], the arithmetic of its
    percentages (Python integers and binary64 floats) and the methods of
    [TestCoverageAnalyzer], followed by the properties proved about them.

    Conventions.
    - A Python [str] is a [string]; each [ascii] is read as the code point
      of the same number, so the model covers texts whose code points are
      below 256. String literals that hold Chinese text (the recommendation
      messages) hold its UTF-8 encoding; they are only compared for equality.
    - A Python [int] is a [Z]; a Python [float] is a [spec_float] at
      precision 53 and maximal exponent 1024 (binary64).
    - The exact value of a number, where a property speaks of it, is a
      rational of [Q].
    - A Python exception is the [Raise] case of [result]. *)

From Stdlib Require Import ZArith List String Ascii Bool Lia Sorted.
From Stdlib Require Import QArith Qabs SpecFloat.
From stdpp Require Import base option list gmap strings pretty.

Local Open Scope Z_scope.

(** ** Exceptions *)

Inductive exn : Type :=
| ZeroDivisionError
| FileNotFoundError
| FileExistsError
| NotADirectoryError
| OSError
| UnicodeDecodeError.

Inductive result (A : Type) : Type :=
| Ok (a : A)
| Raise (e : exn).

Arguments Ok {A} a.
Arguments Raise {A} e.

Definition bind {A B : Type} (r : result A) (f : A -> result B) : result B :=
  match r with
  | Ok a => f a
  | Raise e => Raise e
  end.

Notation "'let*' x := r 'in' k" := (bind r (fun x => k))
  (at level 10, x name, r at level 100, k at level 200).

(** ** Python strings *)

Module PyStr.

Local Open Scope string_scope.

(** [str.isspace] of one character, which is also the class [\s] of [re]
    on [str] patterns: TAB..CR, FS..US, space, NEL and NBSP. *)
Definition isspace (c : ascii) : bool :=
  let n := N_of_ascii c in
  ((9 <=? n) && (n <=? 13) || (28 <=? n) && (n <=? 32)
   || (n =? 133) || (n =? 160))%N.

(** The class [\w] of [re] on [str] patterns: [str.isalnum] or underscore.
    Below 128 these are the digits, the letters and [_]; from 128 to 255 the
    letters and numeric characters of Latin-1. *)
Definition isword (c : ascii) : bool :=
  let n := N_of_ascii c in
  ((48 <=? n) && (n <=? 57) || (65 <=? n) && (n <=? 90) || (n =? 95)
   || (97 <=? n) && (n <=? 122)
   || (n =? 170) || (n =? 178) || (n =? 179) || (n =? 181) || (n =? 185)
   || (n =? 186) || (188 <=? n) && (n <=? 190)
   || (192 <=? n) && (n <=? 214) || (216 <=? n) && (n <=? 246)
   || (248 <=? n) && (n <=? 255))%N.

(** [s.replace(old, new)] for a non-empty [old]: the occurrences of [old]
    are found from the left and do not overlap. [skip] counts the characters
    of an occurrence that are still to be passed over. *)
Fixpoint replace_from (old new : string) (skip : nat) (s : string) : string :=
  match s with
  | EmptyString => EmptyString
  | String c s' =>
      match skip with
      | S k => replace_from old new k s'
      | O =>
          if String.prefix old s
          then new ++ replace_from old new (Nat.pred (String.length old)) s'
          else String c (replace_from old new 0 s')
      end
  end.

Definition replace (s old new : string) : string := replace_from old new 0 s.

(** [s.split(sep)] for a separator of one character: never empty. *)
Fixpoint split (sep : ascii) (s : string) : list string :=
  match s with
  | EmptyString => [EmptyString]
  | String c s' =>
      if Ascii.eqb c sep then EmptyString :: split sep s'
      else match split sep s' with
           | h :: t => String c h :: t
           | [] => [String c EmptyString]
           end
  end.

Fixpoint lstrip (s : string) : string :=
  match s with
  | EmptyString => EmptyString
  | String c s' => if isspace c then lstrip s' else s
  end.

Fixpoint rstrip (s : string) : string :=
  match s with
  | EmptyString => EmptyString
  | String c s' =>
      match rstrip s' with
      | EmptyString => if isspace c then EmptyString else String c EmptyString
      | r => String c r
      end
  end.

(** [s.strip()] *)
Definition strip (s : string) : string := rstrip (lstrip s).

(** Truth value of a string: non-empty. *)
Definition truthy (s : string) : bool :=
  match s with
  | EmptyString => false
  | String _ _ => true
  end.

End PyStr.

(** ** Regular expressions: the fragment of [re] the analyser uses *)

Module Re.

Local Open Scope string_scope.

(** Sets of characters. *)
Inductive cset : Type :=
| CChr (c : ascii)      (* a literal character *)
| CSpace                (* \s *)
| CWord                 (* \w *)
| CNot (c : ascii).     (* [^c] *)

Definition cset_mem (cs : cset) (c : ascii) : bool :=
  match cs with
  | CChr d => Ascii.eqb c d
  | CSpace => PyStr.isspace c
  | CWord => PyStr.isword c
  | CNot d => negb (Ascii.eqb c d)
  end.

(** Patterns. [Star] is the greedy [*]; [Cap] is the (single) capturing
    group; [Alt] tries its left branch first. *)
Inductive regex : Type :=
| Eps
| Set' (cs : cset)
| Seq (r1 r2 : regex)
| Alt (r1 r2 : regex)
| Star (r : regex)
| Cap (r : regex).

(** [r+], [(?:r)?] and a literal word. *)
Definition Plus (r : regex) : regex := Seq r (Star r).
Definition Opt (r : regex) : regex := Alt r Eps.

Fixpoint Lit (s : string) : regex :=
  match s with
  | EmptyString => Eps
  | String c s' => Seq (Set' (CChr c)) (Lit s')
  end.

(** The state of a match attempt: the text still to be read and the text of
    group 1, if the group has been closed. *)
Definition outcome : Type := option (string * option string).
Definition cont : Type := string -> option string -> outcome.

(** The first [n] characters of [s]. *)
Fixpoint take (n : nat) (s : string) : string :=
  match n, s with
  | S k, String c s' => String c (take k s')
  | _, _ => EmptyString
  end.

(** Greedy repetition of [body]: one more round of [body] is tried before
    the continuation. A round that reads nothing is refused, as in [re];
    [fuel] starts at the length of the text, which every round shortens. *)
Fixpoint star (body : cont -> cont) (k : cont) (fuel : nat)
  (s : string) (cap : option string) : outcome :=
  match
    body (fun s' cap' =>
            if (String.length s' <? String.length s)%nat
            then match fuel with
                 | S fuel' => star body k fuel' s' cap'
                 | O => None
                 end
            else None) s cap
  with
  | Some x => Some x
  | None => k s cap
  end.

(** The backtracking matcher, in continuation-passing style: [exec r k s cap]
    is the first success, in the priority order of [re], of reading a match
    of [r] from the front of [s] and handing the rest to [k]. *)
Fixpoint exec (r : regex) (k : cont) (s : string) (cap : option string)
  : outcome :=
  match r with
  | Eps => k s cap
  | Set' cs =>
      match s with
      | String c s' => if cset_mem cs c then k s' cap else None
      | EmptyString => None
      end
  | Seq r1 r2 => exec r1 (exec r2 k) s cap
  | Alt r1 r2 =>
      match exec r1 k s cap with
      | Some x => Some x
      | None => exec r2 k s cap
      end
  | Star r1 => star (exec r1) k (String.length s) s cap
  | Cap r1 =>
      exec r1 (fun s' _ =>
                 k s' (Some (take (String.length s - String.length s') s)))
        s cap
  end.

(** [pattern.match] at the front of [s]: the rest of the text and group 1. *)
Definition match_here (r : regex) (s : string) : outcome :=
  exec r (fun s' cap => Some (s', cap)) s None.

(** What [findall] lists for a match: group 1, empty if it took no part. *)
Definition group1 (cap : option string) : string :=
  match cap with
  | Some g => g
  | None => EmptyString
  end.

(** [re.findall(r, s)] with the offset of each match: the text is scanned
    from the left, a match is looked for at each offset in turn, and the
    scan goes on where the match ended. [skip] counts the characters of the
    last match still to be passed over, [pos] the offset of [s] in the whole
    text. (The three patterns below read at least a keyword, so no match is
    empty; for an empty match the scan moves on by one character.) *)
Fixpoint scan (r : regex) (pos skip : nat) (s : string)
  : list (nat * string) :=
  match skip with
  | S k =>
      match s with
      | EmptyString => []
      | String _ s' => scan r (S pos) k s'
      end
  | O =>
      match match_here r s with
      | Some (rest, cap) =>
          (pos, group1 cap) ::
          match s with
          | EmptyString => []
          | String _ s' =>
              scan r (S pos)
                (Nat.pred (String.length s - String.length rest)) s'
          end
      | None =>
          match s with
          | EmptyString => []
          | String _ s' => scan r (S pos) 0 s'
          end
      end
  end.

Definition findall_pos (r : regex) (s : string) : list (nat * string) :=
  scan r 0 0 s.

Definition findall (r : regex) (s : string) : list string :=
  map snd (findall_pos r s).

End Re.

(** ** Python numbers *)

Module PyNum.

(** binary64 *)
Definition prec : Z := 53.
Definition emax : Z := 1024.

(** A metric is an [int] or a [float]. *)
Inductive num : Type :=
| PyInt (z : Z)
| PyFloat (f : spec_float).

(** An integer as a binary float with exponent 0. The mantissa is as long
    as the integer, so the value is exact, not yet rounded to 53 bits. *)
Definition int_as_float (z : Z) : spec_float :=
  match z with
  | Z0 => S754_zero false
  | Zpos m => S754_finite false m 0
  | Zneg m => S754_finite true m 0
  end.

(** [float(z)]: the integer rounded to the nearest binary64, ties to even. *)
Definition float_of_int (z : Z) : spec_float :=
  binary_normalize prec emax z 0 false.

(** [a / b] on integers: [ZeroDivisionError] for a zero divisor, otherwise
    the exact quotient rounded once to the nearest binary64. (Past the range
    of binary64 CPython raises OverflowError where this gives an infinity;
    that takes an integer of more than a thousand bits, and the analyser
    divides lengths and line counts.) *)
Definition truediv (a b : Z) : result spec_float :=
  if b =? 0 then Raise ZeroDivisionError
  else Ok (SFdiv prec emax (int_as_float a) (int_as_float b)).

(** [x * z] for a float [x] and an integer [z]. *)
Definition mul_int (x : spec_float) (z : Z) : spec_float :=
  SFmul prec emax x (float_of_int z).

(** [z * x] for an integer [z] and a float [x]. *)
Definition int_mul (z : Z) (x : spec_float) : spec_float :=
  SFmul prec emax (float_of_int z) x.

(** The float 0.5 *)
Definition half : spec_float := S754_finite false 4503599627370496 (-53).

(** [num / den] rounded to the nearest integer, ties to even ([0 < den]). *)
Definition round_half_even (n d : Z) : Z :=
  let q := n / d in
  match (2 * (n mod d) ?= d) with
  | Lt => q
  | Gt => q + 1
  | Eq => if Z.even q then q else q + 1
  end.

(** [round(x, ndigits)] on a float, for [0 <= ndigits]: the exact value of
    [x] is rounded, ties to even, to a multiple of [10 ^ -ndigits], and that
    decimal is rounded to the nearest binary64. Zeros, infinities and NaN
    round to themselves. *)
Definition float_round (x : spec_float) (ndigits : Z) : spec_float :=
  match x with
  | S754_finite s m e =>
      let scaled := Zpos m * 10 ^ ndigits in
      let q := match e with
               | Zneg p => round_half_even scaled (2 ^ Zpos p)
               | _ => scaled * 2 ^ e
               end in
      if q =? 0 then S754_zero s
      else SFdiv prec emax (int_as_float (if s then - q else q))
             (int_as_float (10 ^ ndigits))
  | _ => x
  end.

(** [round(x, ndigits)] on a metric: an [int] is its own rounding. *)
Definition round (x : num) (ndigits : Z) : num :=
  match x with
  | PyInt z => PyInt z
  | PyFloat f => PyFloat (float_round f ndigits)
  end.

(** [x < z] for a float and an integer: Python compares the exact values. *)
Definition float_lt_int (x : spec_float) (z : Z) : bool :=
  match x with
  | S754_nan => false
  | S754_infinity s => s
  | S754_zero _ => 0 <? z
  | S754_finite s m e =>
      let v := if s then Zneg m else Zpos m in
      match e with
      | Zneg p => v <? z * 2 ^ Zpos p
      | _ => v * 2 ^ e <? z
      end
  end.

(** [z < x] for an integer and a float. *)
Definition int_lt_float (z : Z) (x : spec_float) : bool :=
  match x with
  | S754_nan => false
  | S754_infinity s => negb s
  | S754_zero _ => z <? 0
  | S754_finite s m e =>
      let v := if s then Zneg m else Zpos m in
      match e with
      | Zneg p => z * 2 ^ Zpos p <? v
      | _ => z <? v * 2 ^ e
      end
  end.

(** [x < z] for a metric and an integer. *)
Definition lt_int (x : num) (z : Z) : bool :=
  match x with
  | PyInt i => i <? z
  | PyFloat f => float_lt_int f z
  end.

Definition is_nan (x : spec_float) : bool :=
  match x with
  | S754_nan => true
  | _ => false
  end.

End PyNum.

(** ** The world outside the analyser *)

(** A [pathlib.Path], as the list of its components below the root. *)
Abbreviation Path := (list string) (only parsing).

Inductive node : Type :=
| Dir
| File.

(** What [run_gradle_test_report] returns: the result of the subprocess or
    the dictionary of one of its two handlers. *)
Record gradle_result : Type := {
  success : bool;
  stdout : option string;
  stderr : option string;
  error : option string;
  return_code : Z
}.

(** The file system and the other things the analyser asks of its
    environment. [w_rglob d] lists what [d.rglob("*.java")] yields, in the
    order of the traversal, each path relative to [d]; [w_read] is the
    outcome of opening a file and reading it as UTF-8 text. *)
Record world : Type := {
  w_nodes : gmap Path node;
  w_rglob : Path -> list Path;
  w_read : Path -> result string;
  w_now : string;
  w_gradle : Path -> gradle_result
}.

(** [p.exists()] *)
Definition exists_ (w : world) (p : Path) : bool :=
  match w_nodes w !! p with
  | Some _ => true
  | None => false
  end.

(** [p / name] *)
Definition child (p : Path) (name : string) : Path := p ++ [name].

(** [p.parent] *)
Definition parent (p : Path) : Path := removelast p.

(** [p.mkdir(exist_ok=True)]; [parents] keeps its default, [False]: a
    missing parent is not created. *)
Definition mkdir (w : world) (p : Path) : result world :=
  match w_nodes w !! p with
  | Some Dir => Ok w
  | Some File => Raise FileExistsError
  | None =>
      match w_nodes w !! parent p with
      | Some Dir =>
          Ok {| w_nodes := <[p := Dir]> (w_nodes w);
                w_rglob := w_rglob w;
                w_read := w_read w;
                w_now := w_now w;
                w_gradle := w_gradle w |}
      | Some File => Raise NotADirectoryError
      | None => Raise FileNotFoundError
      end
  end.

(** [str(p)] for an absolute and for a relative path. *)
Definition str_rel (p : Path) : string := String.concat "/" p.
Definition str_abs (p : Path) : string := String.append "/" (str_rel p).

(** A line of the console. Only the warnings of [_find_java_files] are
    kept; the progress lines and the summary depend on nothing else. *)
Inductive line : Type :=
| Unreadable (java_file : Path) (e : exn).

(** ** The class [TestCoverageAnalyzer] *)

Module TestCoverageAnalyzer.

Import PyNum.

(** The dictionary [file_info] of [_find_java_files]. *)
Record file_info : Type := {
  path : string;
  full_path : string;
  classes : list string;
  methods : list string;
  lines_of_code : nat
}.

(** The dictionary [_calculate_coverage_metrics] returns. *)
Record metrics : Type := {
  total_source_files : Z;
  total_test_files : Z;
  total_source_classes : Z;
  total_test_classes : Z;
  total_source_methods : Z;
  total_test_methods : Z;
  total_source_loc : Z;
  total_test_loc : Z;
  estimated_file_coverage : num;
  estimated_class_coverage : num;
  test_to_source_ratio : num
}.

(** An entry of [missing_tests]. *)
Record missing_test : Type := {
  source_class : string;
  source_file : string;
  suggested_test_file : string
}.

(** The dictionary [coverage_data] of [analyze_service_coverage]. Every
    key is set there, so a record has them all; [gradle_test_result] is
    added by [generate_comprehensive_report]. *)
Record coverage_data : Type := {
  service_name : string;
  timestamp : string;
  source_files : list file_info;
  test_files : list file_info;
  coverage_metrics : metrics;
  missing_tests : list missing_test;
  recommendations : list string;
  gradle_test_result : option gradle_result
}.

(** The attributes [__init__] sets. *)
Record analyzer : Type := {
  project_root : Path;
  data_preprocessor_path : Path;
  model_trainer_path : Path;
  results_dir : Path
}.

(** [__init__]: the results directory is made under the project root. *)
Definition __init__ (w : world) (root : Path) : result (analyzer * world) :=
  let self := {| project_root := root;
                 data_preprocessor_path :=
                   child (child root "java-services") "data-preprocessor";
                 model_trainer_path :=
                   child (child root "java-services") "model-trainer";
                 results_dir := child root "test-results" |} in
  let* w' := mkdir w (results_dir self) in
  Ok (self, w').

(** The three patterns, as written in [_extract_classes] and
    [_extract_methods]. *)
Definition spaces1 : Re.regex := Re.Plus (Re.Set' Re.CSpace).   (* \s+ *)
Definition spaces0 : Re.regex := Re.Star (Re.Set' Re.CSpace).   (* \s* *)
Definition word1 : Re.regex := Re.Plus (Re.Set' Re.CWord).      (* \w+ *)

(** [(?:public\s+)?(?:abstract\s+)?class\s+(\w+)] *)
Definition class_pattern : Re.regex :=
  Re.Seq (Re.Opt (Re.Seq (Re.Lit "public") spaces1))
 (Re.Seq (Re.Opt (Re.Seq (Re.Lit "abstract") spaces1))
 (Re.Seq (Re.Lit "class")
 (Re.Seq spaces1
         (Re.Cap word1)))).

(** [(?:public\s+)?interface\s+(\w+)] *)
Definition interface_pattern : Re.regex :=
  Re.Seq (Re.Opt (Re.Seq (Re.Lit "public") spaces1))
 (Re.Seq (Re.Lit "interface")
 (Re.Seq spaces1
         (Re.Cap word1))).

(** [(?:public|private|protected)\s+(?:static\s+)?(?:\w+\s+)*(\w+)\s*\([^)]*\)\s*\{] *)
Definition method_pattern : Re.regex :=
  Re.Seq (Re.Alt (Re.Lit "public") (Re.Alt (Re.Lit "private") (Re.Lit "protected")))
 (Re.Seq spaces1
 (Re.Seq (Re.Opt (Re.Seq (Re.Lit "static") spaces1))
 (Re.Seq (Re.Star (Re.Seq word1 spaces1))
 (Re.Seq (Re.Cap word1)
 (Re.Seq spaces0
 (Re.Seq (Re.Set' (Re.CChr "("))
 (Re.Seq (Re.Star (Re.Set' (Re.CNot ")")))
 (Re.Seq (Re.Set' (Re.CChr ")"))
 (Re.Seq spaces0
         (Re.Set' (Re.CChr "{"))))))))))).

Definition _extract_classes (content : string) : list string :=
  let classes := Re.findall class_pattern content in
  let interfaces := Re.findall interface_pattern content in
  classes ++ interfaces.

Definition _extract_methods (content : string) : list string :=
  Re.findall method_pattern content.

(** [len([line for line in content.split('\n') if line.strip()])] *)
Definition count_lines (content : string) : nat :=
  length (List.filter (fun l => PyStr.truthy (PyStr.strip l))
            (PyStr.split "010" content)).

(** The body of the loop of [_find_java_files], up to the [append]:
    [file_info] starts with empty fields, the [try] block fills them when the
    file can be read, and the handler prints a warning. *)
Definition scan_file (w : world) (dir rel : Path) : file_info * list line :=
  let java_file := dir ++ rel in
  let file_info0 := {| path := str_rel rel;
                       full_path := str_abs java_file;
                       classes := [];
                       methods := [];
                       lines_of_code := 0%nat |} in
  match w_read w java_file with
  | Ok content =>
      ({| path := path file_info0;
          full_path := full_path file_info0;
          classes := _extract_classes content;
          methods := _extract_methods content;
          lines_of_code := count_lines content |},
       [])
  | Raise e => (file_info0, [Unreadable java_file e])
  end.

(** The loop of [_find_java_files] over the paths [rglob] yields: the
    [append] comes after the [try] statement, so it is reached on both
    paths. *)
Definition scan_files (w : world) (dir : Path) (java_files : list Path)
  : list file_info * list line :=
  fold_left
    (fun (acc : list file_info * list line) rel =>
       let '(file_info, out) := scan_file w dir rel in
       (fst acc ++ [file_info], snd acc ++ out))
    java_files ([], []).

(** [_find_java_files]: the files found and the warnings printed. *)
Definition _find_java_files (w : world) (dir : Path)
  : list file_info * list line :=
  scan_files w dir (w_rglob w dir).

(** [sum(len(f[key]) for f in files)] and [sum(f[key] for f in files)] *)
Definition sum_len (key : file_info -> list string) (files : list file_info)
  : Z :=
  fold_left (fun acc f => acc + Z.of_nat (length (key f))) files 0.

Definition sum_of (key : file_info -> nat) (files : list file_info) : Z :=
  fold_left (fun acc f => acc + Z.of_nat (key f)) files 0.

(** [(a / b * 100) if b > 0 else 0] *)
Definition percentage (a b : Z) : result num :=
  if 0 <? b
  then let* q := truediv a b in Ok (PyFloat (mul_int q 100))
  else Ok (PyInt 0).

Definition _calculate_coverage_metrics (source_files test_files : list file_info)
  : result metrics :=
  let total_source_files := Z.of_nat (length source_files) in
  let total_test_files := Z.of_nat (length test_files) in
  let total_source_classes := sum_len classes source_files in
  let total_source_methods := sum_len methods source_files in
  let total_source_loc := sum_of lines_of_code source_files in
  let total_test_classes := sum_len classes test_files in
  let total_test_methods := sum_len methods test_files in
  let total_test_loc := sum_of lines_of_code test_files in
  let* file_coverage := percentage total_test_files total_source_files in
  let* class_coverage := percentage total_test_classes total_source_classes in
  let* ratio :=
    (if 0 <? total_source_loc
     then let* q := truediv total_test_loc total_source_loc in
          Ok (round (PyFloat (mul_int q 100)) 2)
     else Ok (PyInt 0)) in
  Ok {| total_source_files := total_source_files;
        total_test_files := total_test_files;
        total_source_classes := total_source_classes;
        total_test_classes := total_test_classes;
        total_source_methods := total_source_methods;
        total_test_methods := total_test_methods;
        total_source_loc := total_source_loc;
        total_test_loc := total_test_loc;
        estimated_file_coverage := round file_coverage 2;
        estimated_class_coverage := round class_coverage 2;
        test_to_source_ratio := ratio |}.

(** The first loop of [_find_missing_tests]: the set [test_classes]. *)
Definition covered_name (class_name : string) : string :=
  PyStr.replace (PyStr.replace class_name "Test" "") "Tests" "".

Definition test_classes_of (test_files : list file_info) : gset string :=
  fold_left
    (fun (test_classes : gset string) test_file =>
       fold_left (fun (tc : gset string) class_name =>
                    tc ∪ {[ covered_name class_name ]})
         (classes test_file) test_classes)
    test_files ∅.

Definition _find_missing_tests (source_files test_files : list file_info)
  : list missing_test :=
  let test_classes := test_classes_of test_files in
  fold_left
    (fun missing_tests source_file =>
       fold_left
         (fun missing class_name =>
            if bool_decide (class_name ∈ test_classes) then missing
            else missing ++
                 [ {| source_class := class_name;
                      source_file := path source_file;
                      suggested_test_file :=
                        String.append class_name "Test.java" |} ])
         (classes source_file) missing_tests)
    source_files [].

(** The four messages of [_generate_recommendations]. *)
Definition low_file_coverage : string :=
  "测试文件覆盖率较低，建议增加更多测试文件".
Definition low_test_volume : string :=
  "测试代码量相对较少，建议编写更全面的测试用例".
Definition classes_without_tests (n : Z) : string :=
  String.append "发现 "
    (String.append (pretty n) " 个类缺少测试，建议补充相应的测试类").
Definition few_test_methods : string :=
  "测试方法数量相对较少，建议增加更多的测试方法".

Definition _generate_recommendations (coverage_data : coverage_data)
  : list string :=
  let recommendations := [] in
  let metrics := coverage_metrics coverage_data in
  let recommendations :=
    if lt_int (estimated_file_coverage metrics) 50
    then recommendations ++ [low_file_coverage] else recommendations in
  let recommendations :=
    if lt_int (test_to_source_ratio metrics) 30
    then recommendations ++ [low_test_volume] else recommendations in
  let recommendations :=
    if 0 <? Z.of_nat (length (missing_tests coverage_data))
    then recommendations ++
         [classes_without_tests (Z.of_nat (length (missing_tests coverage_data)))]
    else recommendations in
  let recommendations :=
    if int_lt_float (total_test_methods metrics)
         (int_mul (total_source_methods metrics) half)
    then recommendations ++ [few_test_methods] else recommendations in
  recommendations.

Definition analyze_service_coverage (w : world) (service_path : Path)
  (service_name : string) : result (coverage_data * list line) :=
  let src_path := child (child (child service_path "src") "main") "java" in
  let '(source_files, out1) :=
    if exists_ w src_path then _find_java_files w src_path else ([], []) in
  let test_path := child (child (child service_path "src") "test") "java" in
  let '(test_files, out2) :=
    if exists_ w test_path then _find_java_files w test_path else ([], []) in
  let* metrics := _calculate_coverage_metrics source_files test_files in
  let missing := _find_missing_tests source_files test_files in
  let coverage_data :=
    {| service_name := service_name;
       timestamp := w_now w;
       source_files := source_files;
       test_files := test_files;
       coverage_metrics := metrics;
       missing_tests := missing;
       recommendations := [];
       gradle_test_result := None |} in
  Ok ({| service_name := service_name;
         timestamp := w_now w;
         source_files := source_files;
         test_files := test_files;
         coverage_metrics := metrics;
         missing_tests := missing;
         recommendations := _generate_recommendations coverage_data;
         gradle_test_result := None |},
      out1 ++ out2).

(** [run_gradle_test_report]: the subprocess is the environment's. *)
Definition run_gradle_test_report (w : world) (service_path : Path)
  : gradle_result :=
  w_gradle w service_path.

(** [coverage_data["gradle_test_result"] = gradle_result] *)
Definition set_gradle_test_result (d : coverage_data) (g : gradle_result)
  : coverage_data :=
  {| service_name := service_name d;
     timestamp := timestamp d;
     source_files := source_files d;
     test_files := test_files d;
     coverage_metrics := coverage_metrics d;
     missing_tests := missing_tests d;
     recommendations := recommendations d;
     gradle_test_result := Some g |}.

(** [d[key] = value] on a dictionary kept in insertion order. *)
Fixpoint dict_set {V : Type} (d : list (string * V)) (key : string) (value : V)
  : list (string * V) :=
  match d with
  | [] => [(key, value)]
  | (k, v) :: d' =>
      if String.eqb k key then (k, value) :: d'
      else (k, v) :: dict_set d' key value
  end.

(** The dictionary [_calculate_overall_statistics] returns;
    [unique_recommendations] is [list(set(...))], whose order is the set's. *)
Record overall : Type := {
  total_services : Z;
  overall_source_files : Z;       (* "total_source_files" *)
  overall_test_files : Z;         (* "total_test_files" *)
  total_missing_tests : Z;
  overall_file_coverage : num;
  unique_recommendations : gset string
}.

(** The loop of [_calculate_overall_statistics] over [services.values()];
    the test [["coverage_metrics" in service_data]] holds for every record. *)
Definition add_service
  (acc : Z * Z * Z * list string) (service_data : coverage_data)
  : Z * Z * Z * list string :=
  let '(total_source_files', total_test_files', total_missing_tests',
        all_recommendations) := acc in
  let metrics := coverage_metrics service_data in
  (total_source_files' + total_source_files metrics,
   total_test_files' + total_test_files metrics,
   total_missing_tests' + Z.of_nat (length (missing_tests service_data)),
   all_recommendations ++ recommendations service_data).

Definition _calculate_overall_statistics
  (services : list (string * coverage_data)) : result overall :=
  let '(total_source_files', total_test_files', total_missing_tests',
        all_recommendations) :=
    fold_left add_service (map snd services) (0, 0, 0, []) in
  let* overall_file_coverage' :=
    percentage total_test_files' total_source_files' in
  Ok {| total_services := Z.of_nat (length services);
        overall_source_files := total_source_files';
        overall_test_files := total_test_files';
        total_missing_tests := total_missing_tests';
        overall_file_coverage := round overall_file_coverage' 2;
        unique_recommendations := list_to_set all_recommendations |}.

(** The dictionary [report]. *)
Record report : Type := {
  report_timestamp : string;      (* "timestamp" *)
  report_project_root : string;   (* "project_root" *)
  services : list (string * coverage_data);
  overall_statistics : overall
}.

(** One of the two blocks of [generate_comprehensive_report]. *)
Definition add_service_report (w : world) (service_path : Path)
  (name : string) (acc : list (string * coverage_data) * list line)
  : result (list (string * coverage_data) * list line) :=
  if exists_ w service_path then
    let* r := analyze_service_coverage w service_path name in
    let gradle_result := run_gradle_test_report w service_path in
    Ok (dict_set (fst acc) name (set_gradle_test_result (fst r) gradle_result),
        snd acc ++ snd r)
  else Ok acc.

Definition generate_comprehensive_report (self : analyzer) (w : world)
  : result (report * list line) :=
  let* acc := add_service_report w (data_preprocessor_path self)
                "data-preprocessor" ([], []) in
  let* acc := add_service_report w (model_trainer_path self)
                "model-trainer" acc in
  let* stats := _calculate_overall_statistics (fst acc) in
  Ok ({| report_timestamp := w_now w;
         report_project_root := str_abs (project_root self);
         services := fst acc;
         overall_statistics := stats |},
      snd acc).

(** [save_report]: the report is written into the results directory. *)
Definition save_report (self : analyzer) (w : world) (filename : string)
  : result (Path * world) :=
  let report_path := child (results_dir self) filename in
  match w_nodes w !! results_dir self, w_nodes w !! report_path with
  | Some Dir, Some Dir => Raise OSError
  | Some Dir, _ =>
      Ok (report_path,
          {| w_nodes := <[report_path := File]> (w_nodes w);
             w_rglob := w_rglob w;
             w_read := w_read w;
             w_now := w_now w;
             w_gradle := w_gradle w |})
  | Some File, _ => Raise NotADirectoryError
  | None, _ => Raise FileNotFoundError
  end.

End TestCoverageAnalyzer.

(** ** The entry point *)

(** How a run ends: with the report saved (status 0), with the failure
    message of [main]'s handler (status 1), or with an exception nobody
    handles. *)
Inductive run : Type :=
| Finished (r : TestCoverageAnalyzer.report) (out : list line) (w : world)
| Failed (e : exn)
| Uncaught (e : exn).

Definition default_project_root : Path := ["Users"; "miaojia"; "AI-Demo"]%string.

(** [main]; [arg] is [sys.argv[1]], if given, as a path. The analyser is
    built before the [try] block is entered. *)
Definition main (w : world) (arg : option Path) : run :=
  let project_root := match arg with
                      | Some p => p
                      | None => default_project_root
                      end in
  match TestCoverageAnalyzer.__init__ w project_root with
  | Raise e => Uncaught e
  | Ok (analyzer, w1) =>
      match
        (let* r := TestCoverageAnalyzer.generate_comprehensive_report analyzer w1 in
         let* saved := TestCoverageAnalyzer.save_report analyzer w1
                         "test-coverage-report.json" in
         Ok (r, saved))
      with
      | Ok (r, out, (_, w2)) => Finished r out w2
      | Raise e => Failed e
      end
  end.

(** ** Reference points for the properties *)

Import TestCoverageAnalyzer.

(** The entry [_find_missing_tests] appends for a declaration. *)
Definition missing_entry (source_file : file_info) (class_name : string)
  : missing_test :=
  {| source_class := class_name;
     source_file := path source_file;
     suggested_test_file := String.append class_name "Test.java" |}.

(** The entry [_find_java_files] appends for a file it could not read. *)
Definition unread_entry (dir rel : Path) : file_info :=
  {| path := str_rel rel;
     full_path := str_abs (dir ++ rel);
     classes := [];
     methods := [];
     lines_of_code := 0%nat |}.

(** The entry [_find_java_files] appends for a file with text [content]. *)
Definition read_entry (dir rel : Path) (content : string) : file_info :=
  {| path := str_rel rel;
     full_path := str_abs (dir ++ rel);
     classes := _extract_classes content;
     methods := _extract_methods content;
     lines_of_code := count_lines content |}.

(** What a percentage field [x] with numerator [n] and denominator [d] is
    to be: the [int] 0 for a zero denominator, and otherwise the float
    [n / d * 100] rounded to two decimals, which is not NaN. *)
Definition is_percentage (n d : Z) (x : PyNum.num) : Prop :=
  (d = 0 -> x = PyNum.PyInt 0) /\
  (d <> 0 ->
   exists q, PyNum.truediv n d = Ok q
     /\ x = PyNum.PyFloat (PyNum.float_round (PyNum.mul_int q 100) 2)
     /\ PyNum.is_nan (PyNum.float_round (PyNum.mul_int q 100) 2) = false).

(** [s[n:]] *)
Fixpoint str_drop (n : nat) (s : string) : string :=
  match n, s with
  | S k, String _ s' => str_drop k s'
  | _, _ => s
  end.

(** Every character of [s] is in [cs]; the first character of [s] is. *)
Fixpoint all_in (cs : Re.cset) (s : string) : bool :=
  match s with
  | EmptyString => true
  | String c s' => Re.cset_mem cs c && all_in cs s'
  end.

Definition head_in (cs : Re.cset) (s : string) : bool :=
  match s with
  | EmptyString => false
  | String c _ => Re.cset_mem cs c
  end.

(** Matches in the order of their offsets (an insertion sort). *)
Fixpoint insert_by_pos (x : nat * string) (l : list (nat * string))
  : list (nat * string) :=
  match l with
  | [] => [x]
  | y :: l' =>
      if (fst x <? fst y)%nat then x :: l else y :: insert_by_pos x l'
  end.

Definition sort_by_pos (l : list (nat * string)) : list (nat * string) :=
  fold_right insert_by_pos [] l.

(** The types of a text in the textual order of their declarations, as the
    data model words it: the matches of the class pattern and of the
    interface pattern, by offset. *)
Definition types_in_textual_order (content : string) : list string :=
  map snd (sort_by_pos (Re.findall_pos class_pattern content
                        ++ Re.findall_pos interface_pattern content)).


(** The sum of a list of integers. *)
Definition Zsum (l : list Z) : Z := fold_right Z.add 0 l.

(** A gradle outcome for the example worlds. *)
Definition gradle_failed : gradle_result :=
  {| success := false;
     stdout := None;
     stderr := None;
     error := Some "gradlew"%string;
     return_code := -1 |}.

(** A source tree [/svc/src/main/java] with one file, [A.java], that
    cannot be read. *)
Definition java_dir : Path := ["svc"; "src"; "main"; "java"]%string.

Definition world_unreadable : world :=
  {| w_nodes := {[ [] := Dir ]};
     w_rglob := fun d => if decide (d = java_dir) then [["A.java"%string]] else [];
     w_read := fun _ => Raise UnicodeDecodeError;
     w_now := "2024-01-01T00:00:00"%string;
     w_gradle := fun _ => gradle_failed |}.

(** The same tree with a readable [Widget.java], seen at two times: the
    second world has a results directory and a later clock. *)
Definition widget_text : string :=
  "public class Widget { public void a() { } private int b() { return 1; } }".

Definition world_widget : world :=
  {| w_nodes := {[ [] := Dir; ["svc"%string] := Dir; java_dir := Dir ]};
     w_rglob := fun d => if decide (d = java_dir) then [["Widget.java"%string]] else [];
     w_read := fun p => if decide (p = java_dir ++ ["Widget.java"%string])
                        then Ok widget_text else Raise FileNotFoundError;
     w_now := "2024-01-01T00:00:00"%string;
     w_gradle := fun _ => gradle_failed |}.

Definition world_widget_later : world :=
  {| w_nodes := {[ [] := Dir; ["svc"%string] := Dir; java_dir := Dir;
                   ["test-results"%string] := Dir ]};
     w_rglob := w_rglob world_widget;
     w_read := w_read world_widget;
     w_now := "2024-01-02T00:00:00"%string;
     w_gradle := fun _ => gradle_failed |}.

(** A service whose only source type is [Bar], tested by [BarTests], and
    one whose only source type is [Foo], tested by [FooTest]. *)
Definition source_of (name : string) : file_info :=
  {| path := String.append name ".java";
     full_path := String.append "/svc/src/main/java/" (String.append name ".java");
     classes := [name];
     methods := [];
     lines_of_code := 1%nat |}.

Definition test_of (name : string) : file_info :=
  {| path := String.append name ".java";
     full_path := String.append "/svc/src/test/java/" (String.append name ".java");
     classes := [name];
     methods := [];
     lines_of_code := 1%nat |}.

(** A file system that has a root directory and nothing else. *)
Definition world_bare : world :=
  {| w_nodes := {[ [] := Dir ]};
     w_rglob := fun _ => [];
     w_read := fun _ => Raise FileNotFoundError;
     w_now := "2024-01-01T00:00:00"%string;
     w_gradle := fun _ => gradle_failed |}.

(** [sub in s] *)
Fixpoint contains (sub s : string) : bool :=
  String.prefix sub s
  || match s with
     | EmptyString => false
     | String _ s' => contains sub s'
     end.



(** A pattern without a capturing group. *)
Fixpoint capfree (r : Re.regex) : bool :=
  match r with
  | Re.Eps | Re.Set' _ => true
  | Re.Seq r1 r2 | Re.Alt r1 r2 => capfree r1 && capfree r2
  | Re.Star r1 => capfree r1
  | Re.Cap _ => false
  end.

(** The text of a class declaration up to its name: the modifiers [public]
    and [abstract], each present with the white space after it or absent,
    the word [class], white space and the name. *)
Definition class_text (public abstract : option string) (ws name : string)
  : string :=
  String.append
    (match public with Some wsp => String.append "public" wsp | None => "" end)
    (String.append
       (match abstract with
        | Some wsa => String.append "abstract" wsa
        | None => ""
        end)
       (String.append "class" (String.append ws name))).

(** The text of an interface declaration up to its name. *)
Definition interface_text (public : option string) (ws name : string)
  : string :=
  String.append
    (match public with Some wsp => String.append "public" wsp | None => "" end)
    (String.append "interface" (String.append ws name)).

(** White space that is there: not empty, and of [\s] only. *)
Definition spaces (ws : string) : bool :=
  PyStr.truthy ws && all_in Re.CSpace ws.

Definition opt_spaces (ws : option string) : bool :=
  match ws with
  | Some s => spaces s
  | None => true
  end.

(** The modifiers and the return type of a method declaration: words, each
    with the white space after it. *)
Fixpoint words_text (words : list (string * string)) : string :=
  match words with
  | [] => ""
  | (w, ws) :: l => String.append w (String.append ws (words_text l))
  end.

(** A word that is there, and white space that is there. *)
Definition word_spaces (x : string * string) : bool :=
  PyStr.truthy (fst x) && all_in Re.CWord (fst x) && spaces (snd x).

(** The text of a method declaration up to its brace: a visibility
    keyword, white space, modifiers and return type, the name, an argument
    list in parentheses and the brace, with optional white space before the
    parenthesis and before the brace. *)
Definition method_text (kw ws1 : string) (words : list (string * string))
  (name ws2 args ws3 : string) : string :=
  String.append kw (String.append ws1 (String.append (words_text words)
    (String.append name (String.append ws2
      (String "(" (String.append args (String ")" (String.append ws3 "{")))))))).

(** The method pattern from its group on: [(\w+)\s*\([^)]*\)\s*\{]. *)
Definition method_tail : Re.regex :=
  Re.Seq (Re.Cap word1)
 (Re.Seq spaces0
 (Re.Seq (Re.Set' (Re.CChr "("))
 (Re.Seq (Re.Star (Re.Set' (Re.CNot ")")))
 (Re.Seq (Re.Set' (Re.CChr ")"))
 (Re.Seq spaces0
         (Re.Set' (Re.CChr "{"))))))).

(** What [subprocess.run] did in [run_gradle_test_report]: the process
    ended with a return code and its two outputs, it was stopped after the
    timeout, or another exception was raised (with its text). *)
Inductive subprocess_outcome : Type :=
| Completed (returncode : Z) (out err : string)
| TimeoutExpired
| OtherException (message : string).

(** The dictionary [run_gradle_test_report] returns for an outcome: the
    [return] of the [try] block and those of the two handlers. *)
Definition gradle_report (o : subprocess_outcome) : gradle_result :=
  match o with
  | Completed returncode out err =>
      {| success := returncode =? 0;
         stdout := Some out;
         stderr := Some err;
         error := None;
         return_code := returncode |}
  | TimeoutExpired =>
      {| success := false;
         stdout := None;
         stderr := None;
         error := Some "测试执行超时"%string;
         return_code := -1 |}
  | OtherException message =>
      {| success := false;
         stdout := None;
         stderr := None;
         error := Some message;
         return_code := -1 |}
  end.

(** A float that is a number and is not below zero. *)
Definition not_negative (x : spec_float) : bool :=
  match x with
  | S754_zero _ => true
  | S754_infinity s | S754_finite s _ _ => negb s
  | S754_nan => false
  end.

(** ** Exact values *)

(** The number [v * 2 ^ e], as a rational. *)
Definition exact (v e : Z) : Q :=
  match e with
  | Zneg p => Qmake v (2 ^ p)
  | _ => inject_Z (v * 2 ^ e)
  end.

(** The value of a float that is a finite number. *)
Definition float_value (x : spec_float) : option Q :=
  match x with
  | S754_zero _ => Some (inject_Z 0)
  | S754_finite s m e => Some (exact (if s then Zneg m else Zpos m) e)
  | S754_infinity _ | S754_nan => None
  end.

(** The value of a metric. *)
Definition num_value (x : PyNum.num) : option Q :=
  match x with
  | PyNum.PyInt z => Some (inject_Z z)
  | PyNum.PyFloat f => float_value f
  end.

(** [k] is the integer nearest to [v], the even one of two that are
    equally near. *)
Definition nearest_even (v : Q) (k : Z) : Prop :=
  let distance := Qabs (v - inject_Z k) in
  Qlt distance (Qmake 1 2)
  \/ Qeq distance (Qmake 1 2) /\ Z.even k = true.

(** The binary64 nearest to [k / 100], with the sign [s]. *)
Definition hundredths (s : bool) (k : Z) : spec_float :=
  match k with
  | Zpos p => SFdiv 53 1024 (S754_finite s p 0) (S754_finite false 100 0)
  | _ => S754_zero s
  end.

(** [r] is [round(x, 2)]: the magnitude of [x], taken exactly, is rounded
    to the nearest number of hundredths, ties to even, and [r] is the
    binary64 nearest to that decimal, with the sign of [x]; zeros,
    infinities and NaN are their own rounding. *)
Definition rounded_to_hundredths (x r : spec_float) : Prop :=
  match x with
  | S754_finite s m e =>
      exists k : Z,
        0 <= k
        /\ nearest_even (inject_Z 100 * exact (Zpos m) e) k
        /\ r = hundredths s k
  | _ => r = x
  end.

(** The percentage field [x] for the counts [n] and [d], operation by
    operation: the [int] 0 when [d] is 0; otherwise the quotient of the two
    integers rounded to binary64, its product with 100.0 rounded to
    binary64, and that product rounded to two decimals. *)
Definition is_rounded_percentage (n d : Z) (x : PyNum.num) : Prop :=
  (d = 0 -> x = PyNum.PyInt 0)
  /\ (0 < d -> n = 0 -> x = PyNum.PyFloat (S754_zero false))
  /\ (forall pn pd : positive, n = Zpos pn -> d = Zpos pd ->
        let quotient :=
          SFdiv 53 1024 (S754_finite false pn 0) (S754_finite false pd 0) in
        let product :=
          SFmul 53 1024 quotient (binary_normalize 53 1024 100 0 false) in
        exists r : spec_float,
          x = PyNum.PyFloat r /\ PyNum.is_nan r = false
          /\ rounded_to_hundredths product r).

(** The claim's percentage in exact arithmetic: [k] hundredths is
    [n / d * 100] rounded to two decimals. *)
Definition exact_percentage (n d : positive) (k : Z) : Prop :=
  nearest_even (inject_Z 100 * (inject_Z 100 * Qmake (Zpos n) d)) k.

(** * Properties *)

(** ** Loops that append *)

Section Loops.

Context {A B : Type}.

Lemma fold_left_snoc (f : A -> B) (l : list A) (acc : list B) :
  fold_left (fun acc x => acc ++ [f x]) l acc = acc ++ map f l.
Proof.
  revert acc. induction l as [|x l IH]; intros acc; simpl.
  - by rewrite app_nil_r.
  - rewrite IH. by rewrite <- app_assoc.
Qed.

Lemma fold_left_snoc_if (keep : A -> bool) (f : A -> B) (l : list A)
  (acc : list B) :
  fold_left (fun acc x => if keep x then acc ++ [f x] else acc) l acc
  = acc ++ map f (List.filter keep l).
Proof.
  revert acc. induction l as [|x l IH]; intros acc; simpl.
  - by rewrite app_nil_r.
  - rewrite IH. destruct (keep x); simpl; [|done].
    by rewrite <- app_assoc.
Qed.

Lemma fold_left_flat (g : A -> list B) (l : list A) (acc : list B) :
  fold_left (fun acc x => acc ++ g x) l acc = acc ++ flat_map g l.
Proof.
  revert acc. induction l as [|x l IH]; intros acc; simpl.
  - by rewrite app_nil_r.
  - rewrite IH. by rewrite <- app_assoc.
Qed.

End Loops.

(** ** The missing-test detector *)

Lemma test_classes_of_spec (test_files : list file_info) :
  test_classes_of test_files
  = list_to_set (map covered_name (flat_map classes test_files)).
Proof.
  unfold test_classes_of.
  assert (Hin : forall cs (acc : gset string),
             fold_left (fun (tc : gset string) c => tc ∪ {[covered_name c]}) cs acc
             = acc ∪ list_to_set (map covered_name cs)).
  { induction cs as [|c cs IH]; intros acc; simpl.
    - by rewrite (right_id_L ∅ (∪)).
    - by rewrite IH, (assoc_L (∪)). }
  assert (Hout : forall fs (acc : gset string),
             fold_left
               (fun (tcs : gset string) f =>
                  fold_left (fun (tc : gset string) c => tc ∪ {[covered_name c]})
                    (classes f) tcs) fs acc
             = acc ∪ list_to_set (map covered_name (flat_map classes fs))).
  { induction fs as [|f fs IH]; intros acc; simpl.
    - by rewrite (right_id_L ∅ (∪)).
    - by rewrite IH, Hin, map_app, list_to_set_app_L, (assoc_L (∪)). }
  by rewrite Hout, (left_id_L ∅ (∪)).
Qed.

Lemma find_missing_loop (tcs : gset string) (source_files : list file_info)
  (acc : list missing_test) :
  fold_left
    (fun missing_tests source_file =>
       fold_left
         (fun missing class_name =>
            if bool_decide (class_name ∈ tcs) then missing
            else missing ++ [missing_entry source_file class_name])
         (classes source_file) missing_tests)
    source_files acc
  = acc ++
    flat_map
      (fun source_file =>
         map (missing_entry source_file)
           (List.filter (fun class_name => negb (bool_decide (class_name ∈ tcs)))
              (classes source_file)))
      source_files.
Proof.
  revert acc. induction source_files as [|f fs IH]; intros acc; simpl.
  - by rewrite app_nil_r.
  - rewrite IH, app_assoc. f_equal.
    generalize (classes f) as cs. clear IH.
    intros cs. revert acc.
    induction cs as [|c cs IHc]; intros acc; simpl.
    + by rewrite app_nil_r.
    + rewrite IHc. destruct (bool_decide (c ∈ tcs)); simpl; [done|].
      by rewrite <- app_assoc.
Qed.


(** ** The file scanner *)

Lemma scan_files_loop (w : world) (dir : Path) (java_files : list Path)
  (acc : list file_info * list line) :
  fold_left
    (fun (acc : list file_info * list line) rel =>
       let '(file_info, out) := scan_file w dir rel in
       (fst acc ++ [file_info], snd acc ++ out))
    java_files acc
  = (fst acc ++ map (fun rel => fst (scan_file w dir rel)) java_files,
     snd acc ++ flat_map (fun rel => snd (scan_file w dir rel)) java_files).
Proof.
  revert acc. induction java_files as [|rel l IH]; intros [fs out]; simpl.
  - by rewrite !app_nil_r.
  - rewrite IH. destruct (scan_file w dir rel) as [fi o]; simpl.
    by rewrite <- !app_assoc.
Qed.

Lemma scan_files_spec (w : world) (dir : Path) (java_files : list Path) :
  scan_files w dir java_files
  = (map (fun rel => fst (scan_file w dir rel)) java_files,
     flat_map (fun rel => snd (scan_file w dir rel)) java_files).
Proof. unfold scan_files. by rewrite scan_files_loop. Qed.

Lemma scan_files_app (w : world) (dir : Path) (l1 l2 : list Path) :
  scan_files w dir (l1 ++ l2)
  = (fst (scan_files w dir l1) ++ fst (scan_files w dir l2),
     snd (scan_files w dir l1) ++ snd (scan_files w dir l2)).
Proof. rewrite !scan_files_spec; simpl. by rewrite map_app, flat_map_app. Qed.

Lemma scan_file_unreadable (w : world) (dir rel : Path) (e : exn) :
  w_read w (dir ++ rel) = Raise e ->
  scan_file w dir rel = (unread_entry dir rel, [Unreadable (dir ++ rel) e]).
Proof. intros H. unfold scan_file. by rewrite H. Qed.

Lemma scan_file_readable (w : world) (dir rel : Path) (content : string) :
  w_read w (dir ++ rel) = Ok content ->
  scan_file w dir rel = (read_entry dir rel content, []).
Proof. intros H. unfold scan_file. by rewrite H. Qed.

Lemma sum_len_loop (key : file_info -> list string) (files : list file_info)
  (acc : Z) :
  fold_left (fun acc f => acc + Z.of_nat (length (key f))) files acc
  = acc + Z.of_nat (length (flat_map key files)).
Proof.
  revert acc. induction files as [|f fs IH]; intros acc; simpl.
  - lia.
  - rewrite IH, length_app. lia.
Qed.

Lemma sum_len_spec (key : file_info -> list string) (files : list file_info) :
  sum_len key files = Z.of_nat (length (flat_map key files)).
Proof. unfold sum_len. rewrite sum_len_loop. lia. Qed.

Lemma sum_of_loop (key : file_info -> nat) (files : list file_info) (acc : Z) :
  fold_left (fun acc f => acc + Z.of_nat (key f)) files acc
  = acc + Z.of_nat (list_sum (map key files)).
Proof.
  revert acc. induction files as [|f fs IH]; intros acc; simpl.
  - lia.
  - rewrite IH. lia.
Qed.

Lemma sum_of_spec (key : file_info -> nat) (files : list file_info) :
  sum_of key files = Z.of_nat (list_sum (map key files)).
Proof. unfold sum_of. rewrite sum_of_loop. lia. Qed.

Lemma sum_len_app (key : file_info -> list string) (l1 l2 : list file_info) :
  sum_len key (l1 ++ l2) = sum_len key l1 + sum_len key l2.
Proof. rewrite !sum_len_spec, flat_map_app, length_app. lia. Qed.

Lemma sum_of_app (key : file_info -> nat) (l1 l2 : list file_info) :
  sum_of key (l1 ++ l2) = sum_of key l1 + sum_of key l2.
Proof. rewrite !sum_of_spec, map_app, list_sum_app. lia. Qed.

Lemma sum_len_cons (key : file_info -> list string) (f : file_info)
  (l : list file_info) :
  sum_len key (f :: l) = Z.of_nat (length (key f)) + sum_len key l.
Proof. rewrite !sum_len_spec; simpl. rewrite length_app. lia. Qed.

Lemma sum_of_cons (key : file_info -> nat) (f : file_info)
  (l : list file_info) :
  sum_of key (f :: l) = Z.of_nat (key f) + sum_of key l.
Proof. rewrite !sum_of_spec; simpl. lia. Qed.

(** C2, as the code has it: a file that cannot be read is warned about and
    is still appended to the result, with no types, no methods and no lines.
    It counts as one file and adds nothing to the type, method and line
    totals; the entries of the files before and after it are those of a scan
    without it. *)
Theorem unreadable_file_is_kept (w : world) (dir : Path)
  (before after : list Path) (rel : Path) (e : exn) :
  w_rglob w dir = before ++ rel :: after ->
  w_read w (dir ++ rel) = Raise e ->
  let files := fst (_find_java_files w dir) in
  let others := fst (scan_files w dir (before ++ after)) in
  files = fst (scan_files w dir before) ++
          unread_entry dir rel :: fst (scan_files w dir after)
  /\ others = fst (scan_files w dir before) ++ fst (scan_files w dir after)
  /\ In (Unreadable (dir ++ rel) e) (snd (_find_java_files w dir))
  /\ length files = S (length others)
  /\ sum_len classes files = sum_len classes others
  /\ sum_len methods files = sum_len methods others
  /\ sum_of lines_of_code files = sum_of lines_of_code others.
Proof.
  intros Hls Hread files others. subst files others.
  unfold _find_java_files. rewrite Hls.
  change (before ++ rel :: after) with (before ++ [rel] ++ after).
  rewrite !scan_files_app; simpl.
  assert (Hone : scan_files w dir [rel]
                 = ([unread_entry dir rel], [Unreadable (dir ++ rel) e])).
  { rewrite scan_files_spec; simpl.
    by rewrite (scan_file_unreadable _ _ _ _ Hread). }
  rewrite Hone; simpl.
  repeat split.
  - apply in_or_app. right. by left.
  - rewrite !length_app; simpl. lia.
  - rewrite !sum_len_app, sum_len_cons; simpl. lia.
  - rewrite !sum_len_app, sum_len_cons; simpl. lia.
  - rewrite !sum_of_app, sum_of_cons; simpl. lia.
Qed.

(** The scan of [world_unreadable]: one file, which cannot be read. *)
Lemma unreadable_file_is_kept_witness :
  w_rglob world_unreadable java_dir = [] ++ ["A.java"%string] :: [] /\
  w_read world_unreadable (java_dir ++ ["A.java"%string]) = Raise UnicodeDecodeError /\
  fst (_find_java_files world_unreadable java_dir)
  = [unread_entry java_dir ["A.java"%string]].
Proof.
  assert (Hls : w_rglob world_unreadable java_dir = [] ++ ["A.java"%string] :: [])
    by reflexivity.
  assert (Hrd : w_read world_unreadable (java_dir ++ ["A.java"%string])
                = Raise UnicodeDecodeError) by reflexivity.
  split; [exact Hls|]. split; [exact Hrd|].
  exact (proj1 (unreadable_file_is_kept world_unreadable java_dir [] []
                  ["A.java"%string] UnicodeDecodeError Hls Hrd)).
Defined.

(** C2, as the claim has it, fails: the file of [world_unreadable] cannot be
    read, and the scan's result still holds an entry for it, so the scan
    counts one file. *)
Lemma unreadable_file_not_excluded :
  w_read world_unreadable (java_dir ++ ["A.java"%string]) = Raise UnicodeDecodeError
  /\ fst (_find_java_files world_unreadable java_dir)
     = [ {| path := "A.java"; full_path := "/svc/src/main/java/A.java";
            classes := []; methods := []; lines_of_code := 0%nat |} ]
  /\ snd (_find_java_files world_unreadable java_dir)
     = [ Unreadable (java_dir ++ ["A.java"%string]) UnicodeDecodeError ]
  /\ _calculate_coverage_metrics (fst (_find_java_files world_unreadable java_dir)) []
     = Ok {| total_source_files := 1; total_test_files := 0;
             total_source_classes := 0; total_test_classes := 0;
             total_source_methods := 0; total_test_methods := 0;
             total_source_loc := 0; total_test_loc := 0;
             estimated_file_coverage := PyNum.PyFloat (S754_zero false);
             estimated_class_coverage := PyNum.PyInt 0;
             test_to_source_ratio := PyNum.PyInt 0 |}.
Proof. repeat split; vm_compute; reflexivity. Qed.

(** C9: the summaries depend on the tree alone. Two scans of a tree that
    lists the same files with the same texts give the same sequence of
    summaries, whatever else differs between the two worlds; and the types,
    methods and line count of a readable file are the extraction functions
    applied to its text. *)
Theorem rescan_unchanged_tree (w w' : world) (dir : Path) :
  w_rglob w' dir = w_rglob w dir ->
  (forall rel, In rel (w_rglob w dir) ->
               w_read w' (dir ++ rel) = w_read w (dir ++ rel)) ->
  _find_java_files w' dir = _find_java_files w dir
  /\ forall rel content,
       In rel (w_rglob w dir) -> w_read w (dir ++ rel) = Ok content ->
       exists file_info,
         In file_info (fst (_find_java_files w dir))
         /\ path file_info = str_rel rel
         /\ classes file_info = _extract_classes content
         /\ methods file_info = _extract_methods content
         /\ lines_of_code file_info = count_lines content.
Proof.
  intros Hls Hrd. unfold _find_java_files. rewrite Hls, !scan_files_spec.
  split.
  - f_equal.
    + apply map_ext_in. intros rel Hin. unfold scan_file.
      by rewrite (Hrd rel Hin).
    + revert Hrd. generalize (w_rglob w dir) as l.
      induction l as [|rel l IH]; intros Hrd; [done|]. simpl.
      rewrite IH.
      * f_equal. unfold scan_file. rewrite (Hrd rel); [done|by left].
      * intros r Hr. apply Hrd. by right.
  - intros rel content Hin Hok. exists (read_entry dir rel content).
    split; [|done]. simpl.
    apply in_map_iff. exists rel. split; [|done].
    by rewrite (scan_file_readable _ _ _ _ Hok).
Qed.

(** The tree of [world_widget], scanned again in [world_widget_later]. *)
Lemma rescan_unchanged_tree_witness :
  _find_java_files world_widget_later java_dir
  = _find_java_files world_widget java_dir.
Proof.
  refine (proj1 (rescan_unchanged_tree world_widget world_widget_later
                   java_dir _ _)).
  - reflexivity.
  - intros rel _. reflexivity.
Defined.

(** ** Floats: no operation of the analyser yields NaN *)

Import PyNum.

Lemma shr_1_nonneg (mrs : shr_record) :
  0 <= shr_m mrs -> 0 <= shr_m (shr_1 mrs).
Proof.
  destruct mrs as [m r s]; simpl.
  destruct m as [|p|p]; [done| |lia].
  intros _. destruct p; simpl; lia.
Qed.

Lemma iter_shr_1_nonneg (p : positive) (mrs : shr_record) :
  0 <= shr_m mrs -> 0 <= shr_m (SpecFloat.iter_pos shr_1 p mrs).
Proof.
  revert mrs. induction p as [p IH|p IH|]; intros mrs H; simpl.
  - apply IH, IH. by apply shr_1_nonneg.
  - by apply IH, IH.
  - by apply shr_1_nonneg.
Qed.

Lemma shr_nonneg (mrs : shr_record) (e n : Z) :
  0 <= shr_m mrs -> 0 <= shr_m (fst (shr mrs e n)).
Proof.
  intros H. destruct n as [|p|p]; simpl; [done| |done].
  by apply iter_shr_1_nonneg.
Qed.

Lemma shr_fexp_nonneg (m e : Z) (l : location) :
  0 <= m -> 0 <= shr_m (fst (shr_fexp prec emax m e l)).
Proof.
  intros H. unfold shr_fexp. apply shr_nonneg.
  destruct l as [|[]]; simpl; done.
Qed.

Lemma round_nearest_even_nonneg (m : Z) (l : location) :
  0 <= m -> 0 <= round_nearest_even m l.
Proof.
  intros H. destruct l as [|[]]; simpl; try lia.
  destruct (Z.even m); lia.
Qed.

Lemma binary_round_aux_not_nan (s : bool) (m e : Z) (l : location) :
  0 <= m -> is_nan (binary_round_aux prec emax s m e l) = false.
Proof.
  intros H. unfold binary_round_aux.
  pose proof (shr_fexp_nonneg m e l H) as H1.
  destruct (shr_fexp prec emax m e l) as [mrs' e']; simpl in H1.
  pose proof (shr_fexp_nonneg _ e' loc_Exact
                (round_nearest_even_nonneg _ (loc_of_shr_record mrs') H1)) as H2.
  destruct (shr_fexp prec emax _ e' loc_Exact) as [mrs'' e'']; simpl in H2.
  destruct (shr_m mrs'') as [|p|p]; [done| |lia].
  by destruct (e'' <=? emax - prec).
Qed.

Lemma SFdiv_core_nonneg (m1 m2 : positive) (e1 e2 : Z) :
  0 <= fst (fst (SFdiv_core_binary prec emax (Zpos m1) e1 (Zpos m2) e2)).
Proof.
  unfold SFdiv_core_binary.
  set (s := e1 - e2 - _).
  set (m' := match s with Z0 => _ | Zpos _ => _ | Zneg _ => _ end).
  assert (Hm : 0 <= m').
  { subst m'. destruct s; [lia| |lia]. apply Z.shiftl_nonneg. lia. }
  pose proof (Z_div_mod m' (Zpos m2) eq_refl) as Hd.
  destruct (Z.div_eucl m' (Zpos m2)) as [q r]; simpl.
  destruct Hd as [Heq Hr]. nia.
Qed.

Lemma SFdiv_finite_not_nan (s1 s2 : bool) (m1 m2 : positive) (e1 e2 : Z) :
  is_nan (SFdiv prec emax (S754_finite s1 m1 e1) (S754_finite s2 m2 e2)) = false.
Proof.
  simpl. pose proof (SFdiv_core_nonneg m1 m2 e1 e2) as H.
  destruct (SFdiv_core_binary prec emax (Zpos m1) e1 (Zpos m2) e2) as [[mz ez] lz].
  simpl in H. by apply binary_round_aux_not_nan.
Qed.

Lemma truediv_ok (a b : Z) :
  b <> 0 -> exists q, truediv a b = Ok q /\ is_nan q = false.
Proof.
  intros Hb. unfold truediv.
  destruct (Z.eqb_spec b 0) as [|_]; [done|].
  eexists; split; [reflexivity|].
  destruct b as [|pb|pb]; [done| |]; destruct a as [|pa|pa];
    try reflexivity; apply SFdiv_finite_not_nan.
Qed.

Lemma mul_int_100_not_nan (x : spec_float) :
  is_nan x = false -> is_nan (mul_int x 100) = false.
Proof.
  intros H. unfold mul_int.
  change (float_of_int 100) with (S754_finite false 7036874417766400 (-46)).
  destruct x as [s|s| |s m e]; try done.
  simpl. by apply binary_round_aux_not_nan.
Qed.

Lemma float_round_2_not_nan (x : spec_float) :
  is_nan x = false -> is_nan (float_round x 2) = false.
Proof.
  intros H. destruct x as [s|s| |s m e]; try done.
  unfold float_round.
  set (q := match e with Z0 => _ | Zpos _ => _ | Zneg _ => _ end).
  destruct (q =? 0) eqn:Hq; [done|].
  apply Z.eqb_neq in Hq.
  change (int_as_float (10 ^ 2)) with (S754_finite false 100 0).
  destruct s; destruct q as [|p|p]; try done; apply SFdiv_finite_not_nan.
Qed.

(** A percentage of the analyser: an [int] zero for a zero denominator,
    otherwise the rounded float, which is a number. *)
Lemma percentage_ok (a b : Z) :
  0 <= b ->
  exists p, percentage a b = Ok p
    /\ (b = 0 -> p = PyInt 0)
    /\ (b <> 0 -> exists q, truediv a b = Ok q
                    /\ p = PyFloat (mul_int q 100)
                    /\ is_nan (float_round (mul_int q 100) 2) = false).
Proof.
  intros Hb. unfold percentage.
  destruct (Z.ltb_spec 0 b) as [Hpos|Hle].
  - destruct (truediv_ok a b) as (q & Hq & Hnan); [lia|].
    rewrite Hq; simpl. eexists; split; [reflexivity|].
    split; [lia|]. intros _. exists q. repeat split.
    by apply float_round_2_not_nan, mul_int_100_not_nan.
  - eexists; split; [reflexivity|]. split; [done|lia].
Qed.

Lemma round_percentage (a b : Z) :
  0 <= b ->
  exists p, percentage a b = Ok p /\ is_percentage a b (round p 2).
Proof.
  intros Hb. destruct (percentage_ok a b Hb) as (p & Hp & H0 & Hne).
  exists p. split; [done|]. split.
  - intros Hz. by rewrite (H0 Hz).
  - intros Hnz. destruct (Hne Hnz) as (q & Hq & -> & Hnan).
    by exists q.
Qed.

(** ** The coverage calculator *)

(** [round_half_even n d] is nearest to [n / d], and even at a tie. *)
Lemma round_half_even_nearest (n d : Z) :
  0 < d ->
  let k := round_half_even n d in
  2 * Z.abs (n - k * d) < d
  \/ 2 * Z.abs (n - k * d) = d /\ Z.even k = true.
Proof.
  intros Hd. unfold round_half_even.
  pose proof (Z.div_mod n d ltac:(lia)) as Hdm.
  pose proof (Z.mod_pos_bound n d Hd) as Hr.
  destruct (Z.compare_spec (2 * (n mod d)) d) as [Heq|Hlt|Hgt]; cbv zeta.
  - right. destruct (Z.even (n / d)) eqn:He.
    + split; [nia|done].
    + split; [nia|]. rewrite Z.even_add, He. done.
  - left. nia.
  - left. nia.
Qed.

Lemma round_half_even_nonneg (n d : Z) :
  0 <= n -> 0 < d -> 0 <= round_half_even n d.
Proof.
  intros Hn Hd. unfold round_half_even.
  pose proof (Z.div_pos n d Hn Hd).
  destruct (2 * (n mod d) ?= d); [destruct (Z.even (n / d))|..]; lia.
Qed.

(** The same in rationals. *)
Lemma nearest_even_quotient (n : Z) (d : positive) (k : Z) :
  (2 * Z.abs (n - k * Zpos d) < Zpos d
   \/ 2 * Z.abs (n - k * Zpos d) = Zpos d /\ Z.even k = true) <->
  nearest_even (Qmake n d) k.
Proof.
  unfold nearest_even, Qlt, Qeq, Qabs, Qminus, Qplus, Qopp, inject_Z.
  cbn [Qnum Qden]. rewrite !Pos2Z.inj_mul.
  replace (n * 1 + - k * Zpos d) with (n - k * Zpos d) by lia.
  split; (intros [H|[H He]]; [left|right; split; [|done]]); lia.
Qed.

(** There is one such integer. *)
Lemma nearest_even_unique (v : Q) (k k' : Z) :
  nearest_even v k -> nearest_even v k' -> k = k'.
Proof.
  destruct v as [n d]. rewrite <- !nearest_even_quotient.
  intros H H'.
  assert (Hk : k' = k \/ k' = k + 1 \/ k = k' + 1 \/ False).
  { destruct H as [H|[H _]], H' as [H'|[H' _]]; nia. }
  destruct Hk as [->|[->|[->|[]]]]; [done| |].
  - exfalso. destruct H as [H|[H He]], H' as [H'|[H' He']]; try nia.
    rewrite Z.even_add, He in He'. done.
  - exfalso. destruct H as [H|[H He]], H' as [H'|[H' He']]; try nia.
    rewrite Z.even_add, He' in He. done.
Qed.

Lemma nearest_even_integer (k : Z) : nearest_even (inject_Z k) k.
Proof.
  left. unfold Qlt, Qabs, Qminus, Qplus, Qopp, inject_Z. cbn [Qnum Qden].
  replace (k * 1 + - k * 1) with 0 by lia. done.
Qed.

Lemma nearest_even_proper (v v' : Q) (k : Z) :
  Qeq v v' -> nearest_even v k -> nearest_even v' k.
Proof.
  intros Hv. unfold nearest_even. cbv zeta. by rewrite Hv.
Qed.

(** [round(x, 2)] of the model is the rounding to hundredths. *)
Lemma float_round_2_rounded (x : spec_float) :
  rounded_to_hundredths x (float_round x 2).
Proof.
  destruct x as [s|s| |s m e]; try done.
  unfold rounded_to_hundredths, float_round.
  set (q := match e with Z0 => _ | Zpos _ => _ | Zneg _ => _ end).
  assert (Hq : 0 <= q
               /\ nearest_even (inject_Z 100 * exact (Zpos m) e) q).
  { subst q. destruct e as [|p|p].
    - split; [lia|]. unfold exact.
      apply (nearest_even_proper (inject_Z (Zpos m * 10 ^ 2 * 2 ^ 0))).
      + rewrite <- inject_Z_mult. apply inject_Z_injective. lia.
      + apply nearest_even_integer.
    - split; [lia|]. unfold exact.
      apply (nearest_even_proper (inject_Z (Zpos m * 10 ^ 2 * 2 ^ Zpos p))).
      + rewrite <- inject_Z_mult. apply inject_Z_injective. lia.
      + apply nearest_even_integer.
    - assert (Hd : 0 < 2 ^ Zpos p) by (apply Z.pow_pos_nonneg; lia).
      split; [apply round_half_even_nonneg; lia|]. unfold exact.
      apply (nearest_even_proper (Qmake (Zpos m * 10 ^ 2) (2 ^ p))).
      + unfold Qeq, Qmult, inject_Z. cbn [Qnum Qden]. lia.
      + apply nearest_even_quotient. rewrite Pos2Z.inj_pow.
        apply round_half_even_nearest. done. }
  destruct Hq as [Hq0 Hq]. exists q. split_and!; [done|done|].
  destruct q as [|pq|pq]; [done| |lia].
  cbn [Z.eqb hundredths]. by destruct s.
Qed.

Lemma percentage_rounded (n d : Z) (p : num) :
  percentage n d = Ok p -> is_rounded_percentage n d (round p 2).
Proof.
  intros Hp. split_and!.
  - intros ->. change (Ok (PyInt 0) = Ok p) in Hp. by injection Hp as <-.
  - intros Hd ->. destruct d as [|pd|pd]; [lia| |lia].
    cbn in Hp. by injection Hp as <-.
  - intros pn pd -> -> quotient product.
    cbn [percentage Z.ltb Z.compare truediv Z.eqb bind int_as_float] in Hp.
    injection Hp as <-. cbn [round].
    eexists. split; [reflexivity|]. split.
    + apply float_round_2_not_nan, mul_int_100_not_nan.
      exact (SFdiv_finite_not_nan false false pn pd 0 0).
    + apply float_round_2_rounded.
Qed.

(** C5: [_calculate_coverage_metrics] returns for every pair of file
    sequences (it raises nothing); its counts are the lengths and sums over
    the two sequences; and each of its three percentages is the [int] 0 when
    its denominator is 0, and otherwise the float that binary64 arithmetic
    gives for [round(n / d * 100, 2)]: the quotient rounded to binary64, the
    product with 100.0 rounded again, and the exact value of that product
    rounded to the nearest number of hundredths, ties to even; it is never
    NaN. *)
Theorem coverage_percentages_rounded
  (source_files test_files : list file_info) :
  exists m,
    _calculate_coverage_metrics source_files test_files = Ok m
    /\ total_source_files m = Z.of_nat (length source_files)
    /\ total_test_files m = Z.of_nat (length test_files)
    /\ total_source_classes m = Z.of_nat (length (flat_map classes source_files))
    /\ total_test_classes m = Z.of_nat (length (flat_map classes test_files))
    /\ total_source_loc m = Z.of_nat (list_sum (map lines_of_code source_files))
    /\ total_test_loc m = Z.of_nat (list_sum (map lines_of_code test_files))
    /\ is_rounded_percentage (total_test_files m) (total_source_files m)
         (estimated_file_coverage m)
    /\ is_rounded_percentage (total_test_classes m) (total_source_classes m)
         (estimated_class_coverage m)
    /\ is_rounded_percentage (total_test_loc m) (total_source_loc m)
         (test_to_source_ratio m).
Proof.
  unfold _calculate_coverage_metrics.
  rewrite !sum_len_spec, !sum_of_spec.
  set (sf := Z.of_nat (length source_files)).
  set (tf := Z.of_nat (length test_files)).
  set (sc := Z.of_nat (length (flat_map classes source_files))).
  set (tc := Z.of_nat (length (flat_map classes test_files))).
  set (sl := Z.of_nat (list_sum (map lines_of_code source_files))).
  set (tl := Z.of_nat (list_sum (map lines_of_code test_files))).
  destruct (round_percentage tf sf) as (pf & Hpf & _); [lia|].
  destruct (round_percentage tc sc) as (pc & Hpc & _); [lia|].
  destruct (round_percentage tl sl) as (pl & Hpl & _); [lia|].
  assert (Hratio :
    (if 0 <? sl
     then bind (truediv tl sl) (fun q => Ok (round (PyFloat (mul_int q 100)) 2))
     else Ok (PyInt 0)) = Ok (round pl 2)).
  { unfold percentage in Hpl. destruct (0 <? sl).
    - destruct (truediv tl sl) as [q|e]; simpl in *; [|done].
      by inversion Hpl.
    - by inversion Hpl. }
  rewrite Hpf; cbn [bind]. rewrite Hpc; cbn [bind]. rewrite Hratio; cbn [bind].
  eexists; split; [reflexivity|].
  cbn [total_source_files total_test_files total_source_classes
       total_test_classes total_source_loc total_test_loc
       estimated_file_coverage estimated_class_coverage test_to_source_ratio].
  split_and!; try done; by apply percentage_rounded.
Qed.

(** 23 test files for 160 source files: [23 / 160 * 100] is 14.375, which
    rounds to 14.38, but the product binary64 gives lies below 14.375, and
    the analyser reports 14.37. *)
Lemma file_coverage_23_of_160 :
  exists m,
    _calculate_coverage_metrics (repeat (source_of "A"%string) 160)
      (repeat (test_of "ATest"%string) 23) = Ok m
    /\ total_test_files m = 23
    /\ total_source_files m = 160
    /\ exact_percentage 23 160 1438
    /\ ~ exact_percentage 23 160 1437
    /\ estimated_file_coverage m = PyFloat (hundredths false 1437)
    /\ hundredths false 1437 <> hundredths false 1438
    /\ exists v,
         float_value
           (SFmul 53 1024
              (SFdiv 53 1024 (S754_finite false 23 0) (S754_finite false 160 0))
              (binary_normalize 53 1024 100 0 false)) = Some v
         /\ Qlt v (Qmake 14375 1000).
Proof.
  eexists. split; [vm_compute; reflexivity|].
  split_and!.
  - reflexivity.
  - reflexivity.
  - right. split; reflexivity.
  - intros [H|[_ H]]; [|discriminate H]. vm_compute in H. discriminate H.
  - vm_compute. reflexivity.
  - vm_compute. intros [=].
  - eexists. split; [vm_compute; reflexivity|]. reflexivity.
Qed.

(** ** The report aggregator *)

Lemma add_service_loop (records : list coverage_data)
  (a b c : Z) (r : list string) :
  fold_left add_service records (a, b, c, r)
  = (a + Zsum (map (fun d => total_source_files (coverage_metrics d)) records),
     b + Zsum (map (fun d => total_test_files (coverage_metrics d)) records),
     c + Zsum (map (fun d => Z.of_nat (length (missing_tests d))) records),
     r ++ flat_map recommendations records).
Proof.
  revert a b c r. induction records as [|d l IH]; intros a b c r; simpl.
  - by rewrite !Z.add_0_r, app_nil_r.
  - rewrite IH. by rewrite <- app_assoc, !Z.add_assoc.
Qed.

Lemma percentage_returns (a b : Z) : exists p, percentage a b = Ok p.
Proof.
  unfold percentage. destruct (Z.ltb_spec 0 b) as [Hpos|Hle].
  - destruct (truediv_ok a b) as (q & Hq & _); [lia|].
    rewrite Hq; simpl. by eexists.
  - by eexists.
Qed.

Lemma percentage_zero (a : Z) : percentage a 0 = Ok (PyInt 0).
Proof. reflexivity. Qed.

(** C8: the overall statistics hold the sums of the per-service totals and
    the number of services; the overall percentage is computed from the two
    summed totals the way the per-service one is (the [int] 0 when no source
    file was counted), and the recommendations are collected as a set. For
    two services with 4 and 6 source files and 2 and 3 test files the totals
    are 10 and 5 and the percentage is 50.0. *)
Theorem overall_statistics_sums :
  (forall services : list (string * coverage_data),
     let records := map snd services in
     let src := Zsum (map (fun d => total_source_files (coverage_metrics d)) records) in
     let tst := Zsum (map (fun d => total_test_files (coverage_metrics d)) records) in
     exists o p,
       _calculate_overall_statistics services = Ok o
       /\ total_services o = Z.of_nat (length services)
       /\ overall_source_files o = src
       /\ overall_test_files o = tst
       /\ total_missing_tests o
          = Zsum (map (fun d => Z.of_nat (length (missing_tests d))) records)
       /\ percentage tst src = Ok p
       /\ overall_file_coverage o = round p 2
       /\ (src = 0 -> overall_file_coverage o = PyInt 0)
       /\ (0 <= src -> is_percentage tst src (overall_file_coverage o))
       /\ unique_recommendations o
          = list_to_set (flat_map recommendations records))
  /\ (forall (name1 name2 : string) (d1 d2 : coverage_data),
        total_source_files (coverage_metrics d1) = 4 ->
        total_test_files (coverage_metrics d1) = 2 ->
        total_source_files (coverage_metrics d2) = 6 ->
        total_test_files (coverage_metrics d2) = 3 ->
        exists o,
          _calculate_overall_statistics [(name1, d1); (name2, d2)] = Ok o
          /\ overall_source_files o = 10
          /\ overall_test_files o = 5
          /\ overall_file_coverage o = PyFloat (float_of_int 50)).
Proof.
  assert (General : forall services : list (string * coverage_data),
     let records := map snd services in
     let src := Zsum (map (fun d => total_source_files (coverage_metrics d)) records) in
     let tst := Zsum (map (fun d => total_test_files (coverage_metrics d)) records) in
     exists p,
       percentage tst src = Ok p /\
       _calculate_overall_statistics services
       = Ok {| total_services := Z.of_nat (length services);
               overall_source_files := src;
               overall_test_files := tst;
               total_missing_tests :=
                 Zsum (map (fun d => Z.of_nat (length (missing_tests d))) records);
               overall_file_coverage := round p 2;
               unique_recommendations :=
                 list_to_set (flat_map recommendations records) |}).
  { intros services records src tst.
    destruct (percentage_returns tst src) as [p Hp]. exists p. split; [done|].
    unfold _calculate_overall_statistics.
    rewrite add_service_loop. fold records. rewrite !Z.add_0_l, app_nil_l.
    fold src tst. by rewrite Hp. }
  split.
  - intros services records src tst.
    destruct (General services) as (p & Hp & Hcalc).
    fold records src tst in Hp, Hcalc.
    eexists; exists p. split; [exact Hcalc|]. simpl.
    split_and!; try done.
    + intros Hz. rewrite Hz, percentage_zero in Hp. by inversion Hp.
    + intros Hpos. destruct (round_percentage tst src Hpos) as (p' & Hp' & H).
      rewrite Hp in Hp'. inversion Hp'. by subst p'.
  - intros name1 name2 d1 d2 Hs1 Ht1 Hs2 Ht2.
    destruct (General [(name1, d1); (name2, d2)]) as (p & Hp & Hcalc).
    simpl in Hp, Hcalc. rewrite Hs1, Ht1, Hs2, Ht2 in Hp, Hcalc.
    eexists; split; [exact Hcalc|]. simpl. split_and!; try done.
    vm_compute in Hp. inversion Hp. subst p. vm_compute. reflexivity.
Qed.

(** ** Floats: exact products and comparisons *)

(** Shifting a mantissa to the left. *)
Lemma iter_xO_succ (p k : positive) :
  Pos.iter xO p (Pos.succ k) = xO (Pos.iter xO p k).
Proof. apply Pos.iter_succ. Qed.

Lemma digits2_iter_xO (p k : positive) :
  digits2_pos (Pos.iter xO p k) = (digits2_pos p + k)%positive.
Proof.
  induction k as [|k IH] using Pos.peano_ind.
  - simpl. lia.
  - rewrite iter_xO_succ. simpl. rewrite IH. lia.
Qed.

Lemma Zpos_iter_xO (p k : positive) :
  Zpos (Pos.iter xO p k) = Zpos p * 2 ^ Zpos k.
Proof.
  induction k as [|k IH] using Pos.peano_ind.
  - simpl. lia.
  - rewrite iter_xO_succ, Pos2Z.inj_xO, IH, Pos2Z.inj_succ, Z.pow_succ_r by lia.
    lia.
Qed.

(** A mantissa of 53 bits with an exponent in range is its own rounding. *)
Lemma binary_round_aux_canonical (s : bool) (m : positive) (e : Z) :
  digits2_pos m = 53%positive -> -1074 <= e <= 971 ->
  binary_round_aux prec emax s (Zpos m) e loc_Exact = S754_finite s m e.
Proof.
  intros Hd He. unfold binary_round_aux, shr_fexp.
  cbn [Zdigits2 shr_record_of_loc]. rewrite Hd.
  assert (Hf : fexp prec emax (53 + e) - e = 0).
  { unfold fexp, SpecFloat.emin, prec, emax. lia. }
  rewrite Hf. cbn [shr shr_m loc_of_shr_record round_nearest_even Zdigits2
                   shr_record_of_loc].
  rewrite Hd, Hf. cbn [shr shr_m].
  unfold prec, emax. destruct (Z.leb_spec e (1024 - 53)); [done|lia].
Qed.

(** [float(z)] for a positive integer of at most 53 bits: the integer
    itself, its mantissa shifted to 53 bits. *)
Lemma float_of_int_exact (p : positive) :
  (digits2_pos p <= 53)%positive ->
  exists (m : positive) (k : Z),
    float_of_int (Zpos p) = S754_finite false m (- k)
    /\ digits2_pos m = 53%positive
    /\ 0 <= k <= 52
    /\ Zpos m = Zpos p * 2 ^ k.
Proof.
  intros Hd. unfold float_of_int, binary_normalize, binary_round, shl_align.
  rewrite Z.add_0_r.
  assert (Hf : fexp prec emax (Zpos (digits2_pos p)) - 0
               = Zpos (digits2_pos p) - 53).
  { unfold fexp, SpecFloat.emin, prec, emax. lia. }
  rewrite Hf.
  destruct (Zpos (digits2_pos p) - 53) as [|q|q] eqn:Hq; [|lia|].
  - exists p, 0. rewrite binary_round_aux_canonical by lia.
    split_and!; [done|lia|lia|lia|lia].
  - exists (Pos.iter xO p q), (Zpos q).
    assert (Hdq : digits2_pos (Pos.iter xO p q) = 53%positive).
    { rewrite digits2_iter_xO. lia. }
    rewrite binary_round_aux_canonical by (done || lia).
    split_and!; [by f_equal; lia|done|lia|lia|apply Zpos_iter_xO].
Qed.

Lemma shr_52 (m : positive) :
  SpecFloat.iter_pos shr_1 52
    {| shr_m := Zpos (Pos.iter xO m 52); shr_r := false; shr_s := false |}
  = {| shr_m := Zpos m; shr_r := false; shr_s := false |}.
Proof. reflexivity. Qed.

(** The product of a 53-bit float with 0.5 is exact: the same mantissa, the
    exponent one less. *)
Lemma SFmul_half_exact (s : bool) (m : positive) (e : Z) :
  digits2_pos m = 53%positive -> -1073 <= e <= 972 ->
  SFmul prec emax (S754_finite s m e) half = S754_finite s m (e - 1).
Proof.
  intros Hd He. unfold half. cbn [SFmul]. rewrite xorb_false_r.
  rewrite Pos.mul_comm.
  change (4503599627370496 * m)%positive with (Pos.iter xO m 52).
  unfold binary_round_aux, shr_fexp.
  cbn [Zdigits2 shr_record_of_loc]. rewrite digits2_iter_xO, Hd.
  assert (Hf : fexp prec emax (Zpos (53 + 52) + (e + -53)) - (e + -53) = 52).
  { unfold fexp, SpecFloat.emin, prec, emax. lia. }
  rewrite Hf. cbn [shr]. rewrite shr_52.
  cbn [shr_m loc_of_shr_record round_nearest_even Zdigits2]. rewrite Hd.
  assert (Hg : fexp prec emax (Zpos 53 + (e + -53 + 52)) - (e + -53 + 52) = 0).
  { unfold fexp, SpecFloat.emin, prec, emax. lia. }
  rewrite Hg. cbn [shr shr_m].
  unfold prec, emax. destruct (Z.leb_spec (e + -53 + 52) (1024 - 53)); [|lia].
  f_equal. lia.
Qed.

Lemma digits2_pos_lower (p : positive) :
  2 ^ (Zpos (digits2_pos p) - 1) <= Zpos p.
Proof.
  induction p as [p IH|p IH|]; [| |done].
  - cbn [digits2_pos]. rewrite Pos2Z.inj_succ.
    replace (Z.succ (Zpos (digits2_pos p)) - 1)
      with (Z.succ (Zpos (digits2_pos p) - 1)) by lia.
    rewrite Z.pow_succ_r by lia. lia.
  - cbn [digits2_pos]. rewrite Pos2Z.inj_succ.
    replace (Z.succ (Zpos (digits2_pos p)) - 1)
      with (Z.succ (Zpos (digits2_pos p) - 1)) by lia.
    rewrite Z.pow_succ_r by lia. lia.
Qed.

Lemma digits2_pos_53 (p : positive) :
  Zpos p < 2 ^ 53 -> (digits2_pos p <= 53)%positive.
Proof.
  intros Hp. pose proof (digits2_pos_lower p) as Hl.
  destruct (Pos.leb_spec (digits2_pos p) 53) as [|Hgt]; [done|exfalso].
  assert (2 ^ 53 <= 2 ^ (Zpos (digits2_pos p) - 1)).
  { apply Z.pow_le_mono_r; lia. }
  lia.
Qed.

(** Rule 4 on integers: for a source count below [2 ^ 53], the float
    comparison [t < s * 0.5] is the comparison of [2 * t] with [s]. *)
Lemma int_lt_half (t s : Z) :
  0 <= s < 2 ^ 53 ->
  int_lt_float t (int_mul s half) = (2 * t <? s).
Proof.
  intros Hs. unfold int_mul. destruct s as [|p|p]; [| |lia].
  - cbn. destruct (Z.ltb_spec t 0), (Z.ltb_spec (2 * t) 0); done || lia.
  - assert (Hd : (digits2_pos p <= 53)%positive).
    { apply digits2_pos_53. lia. }
    destruct (float_of_int_exact p Hd) as (m & k & -> & Hm & Hk & Hv).
    rewrite SFmul_half_exact by (done || lia).
    unfold int_lt_float.
    destruct (- k - 1) as [|q|q] eqn:Hq; [lia|lia|].
    assert (Hpow : 2 ^ Zpos q = 2 * 2 ^ k).
    { replace (Zpos q) with (Z.succ k) by lia. apply Z.pow_succ_r. lia. }
    rewrite Hpow, Hv.
    assert (0 < 2 ^ k) by (apply Z.pow_pos_nonneg; lia).
    destruct (Z.ltb_spec (t * (2 * 2 ^ k)) (Zpos p * 2 ^ k)),
             (Z.ltb_spec (2 * t) (Zpos p)); done || nia.
Qed.

Lemma exact_below (v e z : Z) :
  Qlt (exact v e) (inject_Z z)
  <-> match e with
      | Zneg p => v < z * 2 ^ Zpos p
      | _ => v * 2 ^ e < z
      end.
Proof.
  unfold exact. destruct e as [|p|p].
  - by rewrite <- Zlt_Qlt.
  - by rewrite <- Zlt_Qlt.
  - unfold Qlt, inject_Z. cbn [Qnum Qden]. rewrite Pos2Z.inj_pow. lia.
Qed.

Lemma exact_above (v e z : Z) :
  Qlt (inject_Z z) (exact v e)
  <-> match e with
      | Zneg p => z * 2 ^ Zpos p < v
      | _ => z < v * 2 ^ e
      end.
Proof.
  unfold exact. destruct e as [|p|p].
  - by rewrite <- Zlt_Qlt.
  - by rewrite <- Zlt_Qlt.
  - unfold Qlt, inject_Z. cbn [Qnum Qden]. rewrite Pos2Z.inj_pow. lia.
Qed.

(** [x < z] compares the exact value of the metric [x] with [z]. *)
Lemma lt_int_value (x : num) (z : Z) (v : Q) :
  num_value x = Some v ->
  lt_int x z = true <-> Qlt v (inject_Z z).
Proof.
  destruct x as [i|[s|s| |s m e]]; cbn [num_value float_value]; try done;
    intros [= <-]; cbn [lt_int float_lt_int].
  - by rewrite Z.ltb_lt, <- Zlt_Qlt.
  - by rewrite Z.ltb_lt, <- Zlt_Qlt.
  - rewrite exact_below. destruct e; by rewrite Z.ltb_lt.
Qed.

(** ** The recommendation engine *)

Lemma generate_recommendations_rules (cd : coverage_data) :
  _generate_recommendations cd
  = (if lt_int (estimated_file_coverage (coverage_metrics cd)) 50
     then [low_file_coverage] else [])
    ++ (if lt_int (test_to_source_ratio (coverage_metrics cd)) 30
        then [low_test_volume] else [])
    ++ (match missing_tests cd with
        | [] => []
        | _ :: _ =>
            [classes_without_tests (Z.of_nat (length (missing_tests cd)))]
        end)
    ++ (if int_lt_float (total_test_methods (coverage_metrics cd))
             (int_mul (total_source_methods (coverage_metrics cd)) half)
        then [few_test_methods] else []).
Proof.
  unfold _generate_recommendations.
  destruct (lt_int (estimated_file_coverage _) 50);
    destruct (lt_int (test_to_source_ratio _) 30);
    destruct (missing_tests cd) as [|x l];
    destruct (int_lt_float _ _); reflexivity.
Qed.

Lemma classes_without_tests_head (n : Z) :
  exists rest, classes_without_tests n = String "229" rest.
Proof. unfold classes_without_tests. simpl. by eexists. Qed.

(** C7: the recommendations are the messages of four rules, each decided
    on its own by a fixed threshold and listed in a fixed order; a message is
    listed exactly when its rule's condition holds; for a file coverage
    of 40.0, a line ratio of 60.0, no missing test and 10 test methods for 10
    source methods the only recommendation is the one for low file
    coverage. The conditions, in exact numbers: the value of the file
    coverage is below 50; the value of the line ratio is below 30; the list
    of missing tests is not empty; and, for a count of source methods below
    [2 ^ 53], twice the count of test methods is below the count of source
    methods. *)
Theorem recommendations_by_rule :
  (forall cd : coverage_data,
     let m := coverage_metrics cd in
     let rule1 := lt_int (estimated_file_coverage m) 50 in
     let rule2 := lt_int (test_to_source_ratio m) 30 in
     let rule3 := negb (bool_decide (length (missing_tests cd) = 0%nat)) in
     let rule4 := int_lt_float (total_test_methods m)
                    (int_mul (total_source_methods m) half) in
     _generate_recommendations cd
     = (if rule1 then [low_file_coverage] else [])
       ++ (if rule2 then [low_test_volume] else [])
       ++ (if rule3
           then [classes_without_tests (Z.of_nat (length (missing_tests cd)))]
           else [])
       ++ (if rule4 then [few_test_methods] else [])
     /\ (In low_file_coverage (_generate_recommendations cd) <-> rule1 = true)
     /\ (In low_test_volume (_generate_recommendations cd) <-> rule2 = true)
     /\ ((exists n, In (classes_without_tests n) (_generate_recommendations cd))
         <-> rule3 = true)
     /\ (In few_test_methods (_generate_recommendations cd) <-> rule4 = true))
  /\ (forall cd : coverage_data,
        estimated_file_coverage (coverage_metrics cd) = PyFloat (float_of_int 40) ->
        test_to_source_ratio (coverage_metrics cd) = PyFloat (float_of_int 60) ->
        missing_tests cd = [] ->
        total_test_methods (coverage_metrics cd) = 10 ->
        total_source_methods (coverage_metrics cd) = 10 ->
        _generate_recommendations cd = [low_file_coverage])
  /\ (forall (cd : coverage_data) (v : Q),
        num_value (estimated_file_coverage (coverage_metrics cd)) = Some v ->
        In low_file_coverage (_generate_recommendations cd)
        <-> Qlt v (inject_Z 50))
  /\ (forall (cd : coverage_data) (v : Q),
        num_value (test_to_source_ratio (coverage_metrics cd)) = Some v ->
        In low_test_volume (_generate_recommendations cd)
        <-> Qlt v (inject_Z 30))
  /\ (forall cd : coverage_data,
        (exists n, In (classes_without_tests n) (_generate_recommendations cd))
        <-> missing_tests cd <> [])
  /\ (forall cd : coverage_data,
        0 <= total_source_methods (coverage_metrics cd) < 2 ^ 53 ->
        In few_test_methods (_generate_recommendations cd)
        <-> 2 * total_test_methods (coverage_metrics cd)
            < total_source_methods (coverage_metrics cd)).
Proof.
  assert (Rules : forall cd : coverage_data,
     let m := coverage_metrics cd in
     let rule1 := lt_int (estimated_file_coverage m) 50 in
     let rule2 := lt_int (test_to_source_ratio m) 30 in
     let rule3 := negb (bool_decide (length (missing_tests cd) = 0%nat)) in
     let rule4 := int_lt_float (total_test_methods m)
                    (int_mul (total_source_methods m) half) in
     _generate_recommendations cd
     = (if rule1 then [low_file_coverage] else [])
       ++ (if rule2 then [low_test_volume] else [])
       ++ (if rule3
           then [classes_without_tests (Z.of_nat (length (missing_tests cd)))]
           else [])
       ++ (if rule4 then [few_test_methods] else [])
     /\ (In low_file_coverage (_generate_recommendations cd) <-> rule1 = true)
     /\ (In low_test_volume (_generate_recommendations cd) <-> rule2 = true)
     /\ ((exists n, In (classes_without_tests n) (_generate_recommendations cd))
         <-> rule3 = true)
     /\ (In few_test_methods (_generate_recommendations cd) <-> rule4 = true)).
  { intros cd m rule1 rule2 rule3 rule4.
    assert (Heq : _generate_recommendations cd
       = (if rule1 then [low_file_coverage] else [])
       ++ (if rule2 then [low_test_volume] else [])
       ++ (if rule3
           then [classes_without_tests (Z.of_nat (length (missing_tests cd)))]
           else [])
       ++ (if rule4 then [few_test_methods] else [])).
    { rewrite generate_recommendations_rules. subst rule1 rule2 rule3 rule4 m.
      by destruct (missing_tests cd). }
    split; [exact Heq|]. rewrite Heq. clear Heq.
    generalize (Z.of_nat (length (missing_tests cd))) as n. intros n.
    pose proof (classes_without_tests_head n) as [rest Hn].
    assert (Hany : forall k, classes_without_tests k <> low_file_coverage
                          /\ classes_without_tests k <> low_test_volume
                          /\ classes_without_tests k <> few_test_methods).
    { intros k. destruct (classes_without_tests_head k) as [r ->].
      by vm_compute. }
    split_and!; split.
    + intros Hin. destruct rule1; [done|]. exfalso.
      destruct rule2, rule3, rule4; simpl in Hin;
        rewrite ?Hn in Hin; vm_compute in Hin; intuition discriminate.
    + intros ->. by left.
    + intros Hin. destruct rule2; [done|]. exfalso.
      destruct rule1, rule3, rule4; simpl in Hin;
        rewrite ?Hn in Hin; vm_compute in Hin; intuition discriminate.
    + intros ->. destruct rule1; simpl; auto.
    + intros [k Hin]. destruct rule3; [done|]. exfalso.
      destruct (Hany k) as (H1 & H2 & H4).
      destruct rule1, rule2, rule4; simpl in Hin; intuition congruence.
    + intros ->. exists n. destruct rule1, rule2; simpl; auto.
    + intros Hin. destruct rule4; [done|]. exfalso.
      destruct rule1, rule2, rule3; simpl in Hin;
        rewrite ?Hn in Hin; vm_compute in Hin; intuition discriminate.
    + intros ->. destruct rule1, rule2, rule3; simpl; auto 6. }
  split_and!.
  - exact Rules.
  - intros cd Hf Hr Hm Ht Hs. rewrite generate_recommendations_rules.
    rewrite Hf, Hr, Hm, Ht, Hs. vm_compute. reflexivity.
  - intros cd v Hv. destruct (Rules cd) as (_ & H1 & _). cbv zeta in H1.
    rewrite H1. by apply lt_int_value.
  - intros cd v Hv. destruct (Rules cd) as (_ & _ & H2 & _). cbv zeta in H2.
    rewrite H2. by apply lt_int_value.
  - intros cd. destruct (Rules cd) as (_ & _ & _ & H3 & _). cbv zeta in H3.
    rewrite H3. destruct (missing_tests cd); simpl; split; done.
  - intros cd Hs. destruct (Rules cd) as (_ & _ & _ & _ & H4). cbv zeta in H4.
    rewrite H4, (int_lt_half _ _ Hs). apply Z.ltb_lt.
Qed.

(** ** Strings *)

Section Strings.

Local Open Scope string_scope.

Lemma str_app_nil_l (a : string) : "" ++ a = a.
Proof. reflexivity. Qed.

Lemma str_app_cons (c : ascii) (a b : string) :
  String c a ++ b = String c (a ++ b).
Proof. reflexivity. Qed.

Lemma str_app_assoc (a b c : string) : (a ++ b) ++ c = a ++ (b ++ c).
Proof.
  induction a as [|x a IH]; [done|]. by rewrite !str_app_cons, IH.
Qed.

Lemma str_app_nil_r (a : string) : a ++ "" = a.
Proof. induction a as [|x a IH]; [done|]. by rewrite str_app_cons, IH. Qed.

Lemma str_length_app (a b : string) :
  String.length (a ++ b) = (String.length a + String.length b)%nat.
Proof.
  induction a as [|x a IH]; [done|]. rewrite str_app_cons; simpl. by rewrite IH.
Qed.

Lemma take_app (a b : string) : Re.take (String.length a) (a ++ b) = a.
Proof.
  induction a as [|x a IH]; [by destruct b|].
  rewrite str_app_cons; simpl. by rewrite IH.
Qed.

Lemma str_drop_app (a b : string) : str_drop (String.length a) (a ++ b) = b.
Proof.
  induction a as [|x a IH]; [by destruct b|]. by rewrite str_app_cons.
Qed.

Lemma str_drop_0 (s : string) : str_drop 0 s = s.
Proof. by destruct s. Qed.

Lemma all_in_drop (cs : Re.cset) (n : nat) (s : string) :
  all_in cs s = true -> all_in cs (str_drop n s) = true.
Proof.
  revert s. induction n as [|n IH]; intros s H; [by rewrite str_drop_0|].
  destruct s as [|c s]; [done|]. simpl in *.
  apply andb_true_iff in H as [_ H]. by apply IH.
Qed.

Lemma str_drop_all (n : nat) (s : string) :
  (String.length s <= n)%nat -> str_drop n s = "".
Proof.
  revert s. induction n as [|n IH]; intros [|c s] H; simpl in *;
    try done; try lia. apply IH. lia.
Qed.

(** A word character is no white space, and neither is a parenthesis. *)
Lemma isword_not_isspace (c : ascii) :
  PyStr.isword c = true -> PyStr.isspace c = false.
Proof.
  destruct c as [[] [] [] [] [] [] [] []]; vm_compute; congruence.
Qed.

Lemma isspace_not_isword (c : ascii) :
  PyStr.isspace c = true -> PyStr.isword c = false.
Proof.
  intros H. destruct (PyStr.isword c) eqn:Hw; [|done].
  apply isword_not_isspace in Hw. congruence.
Qed.

End Strings.

(** ** The matcher *)

Section Matcher.

Local Open Scope string_scope.

Lemma star_unfold (body : Re.cont -> Re.cont) (k : Re.cont) (fuel : nat)
  (s : string) (cap : option string) :
  Re.star body k fuel s cap
  = match
      body (fun s' cap' =>
              if (String.length s' <? String.length s)%nat
              then match fuel with
                   | S fuel' => Re.star body k fuel' s' cap'
                   | O => None
                   end
              else None) s cap
    with
    | Some x => Some x
    | None => k s cap
    end.
Proof. by destruct fuel. Qed.

Lemma exec_set_nohead (cs : Re.cset) (k : Re.cont) (s : string)
  (cap : option string) :
  head_in cs s = false -> Re.exec (Re.Set' cs) k s cap = None.
Proof. destruct s as [|c s]; simpl; [done|]. by intros ->. Qed.

Lemma exec_set_cons (cs : Re.cset) (k : Re.cont) (c : ascii) (s : string)
  (cap : option string) :
  Re.exec (Re.Set' cs) k (String c s) cap
  = if Re.cset_mem cs c then k s cap else None.
Proof. reflexivity. Qed.

Lemma exec_eps (k : Re.cont) (s : string) (cap : option string) :
  Re.exec Re.Eps k s cap = k s cap.
Proof. reflexivity. Qed.

Lemma exec_seq (r1 r2 : Re.regex) (k : Re.cont) (s : string)
  (cap : option string) :
  Re.exec (Re.Seq r1 r2) k s cap = Re.exec r1 (Re.exec r2 k) s cap.
Proof. reflexivity. Qed.

Lemma exec_star (r : Re.regex) (k : Re.cont) (s : string)
  (cap : option string) :
  Re.exec (Re.Star r) k s cap = Re.star (Re.exec r) k (String.length s) s cap.
Proof. reflexivity. Qed.

Lemma exec_Lit (l : string) (k : Re.cont) (t : string) (cap : option string) :
  Re.exec (Re.Lit l) k (l ++ t) cap = k t cap.
Proof.
  induction l as [|c l IH]; [done|].
  rewrite str_app_cons. cbn [Re.Lit]. rewrite exec_seq, exec_set_cons.
  cbn [Re.cset_mem]. by rewrite Ascii.eqb_refl.
Qed.

(** A greedy run over a set of characters: when the continuation accepts
    the text after the longest run, that is the outcome. *)
Lemma star_set_greedy (cs : Re.cset) (k : Re.cont) (xs t : string)
  (cap : option string) (x : string * option string) (fuel : nat) :
  all_in cs xs = true -> head_in cs t = false ->
  (String.length (xs ++ t) <= fuel)%nat ->
  k t cap = Some x ->
  Re.star (Re.exec (Re.Set' cs)) k fuel (xs ++ t) cap = Some x.
Proof.
  intros Hall Hhead Hfuel Hk. revert fuel Hfuel.
  induction xs as [|c xs IH]; intros fuel Hfuel.
  - rewrite str_app_nil_l, star_unfold, exec_set_nohead; done.
  - rewrite str_app_cons in *. simpl in Hall, Hfuel.
    apply andb_true_iff in Hall as [Hc Hall].
    rewrite star_unfold, exec_set_cons, Hc.
    assert (Hlt : (String.length (xs ++ t)
                   <? String.length (String c (xs ++ t)))%nat = true)
      by (apply Nat.ltb_lt; simpl; lia).
    rewrite Hlt.
    destruct fuel as [|fuel]; [lia|].
    rewrite (IH Hall fuel); [done|lia].
Qed.

Lemma exec_star_greedy (cs : Re.cset) (k : Re.cont) (xs t : string)
  (cap : option string) (x : string * option string) :
  all_in cs xs = true -> head_in cs t = false ->
  k t cap = Some x ->
  Re.exec (Re.Star (Re.Set' cs)) k (xs ++ t) cap = Some x.
Proof. intros. rewrite exec_star. by apply star_set_greedy. Qed.

Lemma exec_plus_greedy (cs : Re.cset) (k : Re.cont) (xs t : string)
  (cap : option string) (x : string * option string) :
  xs <> "" -> all_in cs xs = true -> head_in cs t = false ->
  k t cap = Some x ->
  Re.exec (Re.Plus (Re.Set' cs)) k (xs ++ t) cap = Some x.
Proof.
  intros Hne Hall Hhead Hk. destruct xs as [|c xs]; [done|].
  simpl in Hall. apply andb_true_iff in Hall as [Hc Hall].
  rewrite str_app_cons. unfold Re.Plus.
  rewrite exec_seq, exec_set_cons, Hc, exec_star. by apply star_set_greedy.
Qed.

(** A run over a set of characters fails when the continuation refuses the
    text after every part of the run. *)
Lemma star_set_fail (cs : Re.cset) (k : Re.cont) (xs t : string)
  (cap : option string) (fuel : nat) :
  all_in cs xs = true -> head_in cs t = false ->
  (forall n, k (str_drop n xs ++ t) cap = None) ->
  Re.star (Re.exec (Re.Set' cs)) k fuel (xs ++ t) cap = None.
Proof.
  intros Hall Hhead. revert fuel.
  induction xs as [|c xs IH]; intros fuel Hk.
  - rewrite str_app_nil_l, star_unfold, exec_set_nohead; [|done].
    exact (Hk 0%nat).
  - pose proof (Hk 0%nat) as Hk0. simpl in Hk0.
    simpl in Hall. apply andb_true_iff in Hall as [Hc Hall].
    rewrite str_app_cons in *. rewrite star_unfold, exec_set_cons, Hc.
    assert (Hrest : forall f, Re.star (Re.exec (Re.Set' cs)) k f (xs ++ t) cap = None).
    { intros f. apply IH; [done|]. intros n. exact (Hk (S n)). }
    destruct (_ <? _)%nat; [|done].
    destruct fuel; [done|]. by rewrite Hrest.
Qed.

Lemma exec_plus_fail (cs : Re.cset) (k : Re.cont) (xs t : string)
  (cap : option string) :
  all_in cs xs = true -> head_in cs t = false ->
  (forall n, (n < String.length xs)%nat ->
             k (str_drop (S n) xs ++ t) cap = None) ->
  Re.exec (Re.Plus (Re.Set' cs)) k (xs ++ t) cap = None.
Proof.
  intros Hall Hhead Hk. unfold Re.Plus. rewrite exec_seq.
  destruct xs as [|c xs].
  - rewrite str_app_nil_l. by apply exec_set_nohead.
  - simpl in Hall. apply andb_true_iff in Hall as [Hc Hall].
    rewrite str_app_cons, exec_set_cons, Hc, exec_star.
    apply star_set_fail; [done..|]. intros n.
    destruct (Nat.lt_ge_cases n (S (String.length xs))) as [Hlt|Hge].
    + exact (Hk n Hlt).
    + rewrite (str_drop_all n xs) by lia.
      rewrite <- (str_drop_all (String.length xs) xs) by lia.
      apply (Hk (String.length xs)). simpl. lia.
Qed.

Lemma exec_alt (r1 r2 : Re.regex) (k : Re.cont) (s : string)
  (cap : option string) :
  Re.exec (Re.Alt r1 r2) k s cap
  = match Re.exec r1 k s cap with
    | Some x => Some x
    | None => Re.exec r2 k s cap
    end.
Proof. reflexivity. Qed.

Lemma exec_cap (r : Re.regex) (k : Re.cont) (s : string)
  (cap : option string) :
  Re.exec (Re.Cap r) k s cap
  = Re.exec r
      (fun s' _ =>
         k s' (Some (Re.take (String.length s - String.length s') s)))
      s cap.
Proof. reflexivity. Qed.

Lemma exec_star_nohead (cs : Re.cset) (k : Re.cont) (t : string)
  (cap : option string) :
  head_in cs t = false ->
  Re.exec (Re.Star (Re.Set' cs)) k t cap = k t cap.
Proof.
  intros H. rewrite exec_star, star_unfold, exec_set_nohead; done.
Qed.

(** The group [(\w+)] on a name that ends where the text goes on with a
    character that is not of a word. *)
Lemma exec_cap_word (k : Re.cont) (name t : string) (cap : option string)
  (x : string * option string) :
  name <> "" -> all_in Re.CWord name = true -> head_in Re.CWord t = false ->
  k t (Some name) = Some x ->
  Re.exec (Re.Cap word1) k (name ++ t) cap = Some x.
Proof.
  intros Hne Hall Hhead Hk. rewrite exec_cap. unfold word1.
  apply exec_plus_greedy; [done..|].
  rewrite str_length_app, Nat.add_sub, take_app. exact Hk.
Qed.

(** The text after a keyword and its white space, where a declaration
    without a return type goes on: a name, white space and a parenthesis.
    What follows the name begins with no word character. *)
Lemma head_after_name (ws2 u : string) (n : nat) :
  all_in Re.CSpace ws2 = true ->
  head_in Re.CWord (str_drop n ws2 ++ String "(" u) = false.
Proof.
  intros H. apply (all_in_drop _ n) in H.
  destruct (str_drop n ws2) as [|d w]; [done|].
  rewrite str_app_cons. simpl in *.
  apply andb_true_iff in H as [H _]. by apply isspace_not_isword.
Qed.

Lemma head_in_name (name t : string) (n : nat) :
  all_in Re.CWord name = true -> (n < String.length name)%nat ->
  head_in Re.CSpace (str_drop n name ++ t) = false.
Proof.
  revert name. induction n as [|n IH]; intros [|c name] H Hn;
    simpl in H, Hn; try lia; apply andb_true_iff in H as [Hc H].
  - rewrite str_drop_0, str_app_cons. simpl. by apply isword_not_isspace.
  - change (str_drop (S n) (String c name)) with (str_drop n name).
    apply IH; [done|lia].
Qed.

(** [(\w+)] and what follows it fail where no word begins. *)
Lemma exec_cap_word_nohead (k : Re.cont) (t : string) (cap : option string) :
  head_in Re.CWord t = false -> Re.exec (Re.Cap word1) k t cap = None.
Proof.
  intros H. rewrite exec_cap. unfold word1, Re.Plus. rewrite exec_seq.
  by apply exec_set_nohead.
Qed.

(** [(?:\w+\s+)*] takes no round where no word begins. *)
Lemma star_words_nohead (k : Re.cont) (fuel : nat) (t : string)
  (cap : option string) :
  head_in Re.CWord t = false ->
  Re.star (Re.exec (Re.Seq word1 spaces1)) k fuel t cap = k t cap.
Proof.
  intros H. rewrite star_unfold, exec_seq. unfold word1 at 1, Re.Plus.
  rewrite exec_seq. by rewrite exec_set_nohead.
Qed.

(** The rest of the method pattern, from [(?:\w+\s+)*] on, fails where no
    word begins. *)
Lemma exec_words_then_name_nohead (rest_pattern : Re.regex) (k : Re.cont)
  (t : string) (cap : option string) :
  head_in Re.CWord t = false ->
  Re.exec (Re.Seq (Re.Star (Re.Seq word1 spaces1))
             (Re.Seq (Re.Cap word1) rest_pattern)) k t cap = None.
Proof.
  intros H. rewrite exec_seq, exec_star, star_words_nohead by done.
  rewrite exec_seq. by apply exec_cap_word_nohead.
Qed.

(** [\s+] fails after a name when the continuation refuses every text that
    begins within or right after the white space. *)
Lemma exec_spaces1_after_name (k : Re.cont) (name ws2 u : string) (n : nat)
  (cap : option string) :
  all_in Re.CWord name = true -> all_in Re.CSpace ws2 = true ->
  (forall m, k (str_drop m ws2 ++ String "(" u) cap = None) ->
  Re.exec spaces1 k (str_drop n name ++ ws2 ++ String "(" u) cap = None.
Proof.
  intros Hname Hws Hk.
  destruct (Nat.lt_ge_cases n (String.length name)) as [Hlt|Hge].
  - unfold spaces1, Re.Plus. rewrite exec_seq.
    apply exec_set_nohead. by apply head_in_name.
  - rewrite (str_drop_all n name), str_app_nil_l by lia.
    unfold spaces1. apply exec_plus_fail; [done..|].
    intros m _. apply Hk.
Qed.

(** One round [\w+\s+] fails on a name, white space and a parenthesis when
    the continuation refuses every text that begins within or right after
    the white space. *)
Lemma exec_word_spaces_fail (k : Re.cont) (name ws2 u : string)
  (cap : option string) :
  all_in Re.CWord name = true -> all_in Re.CSpace ws2 = true ->
  (forall m, k (str_drop m ws2 ++ String "(" u) cap = None) ->
  Re.exec (Re.Seq word1 spaces1) k (name ++ ws2 ++ String "(" u) cap = None.
Proof.
  intros Hname Hws Hk. rewrite exec_seq. unfold word1.
  apply exec_plus_fail; [done| |].
  - rewrite <- (str_drop_0 ws2). by apply head_after_name.
  - intros n _. by apply exec_spaces1_after_name.
Qed.


(** A keyword followed by white space, then the rest of the method pattern,
    does not match a name, white space and a parenthesis: [static\s+] gives
    way. *)
Lemma exec_keyword_spaces_fail (l : string) (rest_pattern : Re.regex)
  (k : Re.cont) (name ws2 u : string) (cap : option string) :
  all_in Re.CWord l = true ->
  all_in Re.CWord name = true -> all_in Re.CSpace ws2 = true ->
  Re.exec (Re.Seq (Re.Lit l) spaces1)
    (Re.exec (Re.Seq (Re.Star (Re.Seq word1 spaces1))
                (Re.Seq (Re.Cap word1) rest_pattern)) k)
    (name ++ ws2 ++ String "(" u) cap = None.
Proof.
  rewrite exec_seq. revert name.
  induction l as [|c l IH]; intros name Hl Hname Hws.
  - cbn [Re.Lit]. rewrite exec_eps, <- (str_drop_0 name).
    apply exec_spaces1_after_name; [done..|].
    intros m. apply exec_words_then_name_nohead. by apply head_after_name.
  - simpl in Hl. apply andb_true_iff in Hl as [Hc Hl].
    cbn [Re.Lit]. rewrite exec_seq.
    destruct name as [|d name].
    + rewrite str_app_nil_l.
      destruct ws2 as [|d ws2].
      * rewrite str_app_nil_l, exec_set_cons. cbn [Re.cset_mem].
        destruct (Ascii.eqb_spec "(" c) as [<-|_]; done.
      * simpl in Hws. apply andb_true_iff in Hws as [Hd Hws].
        rewrite str_app_cons, exec_set_cons. cbn [Re.cset_mem].
        destruct (Ascii.eqb_spec d c) as [->|_]; [|done].
        apply isspace_not_isword in Hd. congruence.
    + simpl in Hname. apply andb_true_iff in Hname as [_ Hname].
      rewrite str_app_cons, exec_set_cons.
      destruct (Re.cset_mem (Re.CChr c) d); [|done]. by apply IH.
Qed.

Lemma exec_visibility (kw : string) (k : Re.cont) (t : string)
  (cap : option string) :
  kw = "public" \/ kw = "private" \/ kw = "protected" ->
  Re.exec (Re.Alt (Re.Lit "public") (Re.Alt (Re.Lit "private") (Re.Lit "protected")))
    k (kw ++ t) cap
  = k t cap.
Proof.
  intros [-> | [-> | ->]]; rewrite !exec_alt.
  - rewrite exec_Lit. by destruct (k t cap).
  - rewrite (exec_Lit "private").
    assert (H : Re.exec (Re.Lit "public") k ("private" ++ t) cap = None) by done.
    rewrite H. by destruct (k t cap).
  - rewrite (exec_Lit "protected").
    assert (H1 : Re.exec (Re.Lit "public") k ("protected" ++ t) cap = None) by done.
    assert (H2 : Re.exec (Re.Lit "private") k ("protected" ++ t) cap = None) by done.
    by rewrite H1, H2.
Qed.



End Matcher.

(** ** [findall] *)

Section Findall.

Local Open Scope string_scope.

Variable r : Re.regex.

Lemma scan_shift (p q skip : nat) (s : string) :
  map snd (Re.scan r p skip s) = map snd (Re.scan r q skip s).
Proof.
  revert p q skip. induction s as [|c s IH]; intros p q skip.
  - destruct skip; simpl; [|done].
    by destruct (Re.match_here r "") as [[rest cap]|].
  - destruct skip; simpl; [|by apply IH].
    destruct (Re.match_here r (String c s)) as [[rest cap]|]; simpl;
      [f_equal|]; apply IH.
Qed.

Lemma scan_skip (pos : nat) (a b : string) :
  Re.scan r pos (String.length a) (a ++ b)
  = Re.scan r (pos + String.length a) 0 b.
Proof.
  revert pos. induction a as [|c a IH]; intros pos.
  - rewrite str_app_nil_l; simpl. by rewrite Nat.add_0_r.
  - rewrite str_app_cons; simpl. rewrite IH. f_equal. lia.
Qed.

Lemma scan_no_match_prefix (pos : nat) (pre s : string) :
  (forall n, (n < String.length pre)%nat ->
             Re.match_here r (str_drop n (pre ++ s)) = None) ->
  Re.scan r pos 0 (pre ++ s) = Re.scan r (pos + String.length pre) 0 s.
Proof.
  revert pos. induction pre as [|c pre IH]; intros pos H.
  - rewrite str_app_nil_l; simpl. by rewrite Nat.add_0_r.
  - rewrite str_app_cons in *.
    pose proof (H 0%nat) as H0. simpl in H0.
    simpl. rewrite H0 by lia. rewrite IH.
    + f_equal. lia.
    + intros n Hn. apply (H (S n)). simpl. lia.
Qed.

Lemma scan_match (pos : nat) (m rest : string) (cap : option string) :
  m <> "" ->
  Re.match_here r (m ++ rest) = Some (rest, cap) ->
  Re.scan r pos 0 (m ++ rest)
  = (pos, Re.group1 cap) :: Re.scan r (pos + String.length m) 0 rest.
Proof.
  intros Hne Hm. destruct m as [|c m]; [done|].
  rewrite str_app_cons in *. simpl. rewrite Hm. f_equal.
  rewrite str_length_app.
  replace (Nat.pred (S (String.length m + String.length rest)
                     - String.length rest)) with (String.length m) by lia.
  rewrite scan_skip. f_equal. lia.
Qed.

Lemma scan_lower (pos skip : nat) (s : string) :
  Forall (fun x => (pos <= fst x)%nat) (Re.scan r pos skip s).
Proof.
  revert pos skip. induction s as [|c s IH]; intros pos skip.
  - destruct skip; simpl; [|constructor].
    destruct (Re.match_here r "") as [[rest cap]|]; repeat constructor.
  - assert (Htail : forall k, Forall (fun x => (pos <= fst x)%nat)
                                (Re.scan r (S pos) k s)).
    { intros k. eapply Forall_impl; [apply IH|]. simpl. intros; lia. }
    destruct skip; simpl; [|apply Htail].
    destruct (Re.match_here r (String c s)) as [[rest cap]|];
      [constructor; [simpl; lia|]|]; apply Htail.
Qed.

(** The matches are listed by increasing offset. *)
Lemma scan_sorted (pos skip : nat) (s : string) :
  StronglySorted (fun x y => (fst x < fst y)%nat) (Re.scan r pos skip s).
Proof.
  revert pos skip. induction s as [|c s IH]; intros pos skip.
  - destruct skip; simpl; [|constructor].
    destruct (Re.match_here r "") as [[rest cap]|]; repeat constructor.
  - destruct skip; simpl; [|apply IH].
    destruct (Re.match_here r (String c s)) as [[rest cap]|]; [|apply IH].
    constructor; [apply IH|].
    eapply Forall_impl; [apply scan_lower|]. simpl. intros; lia.
Qed.

(** Every listed item is group 1 of a match at the listed offset. *)
Lemma scan_is_match (pos skip : nat) (s : string) (p : nat) (g : string) :
  In (p, g) (Re.scan r pos skip s) ->
  exists rest cap,
    Re.match_here r (str_drop (p - pos) s) = Some (rest, cap)
    /\ g = Re.group1 cap.
Proof.
  revert pos skip. induction s as [|c s IH]; intros pos skip Hin.
  - destruct skip; simpl in Hin; [|done].
    destruct (Re.match_here r "") as [[rest cap]|] eqn:Hm; [|done].
    destruct Hin as [[= <- <-]|[]]. exists rest, cap.
    by rewrite Nat.sub_diag.
  - assert (Htail : forall k, In (p, g) (Re.scan r (S pos) k s) ->
              exists rest cap,
                Re.match_here r (str_drop (p - pos) (String c s)) = Some (rest, cap)
                /\ g = Re.group1 cap).
    { intros k Hk.
      pose proof (scan_lower (S pos) k s) as Hlow.
      rewrite List.Forall_forall in Hlow. specialize (Hlow _ Hk). simpl in Hlow.
      destruct (IH _ _ Hk) as (rest & cap & Hm & Hg).
      exists rest, cap. split; [|done].
      replace (p - pos)%nat with (S (p - S pos)) by lia. exact Hm. }
    destruct skip; simpl in Hin; [|by eapply Htail].
    destruct (Re.match_here r (String c s)) as [[rest cap]|] eqn:Hm;
      [|by eapply Htail].
    destruct Hin as [[= <- <-]|Hin]; [|by eapply Htail].
    exists rest, cap. by rewrite Nat.sub_diag.
Qed.

End Findall.

(** ** The structural extractor *)

(** C4, as the code has it: the types of a text are the names the class
    pattern captures followed by the names the interface pattern captures;
    within each of the two runs the names stand in the textual order of
    their declarations (by strictly increasing offset, each name captured by
    a match at its offset), and a name declared twice is listed twice. *)
Theorem extract_classes_by_kind (content : string) :
  _extract_classes content
  = map snd (Re.findall_pos class_pattern content)
    ++ map snd (Re.findall_pos interface_pattern content)
  /\ StronglySorted (fun x y => (fst x < fst y)%nat)
       (Re.findall_pos class_pattern content)
  /\ StronglySorted (fun x y => (fst x < fst y)%nat)
       (Re.findall_pos interface_pattern content)
  /\ (forall p g, In (p, g) (Re.findall_pos class_pattern content) ->
        exists rest cap,
          Re.match_here class_pattern (str_drop p content) = Some (rest, cap)
          /\ g = Re.group1 cap)
  /\ (forall p g, In (p, g) (Re.findall_pos interface_pattern content) ->
        exists rest cap,
          Re.match_here interface_pattern (str_drop p content) = Some (rest, cap)
          /\ g = Re.group1 cap).
Proof.
  unfold Re.findall_pos. split_and!.
  - reflexivity.
  - apply scan_sorted.
  - apply scan_sorted.
  - intros p g Hin. apply scan_is_match in Hin.
    by rewrite Nat.sub_0_r in Hin.
  - intros p g Hin. apply scan_is_match in Hin.
    by rewrite Nat.sub_0_r in Hin.
Qed.

(** C4, as the claim has it, fails: in this text the interface is declared
    before the class, and the class is listed first. *)
Lemma extract_classes_not_textual_order :
  Re.findall_pos interface_pattern "interface A {} class B {}" = [(0%nat, "A"%string)]
  /\ Re.findall_pos class_pattern "interface A {} class B {}" = [(15%nat, "B"%string)]
  /\ types_in_textual_order "interface A {} class B {}" = ["A"; "B"]%string
  /\ _extract_classes "interface A {} class B {}" = ["B"; "A"]%string
  /\ _extract_classes "interface A {} class B {}"
     <> types_in_textual_order "interface A {} class B {}".
Proof. split_and!; try (vm_compute; reflexivity). by vm_compute. Qed.




Example extract_methods_constructor :
  _extract_methods "public Foo() {" = ["Foo"%string]
  /\ _extract_methods "protected  Bar  (int a, int b)  {" = ["Bar"%string]
  /\ _extract_methods "private static () {" = ["static"%string].
Proof. split_and!; vm_compute; reflexivity. Qed.

(** ** The covered names *)

(** C1 at its failing input: [replace("Test", "")] runs first and turns
    [BarTests] into [Bars], which [replace("Tests", "")] leaves alone; the
    covered set is then [{Bars}] and [Bar] is reported as missing a test.
    With [FooTest] the covered name is [Foo], and [Foo] is not reported. *)
Theorem bar_with_bartests_is_missing :
  covered_name "BarTests" = "Bars"%string
  /\ test_classes_of [test_of "BarTests"] = {[ "Bars"%string ]}
  /\ _find_missing_tests [source_of "Bar"] [test_of "BarTests"]
     = [ {| source_class := "Bar"; source_file := "Bar.java";
            suggested_test_file := "BarTest.java" |} ]
  /\ covered_name "FooTest" = "Foo"%string
  /\ _find_missing_tests [source_of "Foo"] [test_of "FooTest"] = [].
Proof.
  split_and!; vm_compute; reflexivity.
Qed.

(** The stripping is not confined to the end of a name either: every
    occurrence of [Test] goes. *)
Example covered_name_inner_occurrence :
  covered_name "TestRunnerTest" = "Runner"%string
  /\ _find_missing_tests [source_of "TestRunner"] [test_of "TestRunnerTest"]
     = [ {| source_class := "TestRunner"; source_file := "TestRunner.java";
            suggested_test_file := "TestRunnerTest.java" |} ].
Proof. split; vm_compute; reflexivity. Qed.

(** ** The entry point *)

(** C3 at its failing input: when the project root does not exist, the
    constructor's [mkdir] of the results directory raises
    [FileNotFoundError]; [main] builds the analyser outside its [try]
    block, so the run ends with that exception and no report. *)
Theorem main_without_project_root (w : world) (root : Path) :
  w_nodes w !! root = None ->
  w_nodes w !! child root "test-results" = None ->
  main w (Some root) = Uncaught FileNotFoundError.
Proof.
  intros Hroot Hres. unfold main, __init__, mkdir. simpl.
  rewrite Hres. unfold parent, child. rewrite removelast_last.
  by rewrite Hroot.
Qed.

(** A run on [/nowhere] in a file system that has only its root. *)
Lemma main_without_project_root_witness :
  main world_bare (Some ["nowhere"%string]) = Uncaught FileNotFoundError.
Proof.
  apply (main_without_project_root world_bare ["nowhere"%string]);
    reflexivity.
Defined.

(** With a project root that exists and holds no service, the report is
    empty and well formed. *)
Lemma main_with_bare_project_root :
  exists w',
    main world_bare (Some []) =
    Finished
      {| report_timestamp := "2024-01-01T00:00:00";
         report_project_root := "/";
         services := [];
         overall_statistics :=
           {| total_services := 0;
              overall_source_files := 0;
              overall_test_files := 0;
              total_missing_tests := 0;
              overall_file_coverage := PyInt 0;
              unique_recommendations := ∅ |} |}
      [] w'.
Proof. eexists. vm_compute. reflexivity. Qed.

(** ** A whole service *)

(** A service with one source file, which declares the class [Widget] with
    two methods, and no test tree: one source file, no test file, a file
    coverage of 0.0, one missing test, for [Widget], and all four
    recommendations. *)
Lemma widget_service_scenario :
  exists cd,
    analyze_service_coverage world_widget ["svc"%string] "svc" = Ok (cd, [])
    /\ map classes (source_files cd) = [["Widget"%string]]
    /\ map methods (source_files cd) = [["a"; "b"]%string]
    /\ test_files cd = []
    /\ total_source_files (coverage_metrics cd) = 1
    /\ total_test_files (coverage_metrics cd) = 0
    /\ estimated_file_coverage (coverage_metrics cd) = PyFloat (S754_zero false)
    /\ missing_tests cd
       = [ {| source_class := "Widget"; source_file := "Widget.java";
              suggested_test_file := "WidgetTest.java" |} ]
    /\ recommendations cd
       = [ low_file_coverage; low_test_volume; classes_without_tests 1;
           few_test_methods ].
Proof. eexists. split_and!; vm_compute; reflexivity. Qed.

(** ** Lines of code *)

Section Lines.

Local Open Scope string_scope.

Lemma split_nonempty (sep : ascii) (s : string) :
  exists h t, PyStr.split sep s = h :: t.
Proof.
  induction s as [|c s IH]; simpl; [by eexists _, _|].
  destruct (Ascii.eqb c sep); [by eexists _, _|].
  destruct IH as (h & t & ->). by eexists _, _.
Qed.

Lemma split_app_sep (sep : ascii) (a b : string) :
  PyStr.split sep (a ++ String sep b)
  = (PyStr.split sep a ++ PyStr.split sep b)%list.
Proof.
  induction a as [|c a IH].
  - rewrite str_app_nil_l. simpl. by rewrite Ascii.eqb_refl.
  - rewrite str_app_cons. simpl. destruct (Ascii.eqb c sep).
    + by rewrite IH.
    + rewrite IH. by destruct (split_nonempty sep a) as (h & t & ->).
Qed.

Lemma split_no_sep (sep : ascii) (l : string) :
  all_in (Re.CNot sep) l = true -> PyStr.split sep l = [l].
Proof.
  induction l as [|c l IH]; [done|]. simpl.
  intros H. apply andb_true_iff in H as [Hc H].
  destruct (Ascii.eqb c sep); [done|]. by rewrite IH.
Qed.

Lemma lstrip_blank (s : string) :
  all_in Re.CSpace s = true -> PyStr.lstrip s = "".
Proof.
  induction s as [|c s IH]; [done|]. simpl.
  intros H. apply andb_true_iff in H as [-> H]. by apply IH.
Qed.

Lemma lstrip_not_blank (s : string) :
  all_in Re.CSpace s = false ->
  exists c t, PyStr.lstrip s = String c t /\ PyStr.isspace c = false.
Proof.
  induction s as [|c s IH]; [done|]. simpl.
  destruct (PyStr.isspace c) eqn:Hc; simpl; [done|].
  intros _. by exists c, s.
Qed.

Lemma rstrip_not_blank (s : string) :
  all_in Re.CSpace s = false -> PyStr.rstrip s <> "".
Proof.
  induction s as [|c s IH]; [done|]. simpl.
  destruct (PyStr.isspace c) eqn:Hc; simpl.
  - intros H. specialize (IH H). by destruct (PyStr.rstrip s).
  - intros _. by destruct (PyStr.rstrip s).
Qed.

(** A line counts when it holds a character that is no white space. *)
Lemma truthy_strip (l : string) :
  PyStr.truthy (PyStr.strip l) = negb (all_in Re.CSpace l).
Proof.
  unfold PyStr.strip. destruct (all_in Re.CSpace l) eqn:H; simpl.
  - by rewrite lstrip_blank.
  - destruct (lstrip_not_blank l H) as (c & t & -> & Hc).
    assert (Hn : all_in Re.CSpace (String c t) = false) by (simpl; by rewrite Hc).
    apply rstrip_not_blank in Hn. by destruct (PyStr.rstrip (String c t)).
Qed.

Lemma count_lines_join (a b : string) :
  count_lines (a ++ String "010" b) = (count_lines a + count_lines b)%nat.
Proof.
  unfold count_lines. by rewrite split_app_sep, List.filter_app, length_app.
Qed.

Lemma count_lines_one (l : string) :
  all_in (Re.CNot "010") l = true ->
  count_lines l = if all_in Re.CSpace l then 0%nat else 1%nat.
Proof.
  intros H. unfold count_lines. rewrite split_no_sep by done. simpl.
  rewrite truthy_strip. by destruct (all_in Re.CSpace l).
Qed.

Lemma all_in_app (cs : Re.cset) (a b : string) :
  all_in cs (a ++ b) = all_in cs a && all_in cs b.
Proof.
  induction a as [|c a IH]; [done|]. rewrite str_app_cons. simpl.
  by rewrite IH, andb_assoc.
Qed.

Lemma count_lines_blank (content : string) :
  count_lines content = 0%nat <-> all_in Re.CSpace content = true.
Proof.
  unfold count_lines.
  assert (H : forall s,
            forallb (all_in Re.CSpace) (PyStr.split "010" s) = all_in Re.CSpace s).
  { induction s as [|c s IH]; [done|]. simpl.
    destruct (Ascii.eqb_spec c "010") as [->|Hc]; simpl.
    - by rewrite IH.
    - rewrite <- IH. destruct (split_nonempty "010" s) as (h & t & ->). simpl.
      by rewrite andb_assoc. }
  rewrite <- H. generalize (PyStr.split "010" content) as ls.
  induction ls as [|l ls IH]; [done|]. simpl. rewrite truthy_strip.
  destruct (all_in Re.CSpace l); simpl; [exact IH|]. split; [lia|done].
Qed.

(** The line count of a file: a text made of two texts joined by a line
    feed has the lines of both; a text without a line feed is one line,
    counted unless it is blank; so the count is the number of lines that
    hold a character other than white space, and it is zero exactly for a
    text of white space alone (the empty text, blank lines). *)
Theorem count_lines_by_line :
  (forall a b : string,
     count_lines (a ++ String "010" b) = (count_lines a + count_lines b)%nat)
  /\ (forall l : string,
        all_in (Re.CNot "010") l = true ->
        count_lines l = if all_in Re.CSpace l then 0%nat else 1%nat)
  /\ (forall content : string,
        count_lines content = 0%nat <-> all_in Re.CSpace content = true)
  /\ (forall content : string,
        count_lines (content ++ String "010" "") = count_lines content).
Proof.
  split_and!.
  - apply count_lines_join.
  - apply count_lines_one.
  - apply count_lines_blank.
  - intros content. rewrite count_lines_join.
    change (count_lines "") with 0%nat. lia.
Qed.

End Lines.

(** ** Names a test type covers *)

Section Covered.

Local Open Scope string_scope.


Lemma prefix_cons (a b : ascii) (s1 s2 : string) :
  String.prefix (String a s1) (String b s2)
  = Ascii.eqb a b && String.prefix s1 s2.
Proof.
  cbn [String.prefix]. destruct (ascii_dec a b) as [->|H].
  - by rewrite Ascii.eqb_refl.
  - apply Ascii.eqb_neq in H. by rewrite H.
Qed.

Lemma prefix_nil (s : string) : String.prefix "" s = true.
Proof. by destruct s. Qed.

Ltac prefix_cases :=
  rewrite ?str_app_cons, ?str_app_nil_l, ?prefix_cons;
  repeat (match goal with
          | |- context [Ascii.eqb ?a ?b] =>
              destruct (Ascii.eqb_spec a b); subst
          end; cbn [andb String.prefix]; try done);
  rewrite ?prefix_nil; try done.

Lemma contains_cons (sub : string) (c : ascii) (s : string) :
  contains sub (String c s) = false ->
  String.prefix sub (String c s) = false /\ contains sub s = false.
Proof. simpl. intros H. by apply orb_false_iff in H. Qed.

Lemma replace_absent (old new s : string) :
  contains old s = false -> PyStr.replace s old new = s.
Proof.
  unfold PyStr.replace. induction s as [|c s IH]; [done|].
  intros H. apply contains_cons in H as [Hp Hc].
  cbn [PyStr.replace_from]. rewrite Hp. by rewrite IH.
Qed.

(** No occurrence of [Test] begins in a text and ends in what follows it,
    when that begins with a [T]. *)
Lemma prefix_Test_straddle (c : ascii) (s t : string) :
  String.prefix "Test" (String c s) = false ->
  String.prefix "Test" (String c s ++ String "T" t) = false.
Proof.
  destruct s as [|c2 [|c3 [|c4 s]]]; prefix_cases.
Qed.

Lemma prefix_Test_s (c : ascii) (s : string) :
  String.prefix "Test" (String c s) = false ->
  String.prefix "Test" (String c s ++ "s") = false.
Proof.
  destruct s as [|c2 [|c3 [|c4 s]]]; prefix_cases.
Qed.

Lemma prefix_Tests_Test (s : string) :
  String.prefix "Test" s = false -> String.prefix "Tests" s = false.
Proof.
  destruct s as [|c1 [|c2 [|c3 [|c4 [|c5 s]]]]]; prefix_cases.
Qed.

Lemma contains_Tests_Test (s : string) :
  contains "Test" s = false -> contains "Tests" s = false.
Proof.
  induction s as [|c s IH]; [done|].
  intros H. apply contains_cons in H as [Hp Hc].
  cbn [contains]. rewrite (prefix_Tests_Test _ Hp). by apply IH.
Qed.

Lemma contains_Test_s (name : string) :
  contains "Test" name = false -> contains "Test" (name ++ "s") = false.
Proof.
  induction name as [|c name IH]; [done|].
  intros H. apply contains_cons in H as [Hp Hc].
  rewrite str_app_cons. cbn [contains]. rewrite <- str_app_cons.
  rewrite (prefix_Test_s _ _ Hp). by apply IH.
Qed.

Lemma replace_Test_suffix (name t u : string) :
  contains "Test" name = false ->
  PyStr.replace (String "T" t) "Test" "" = u ->
  PyStr.replace (name ++ String "T" t) "Test" "" = name ++ u.
Proof.
  intros H Hu. unfold PyStr.replace in *.
  induction name as [|c name IH]; [done|].
  apply contains_cons in H as [Hp Hc].
  rewrite str_app_cons. cbn [PyStr.replace_from]. rewrite <- str_app_cons.
  rewrite (prefix_Test_straddle _ _ _ Hp). rewrite str_app_cons.
  by rewrite IH.
Qed.

Lemma covered_name_Test (name : string) :
  contains "Test" name = false -> covered_name (name ++ "Test") = name.
Proof.
  intros H. unfold covered_name.
  rewrite (replace_Test_suffix name "est" "" H) by reflexivity.
  rewrite str_app_nil_r. apply replace_absent. by apply contains_Tests_Test.
Qed.

Lemma covered_name_Tests (name : string) :
  contains "Test" name = false -> covered_name (name ++ "Tests") = name ++ "s".
Proof.
  intros H. unfold covered_name.
  rewrite (replace_Test_suffix name "ests" "s" H) by reflexivity.
  apply replace_absent. by apply contains_Tests_Test, contains_Test_s.
Qed.

Lemma covered_name_plain (name : string) :
  contains "Test" name = false -> covered_name name = name.
Proof.
  intros H. unfold covered_name. rewrite (replace_absent "Test") by done.
  apply replace_absent. by apply contains_Tests_Test.
Qed.

End Covered.

(** ** The missing-test list *)

Section Missing.

Local Open Scope string_scope.

Lemma find_missing_tests_flat (source_files test_files : list file_info) :
  _find_missing_tests source_files test_files
  = flat_map
      (fun source_file =>
         map (missing_entry source_file)
           (List.filter
              (fun class_name =>
                 negb (bool_decide (class_name ∈ test_classes_of test_files)))
              (classes source_file)))
      source_files.
Proof.
  exact (find_missing_loop (test_classes_of test_files) source_files []).
Qed.

Lemma test_classes_of_elem (test_files : list file_info) (name : string) :
  name ∈ test_classes_of test_files
  <-> exists test_file class_name,
        In test_file test_files /\ In class_name (classes test_file)
        /\ covered_name class_name = name.
Proof.
  rewrite test_classes_of_spec, elem_of_list_to_set, list_elem_of_In.
  rewrite in_map_iff. split.
  - intros (c & Hc & Hin). apply in_flat_map in Hin as (f & Hf & Hin).
    by exists f, c.
  - intros (f & c & Hf & Hin & Hc). exists c. split; [done|].
    apply in_flat_map. by exists f.
Qed.

Lemma test_classes_of_app (t1 t2 : list file_info) :
  test_classes_of (t1 ++ t2) = test_classes_of t1 ∪ test_classes_of t2.
Proof.
  by rewrite !test_classes_of_spec, flat_map_app, map_app, list_to_set_app_L.
Qed.

Lemma in_find_missing_tests (source_files test_files : list file_info)
  (e : missing_test) :
  In e (_find_missing_tests source_files test_files)
  <-> exists source_file,
        In source_file source_files
        /\ In (source_class e) (classes source_file)
        /\ (source_class e ∉ test_classes_of test_files)
        /\ e = missing_entry source_file (source_class e).
Proof.
  rewrite find_missing_tests_flat, in_flat_map. split.
  - intros (f & Hf & Hin). apply in_map_iff in Hin as (c & <- & Hc).
    apply filter_In in Hc as [Hc Hnot]. exists f. simpl.
    split_and!; try done.
    apply negb_true_iff, bool_decide_eq_false in Hnot. done.
  - intros (f & Hf & Hc & Hnot & ->). exists f. split; [done|].
    apply in_map_iff. exists (source_class e). split; [done|].
    apply filter_In. split; [done|].
    by apply negb_true_iff, bool_decide_eq_false.
Qed.

Lemma filter_sublist_impl {A : Type} (p q : A -> bool) (l : list A) :
  (forall x, p x = true -> q x = true) ->
  sublist (List.filter p l) (List.filter q l).
Proof.
  intros H. induction l as [|x l IH]; simpl; [constructor|].
  destruct (p x) eqn:Hp.
  - rewrite (H x Hp). by constructor.
  - destruct (q x); [by constructor|done].
Qed.

Lemma map_sublist {A B : Type} (f : A -> B) (l1 l2 : list A) :
  sublist l1 l2 -> sublist (map f l1) (map f l2).
Proof. induction 1; simpl; by constructor. Qed.

Lemma str_app_length_neq (a b : string) : b <> "" -> a <> a ++ b.
Proof.
  intros Hb H. apply (f_equal String.length) in H.
  rewrite str_length_app in H. destruct b; [done|]. simpl in H. lia.
Qed.

Lemma find_missing_tests_length (source_files test_files : list file_info) :
  (length (_find_missing_tests source_files test_files)
   <= length (flat_map classes source_files))%nat.
Proof.
  rewrite find_missing_tests_flat.
  induction source_files as [|f fs IH]; simpl; [lia|].
  rewrite !length_app, length_map.
  pose proof (filter_length_le
                (fun c => negb (bool_decide (c ∈ test_classes_of test_files)))
                (classes f)).
  lia.
Qed.

Lemma filter_no_tests (cs : list string) :
  List.filter (fun c => negb (bool_decide (c ∈ test_classes_of []))) cs = cs.
Proof.
  induction cs as [|c cs IHc]; [done|]. cbn [List.filter].
  rewrite bool_decide_eq_false_2 by (unfold test_classes_of; set_solver).
  cbn [negb]. by rewrite IHc.
Qed.

Lemma find_missing_tests_no_tests (source_files : list file_info) :
  _find_missing_tests source_files []
  = flat_map (fun f => map (missing_entry f) (classes f)) source_files.
Proof.
  rewrite find_missing_tests_flat.
  induction source_files as [|f fs IH]; [done|].
  cbn [flat_map]. by rewrite IH, filter_no_tests.
Qed.

Lemma find_missing_tests_no_tests_classes (source_files : list file_info) :
  map source_class (_find_missing_tests source_files [])
  = flat_map classes source_files.
Proof.
  rewrite find_missing_tests_no_tests.
  induction source_files as [|f fs IH]; [done|].
  cbn [flat_map]. rewrite map_app, IH, map_map. f_equal. by rewrite map_id.
Qed.


(** More test files never add a missing test: the list for a larger test
    tree is the list for the smaller one with entries left out. *)
Theorem missing_tests_shrink (source_files test_files more : list file_info) :
  sublist (_find_missing_tests source_files (test_files ++ more))
          (_find_missing_tests source_files test_files)
  /\ sublist (_find_missing_tests source_files (more ++ test_files))
             (_find_missing_tests source_files test_files).
Proof.
  rewrite !find_missing_tests_flat, !test_classes_of_app.
  assert (Hsub : forall (tcs tcs' : gset string),
            tcs ⊆ tcs' ->
            sublist
              (flat_map
                 (fun f => map (missing_entry f)
                             (List.filter
                                (fun c => negb (bool_decide (c ∈ tcs')))
                                (classes f))) source_files)
              (flat_map
                 (fun f => map (missing_entry f)
                             (List.filter
                                (fun c => negb (bool_decide (c ∈ tcs)))
                                (classes f))) source_files)).
  { intros tcs tcs' Hincl.
    induction source_files as [|f fs IH]; [constructor|].
    cbn [flat_map]. apply sublist_app; [|exact IH].
    apply map_sublist, filter_sublist_impl. intros c Hc.
    apply negb_true_iff, bool_decide_eq_false in Hc.
    apply negb_true_iff, bool_decide_eq_false. set_solver. }
  split; apply Hsub; set_solver.
Qed.

(** The naming convention the detector is built for: a source type whose
    name holds no [Test] is covered by a test type of the same name and by
    one with [Test] appended, and is then never listed as missing. *)
Theorem test_suffix_covers (name : string) :
  contains "Test" name = false ->
  covered_name name = name
  /\ covered_name (name ++ "Test") = name
  /\ forall source_files test_files test_file,
       In test_file test_files ->
       In name (classes test_file) \/ In (name ++ "Test") (classes test_file) ->
       forall e, In e (_find_missing_tests source_files test_files) ->
                 source_class e <> name.
Proof.
  intros H. split; [by apply covered_name_plain|].
  split; [by apply covered_name_Test|].
  intros source_files test_files test_file Hf Hc e He Heq.
  apply in_find_missing_tests in He as (f & _ & _ & Hnot & _).
  apply Hnot, test_classes_of_elem. rewrite Heq.
  destruct Hc as [Hc|Hc].
  - exists test_file, name. split_and!; try done. by apply covered_name_plain.
  - exists test_file, (name ++ "Test"). split_and!; try done.
    by apply covered_name_Test.
Qed.

Lemma test_suffix_covers_witness :
  covered_name ("Widget" ++ "Test") = "Widget".
Proof.
  exact (proj1 (proj2 (test_suffix_covers "Widget" eq_refl))).
Defined.

(** The plural suffix: [replace("Test", "")] runs first, so a test type
    named after a source type with [Tests] appended covers the name with an
    [s] appended, and a source type whose test types all carry the plural
    suffix is listed as missing. *)
Theorem tests_suffix_covers_plural (name : string) :
  contains "Test" name = false ->
  covered_name (name ++ "Tests") = name ++ "s"
  /\ forall source_files test_files source_file,
       In source_file source_files -> In name (classes source_file) ->
       (forall test_file class_name,
          In test_file test_files -> In class_name (classes test_file) ->
          class_name = name ++ "Tests") ->
       In (missing_entry source_file name)
          (_find_missing_tests source_files test_files).
Proof.
  intros H. split; [by apply covered_name_Tests|].
  intros source_files test_files source_file Hf Hc Hall.
  apply in_find_missing_tests. exists source_file. simpl.
  split_and!; try done.
  intros Hin. apply test_classes_of_elem in Hin as (tf & c & Htf & Hcin & Hcov).
  rewrite (Hall tf c Htf Hcin), covered_name_Tests in Hcov by done.
  symmetry in Hcov. by apply str_app_length_neq in Hcov.
Qed.

Lemma tests_suffix_covers_plural_witness :
  covered_name ("Widget" ++ "Tests") = "Widgets".
Proof.
  exact (proj1 (tests_suffix_covers_plural "Widget" eq_refl)).
Defined.

End Missing.

(** ** One entry per listed file *)

Section Service.

Local Open Scope string_scope.

(** What the handler of [_find_java_files] prints for a listed file. *)
Lemma scan_file_fst (w : world) (dir rel : Path) :
  path (fst (scan_file w dir rel)) = str_rel rel
  /\ full_path (fst (scan_file w dir rel)) = str_abs (dir ++ rel).
Proof. unfold scan_file. by destruct (w_read w (dir ++ rel)). Qed.

(** The scan lists one entry per path that [rglob] yields, in that order,
    readable or not, each under its path relative to the scanned directory,
    and prints one warning per unreadable file. *)
Theorem find_java_files_entry_per_path (w : world) (dir : Path) :
  let files := fst (_find_java_files w dir) in
  let out := snd (_find_java_files w dir) in
  map path files = map str_rel (w_rglob w dir)
  /\ length files = length (w_rglob w dir)
  /\ out = flat_map (fun rel => match w_read w (dir ++ rel) with
                                | Ok _ => []
                                | Raise e => [Unreadable (dir ++ rel) e]
                                end) (w_rglob w dir)
  /\ (length out <= length files)%nat.
Proof.
  unfold _find_java_files. rewrite scan_files_spec. cbn [fst snd].
  generalize (w_rglob w dir) as l. intros l. split_and!.
  - rewrite map_map. apply map_ext. intros rel. apply scan_file_fst.
  - by rewrite length_map.
  - apply flat_map_ext. intros rel. unfold scan_file.
    by destruct (w_read w (dir ++ rel)).
  - rewrite length_map. induction l as [|rel l IH]; simpl; [lia|].
    rewrite length_app. unfold scan_file at 1.
    destruct (w_read w (dir ++ rel)); simpl; lia.
Qed.

End Service.

(** ** The analysis of a service *)

Section Report.

Local Open Scope string_scope.


Lemma calculate_coverage_metrics_ok (source_files test_files : list file_info) :
  exists pf pc pl,
    _calculate_coverage_metrics source_files test_files
    = Ok {| total_source_files := Z.of_nat (length source_files);
            total_test_files := Z.of_nat (length test_files);
            total_source_classes := sum_len classes source_files;
            total_test_classes := sum_len classes test_files;
            total_source_methods := sum_len methods source_files;
            total_test_methods := sum_len methods test_files;
            total_source_loc := sum_of lines_of_code source_files;
            total_test_loc := sum_of lines_of_code test_files;
            estimated_file_coverage := round pf 2;
            estimated_class_coverage := round pc 2;
            test_to_source_ratio := round pl 2 |}
    /\ percentage (Z.of_nat (length test_files)) (Z.of_nat (length source_files))
       = Ok pf
    /\ percentage (sum_len classes test_files) (sum_len classes source_files)
       = Ok pc
    /\ percentage (sum_of lines_of_code test_files)
         (sum_of lines_of_code source_files) = Ok pl.
Proof.
  unfold _calculate_coverage_metrics.
  destruct (percentage_returns (Z.of_nat (length test_files))
              (Z.of_nat (length source_files))) as [pf Hpf].
  destruct (percentage_returns (sum_len classes test_files)
              (sum_len classes source_files)) as [pc Hpc].
  destruct (percentage_returns (sum_of lines_of_code test_files)
              (sum_of lines_of_code source_files)) as [pl Hpl].
  exists pf, pc, pl. rewrite Hpf, Hpc; cbn [bind].
  split_and!; try done.
  unfold percentage in Hpl.
  destruct (0 <? sum_of lines_of_code source_files)%Z.
  - destruct (truediv _ _) as [q|e]; cbn [bind] in *; [|done].
    by inversion Hpl.
  - by inversion Hpl.
Qed.

Lemma generate_recommendations_length (cd : coverage_data) :
  (length (_generate_recommendations cd) <= 4)%nat.
Proof.
  rewrite generate_recommendations_rules.
  destruct (lt_int _ 50), (lt_int _ 30), (missing_tests cd), (int_lt_float _ _);
    simpl; lia.
Qed.

Lemma analyze_service_coverage_ok (w : world) (service_path : Path)
  (name : string) :
  let src_path := child (child (child service_path "src") "main") "java" in
  let test_path := child (child (child service_path "src") "test") "java" in
  exists cd out,
    analyze_service_coverage w service_path name = Ok (cd, out)
    /\ service_name cd = name
    /\ source_files cd
       = (if exists_ w src_path then fst (_find_java_files w src_path) else [])
    /\ test_files cd
       = (if exists_ w test_path then fst (_find_java_files w test_path) else [])
    /\ out = ((if exists_ w src_path then snd (_find_java_files w src_path) else [])
              ++ (if exists_ w test_path then snd (_find_java_files w test_path)
                  else []))%list
    /\ _calculate_coverage_metrics (source_files cd) (test_files cd)
       = Ok (coverage_metrics cd)
    /\ missing_tests cd = _find_missing_tests (source_files cd) (test_files cd)
    /\ recommendations cd = _generate_recommendations cd
    /\ gradle_test_result cd = None
    /\ total_source_files (coverage_metrics cd)
       = Z.of_nat (length (source_files cd))
    /\ total_test_files (coverage_metrics cd)
       = Z.of_nat (length (test_files cd))
    /\ Z.of_nat (length (missing_tests cd))
       <= total_source_classes (coverage_metrics cd)
    /\ (length (recommendations cd) <= 4)%nat.
Proof.
  intros src_path test_path. unfold analyze_service_coverage.
  fold src_path test_path.
  set (src := if exists_ w src_path then _find_java_files w src_path else ([], [])).
  set (tst := if exists_ w test_path then _find_java_files w test_path else ([], [])).
  assert (Hs : (if exists_ w src_path then fst (_find_java_files w src_path) else [])
               = fst src) by (subst src; by destruct (exists_ w src_path)).
  assert (Ht : (if exists_ w test_path then fst (_find_java_files w test_path) else [])
               = fst tst) by (subst tst; by destruct (exists_ w test_path)).
  assert (Hs' : (if exists_ w src_path then snd (_find_java_files w src_path) else [])
               = snd src) by (subst src; by destruct (exists_ w src_path)).
  assert (Ht' : (if exists_ w test_path then snd (_find_java_files w test_path) else [])
               = snd tst) by (subst tst; by destruct (exists_ w test_path)).
  rewrite Hs, Ht, Hs', Ht'. clearbody src tst.
  destruct src as [sf o1], tst as [tf o2]. cbn [fst snd].
  destruct (calculate_coverage_metrics_ok sf tf) as (pf & pc & pl & Hm & _).
  rewrite Hm; cbn [bind].
  eexists _, _. split; [reflexivity|]. cbn.
  split_and!; try done.
  - rewrite sum_len_spec. pose proof (find_missing_tests_length sf tf). lia.
  - apply generate_recommendations_length.
Qed.


(** [analyze_service_coverage] returns a record for every state of the
    file system: no division by zero reaches the caller. A directory that
    does not exist counts as one without files, and the record is consistent:
    its metrics, missing tests and recommendations are those of the two file
    lists it holds, it has no more missing tests than source types and at
    most four recommendations. *)
Theorem analyze_service_coverage_returns (w : world) (service_path : Path)
  (name : string) :
  let src_path := child (child (child service_path "src") "main") "java" in
  let test_path := child (child (child service_path "src") "test") "java" in
  exists cd out,
    analyze_service_coverage w service_path name = Ok (cd, out)
    /\ service_name cd = name
    /\ source_files cd
       = (if exists_ w src_path then fst (_find_java_files w src_path) else [])
    /\ test_files cd
       = (if exists_ w test_path then fst (_find_java_files w test_path) else [])
    /\ out = ((if exists_ w src_path then snd (_find_java_files w src_path) else [])
              ++ (if exists_ w test_path then snd (_find_java_files w test_path)
                  else []))%list
    /\ _calculate_coverage_metrics (source_files cd) (test_files cd)
       = Ok (coverage_metrics cd)
    /\ missing_tests cd = _find_missing_tests (source_files cd) (test_files cd)
    /\ recommendations cd = _generate_recommendations cd
    /\ gradle_test_result cd = None
    /\ total_source_files (coverage_metrics cd)
       = Z.of_nat (length (source_files cd))
    /\ total_test_files (coverage_metrics cd)
       = Z.of_nat (length (test_files cd))
    /\ Z.of_nat (length (missing_tests cd))
       <= total_source_classes (coverage_metrics cd)
    /\ (length (recommendations cd) <= 4)%nat.
Proof. exact (analyze_service_coverage_ok w service_path name). Qed.

End Report.

(** ** The comprehensive report *)

Section WholeReport.

Lemma calculate_overall_statistics_ok (services : list (string * coverage_data)) :
  let records := map snd services in
  let src := Zsum (map (fun d => total_source_files (coverage_metrics d)) records) in
  let tst := Zsum (map (fun d => total_test_files (coverage_metrics d)) records) in
  exists p,
    percentage tst src = Ok p /\
    _calculate_overall_statistics services
    = Ok {| total_services := Z.of_nat (length services);
            overall_source_files := src;
            overall_test_files := tst;
            total_missing_tests :=
              Zsum (map (fun d => Z.of_nat (length (missing_tests d))) records);
            overall_file_coverage := round p 2;
            unique_recommendations :=
              list_to_set (flat_map recommendations records) |}.
Proof.
  intros records src tst.
  destruct (percentage_returns tst src) as [p Hp]. exists p. split; [done|].
  unfold _calculate_overall_statistics.
  rewrite add_service_loop. fold records. rewrite !Z.add_0_l, app_nil_l.
  fold src tst. by rewrite Hp.
Qed.

(** What one of the two blocks of [generate_comprehensive_report] adds. *)
Lemma add_service_report_ok (w : world) (service_path : Path) (name : string)
  (acc : list (string * coverage_data) * list line) :
  exists cd out,
    analyze_service_coverage w service_path name = Ok (cd, out)
    /\ add_service_report w service_path name acc
       = Ok (if exists_ w service_path
             then (dict_set (fst acc) name
                     (set_gradle_test_result cd
                        (run_gradle_test_report w service_path)),
                   snd acc ++ out)
             else acc).
Proof.
  destruct (analyze_service_coverage_ok w service_path name)
    as (cd & out & Hcd & _).
  exists cd, out. split; [done|]. unfold add_service_report.
  destruct (exists_ w service_path); [|done]. by rewrite Hcd.
Qed.

Lemma generate_comprehensive_report_ok (self : analyzer) (w : world) :
  exists cd1 out1 cd2 out2 stats,
    analyze_service_coverage w (data_preprocessor_path self) "data-preprocessor"
    = Ok (cd1, out1)
    /\ analyze_service_coverage w (model_trainer_path self) "model-trainer"
       = Ok (cd2, out2)
    /\ let entry1 :=
         if exists_ w (data_preprocessor_path self)
         then [("data-preprocessor"%string,
                set_gradle_test_result cd1
                  (run_gradle_test_report w (data_preprocessor_path self)))]
         else [] in
       let entry2 :=
         if exists_ w (model_trainer_path self)
         then [("model-trainer"%string,
                set_gradle_test_result cd2
                  (run_gradle_test_report w (model_trainer_path self)))]
         else [] in
       _calculate_overall_statistics (entry1 ++ entry2) = Ok stats
       /\ generate_comprehensive_report self w
          = Ok ({| report_timestamp := w_now w;
                   report_project_root := str_abs (project_root self);
                   services := entry1 ++ entry2;
                   overall_statistics := stats |},
                (if exists_ w (data_preprocessor_path self) then out1 else [])
                ++ (if exists_ w (model_trainer_path self) then out2 else [])).
Proof.
  unfold generate_comprehensive_report.
  destruct (add_service_report_ok w (data_preprocessor_path self)
              "data-preprocessor" ([], [])) as (cd1 & out1 & Hcd1 & ->).
  cbn [bind].
  set (acc1 := if exists_ w (data_preprocessor_path self) then _ else _).
  destruct (add_service_report_ok w (model_trainer_path self)
              "model-trainer" acc1) as (cd2 & out2 & Hcd2 & ->).
  cbn [bind].
  set (acc2 := if exists_ w (model_trainer_path self) then _ else _).
  destruct (calculate_overall_statistics_ok (fst acc2)) as (p & _ & Hstats).
  exists cd1, out1, cd2, out2. eexists. split; [done|]. split; [done|].
  assert (Hacc : acc2
    = ((if exists_ w (data_preprocessor_path self)
        then [("data-preprocessor"%string,
               set_gradle_test_result cd1
                 (run_gradle_test_report w (data_preprocessor_path self)))]
        else [])
       ++ (if exists_ w (model_trainer_path self)
           then [("model-trainer"%string,
                  set_gradle_test_result cd2
                    (run_gradle_test_report w (model_trainer_path self)))]
           else []),
       (if exists_ w (data_preprocessor_path self) then out1 else [])
       ++ (if exists_ w (model_trainer_path self) then out2 else []))).
  { subst acc2 acc1.
    destruct (exists_ w (data_preprocessor_path self)),
             (exists_ w (model_trainer_path self)); cbn; by rewrite ?app_nil_r. }
  cbv zeta. rewrite Hacc in *. cbn [fst snd] in *.
  split; [exact Hstats|]. by rewrite Hstats.
Qed.

(** [generate_comprehensive_report] returns a report for every state of the
    file system. Its services are those of the two service directories that
    exist, the data preprocessor before the model trainer, each the analysis
    of its directory with the outcome of its gradle run added; and the
    overall statistics are those of these services: their number, and the
    sums of the files and missing tests their records list. *)
Theorem generate_comprehensive_report_returns (self : analyzer) (w : world) :
  exists r out,
    generate_comprehensive_report self w = Ok (r, out)
    /\ report_project_root r = str_abs (project_root self)
    /\ map fst (services r)
       = ((if exists_ w (data_preprocessor_path self)
           then ["data-preprocessor"%string] else [])
          ++ (if exists_ w (model_trainer_path self)
              then ["model-trainer"%string] else []))%list
    /\ (forall name cd,
          In (name, cd) (services r) ->
          exists service_path cd0 out0,
            (name = "data-preprocessor"%string
               /\ service_path = data_preprocessor_path self
             \/ name = "model-trainer"%string
               /\ service_path = model_trainer_path self)
            /\ exists_ w service_path = true
            /\ analyze_service_coverage w service_path name = Ok (cd0, out0)
            /\ cd = set_gradle_test_result cd0
                      (run_gradle_test_report w service_path))
    /\ _calculate_overall_statistics (services r) = Ok (overall_statistics r)
    /\ total_services (overall_statistics r) = Z.of_nat (length (services r))
    /\ (length (services r) <= 2)%nat
    /\ overall_source_files (overall_statistics r)
       = Zsum (map (fun x => Z.of_nat (length (source_files (snd x))))
                 (services r))
    /\ overall_test_files (overall_statistics r)
       = Zsum (map (fun x => Z.of_nat (length (test_files (snd x))))
                 (services r))
    /\ total_missing_tests (overall_statistics r)
       = Zsum (map (fun x => Z.of_nat (length (missing_tests (snd x))))
                 (services r)).
Proof.
  destruct (generate_comprehensive_report_ok self w)
    as (cd1 & out1 & cd2 & out2 & stats & Hcd1 & Hcd2 & Hstats & Hrep).
  cbv zeta in Hstats, Hrep. rewrite Hrep. eexists _, _. split; [reflexivity|].
  cbn [report_project_root services overall_statistics].
  destruct (analyze_service_coverage_ok w (data_preprocessor_path self)
              "data-preprocessor")
    as (cd1' & out1' & Hcd1' & _ & _ & _ & _ & _ & _ & _ & _ & Hs1 & Ht1 & _).
  destruct (analyze_service_coverage_ok w (model_trainer_path self)
              "model-trainer")
    as (cd2' & out2' & Hcd2' & _ & _ & _ & _ & _ & _ & _ & _ & Hs2 & Ht2 & _).
  rewrite Hcd1 in Hcd1'. rewrite Hcd2 in Hcd2'.
  injection Hcd1' as <- <-. injection Hcd2' as <- <-.
  match type of Hstats with
  | _calculate_overall_statistics ?l = _ =>
      destruct (calculate_overall_statistics_ok l) as (p & _ & Hcalc)
  end.
  rewrite Hcalc in Hstats. injection Hstats as <-.
  cbn [total_services overall_source_files overall_test_files
       total_missing_tests].
  split_and!; try done.
  - by destruct (exists_ w (data_preprocessor_path self)),
               (exists_ w (model_trainer_path self)).
  - intros name cd Hin.
    destruct (exists_ w (data_preprocessor_path self)) eqn:E1,
             (exists_ w (model_trainer_path self)) eqn:E2;
      cbn in Hin; repeat destruct Hin as [[= <- <-]|Hin]; try done.
    + exists (data_preprocessor_path self), cd1, out1. by split_and!; auto.
    + exists (model_trainer_path self), cd2, out2. by split_and!; auto.
    + exists (data_preprocessor_path self), cd1, out1. by split_and!; auto.
    + exists (model_trainer_path self), cd2, out2. by split_and!; auto.
  - destruct (exists_ w (data_preprocessor_path self)),
             (exists_ w (model_trainer_path self)); cbn; lia.
  - destruct (exists_ w (data_preprocessor_path self)),
             (exists_ w (model_trainer_path self)); cbn;
      rewrite ?Hs1, ?Hs2; done.
  - destruct (exists_ w (data_preprocessor_path self)),
             (exists_ w (model_trainer_path self)); cbn;
      rewrite ?Ht1, ?Ht2; done.
  - by rewrite !map_map.
Qed.

End WholeReport.

(** ** The outcomes of [main] *)

Section EntryPoint.





End EntryPoint.

(** ** A second run *)

Section Rerun.






Lemma exists_insert_ne (w w' : world) (p q : Path) (n : node) :
  w_nodes w' = <[q := n]> (w_nodes w) -> p <> q ->
  exists_ w' p = exists_ w p.
Proof.
  intros Hn Hne. unfold exists_. by rewrite Hn, lookup_insert_ne.
Qed.





End Rerun.

(** ** What a match has read *)

Section Inversion.

Local Open Scope string_scope.

(** What a successful match has read: the matcher hands a rest of the text
    to its continuation, and a pattern without a group leaves the group as
    it was. *)
Lemma star_capfree_inv (body : Re.cont -> Re.cont) (k : Re.cont) (fuel : nat) :
  (forall k' s0 c x0, body k' s0 c = Some x0 ->
     exists pre s', s0 = pre ++ s' /\ k' s' c = Some x0) ->
  forall s cap x,
    Re.star body k fuel s cap = Some x ->
    exists pre s', s = pre ++ s' /\ k s' cap = Some x.
Proof.
  intros Hbody. induction fuel as [|fuel IH]; intros s cap x H;
    rewrite star_unfold in H;
    match type of H with
    | match ?b with _ => _ end = _ => destruct b as [y|] eqn:Hb
    end.
  - apply Hbody in Hb as (pre & s' & _ & Hk).
    by destruct (_ <? _)%nat.
  - by exists "", s.
  - injection H as ->.
    apply Hbody in Hb as (pre & s' & -> & Hk).
    destruct (_ <? _)%nat; [|done].
    apply IH in Hk as (pre' & s'' & -> & Hk).
    exists (pre ++ pre'), s''. by rewrite str_app_assoc.
  - by exists "", s.
Qed.

Lemma exec_capfree_inv (r : Re.regex) :
  capfree r = true ->
  forall k s cap x,
    Re.exec r k s cap = Some x ->
    exists pre s', s = pre ++ s' /\ k s' cap = Some x.
Proof.
  induction r as [|cs|r1 IH1 r2 IH2|r1 IH1 r2 IH2|r1 IH1|r1 IH1];
    cbn [capfree]; intros Hfree k s cap x H.
  - by exists "", s.
  - destruct s as [|c s]; [done|]. rewrite exec_set_cons in H.
    destruct (Re.cset_mem cs c); [|done]. by exists (String c ""), s.
  - apply andb_true_iff in Hfree as [H1 H2]. rewrite exec_seq in H.
    apply (IH1 H1) in H as (pre & s' & -> & H).
    apply (IH2 H2) in H as (pre' & s'' & -> & H).
    exists (pre ++ pre'), s''. by rewrite str_app_assoc.
  - apply andb_true_iff in Hfree as [H1 H2]. rewrite exec_alt in H.
    destruct (Re.exec r1 k s cap) as [y|] eqn:Hy.
    + injection H as ->. by apply (IH1 H1) in Hy.
    + by apply (IH2 H2) in H.
  - rewrite exec_star in H.
    eapply star_capfree_inv in H; [done|]. intros k' s0 c x0. by apply IH1.
  - done.
Qed.

Lemma exec_Lit_inv (l : string) (k : Re.cont) (s : string)
  (cap : option string) (x : string * option string) :
  Re.exec (Re.Lit l) k s cap = Some x ->
  exists s', s = l ++ s' /\ k s' cap = Some x.
Proof.
  revert s. induction l as [|c l IH]; intros s H; [by exists s|].
  cbn [Re.Lit] in H. rewrite exec_seq in H.
  destruct s as [|d s]; [done|]. rewrite exec_set_cons in H.
  cbn [Re.cset_mem] in H. destruct (Ascii.eqb_spec d c) as [->|]; [|done].
  apply IH in H as (s' & -> & H). by exists s'.
Qed.

Lemma star_set_inv (cs : Re.cset) (k : Re.cont) (fuel : nat) :
  forall s cap x,
    Re.star (Re.exec (Re.Set' cs)) k fuel s cap = Some x ->
    exists g s', s = g ++ s' /\ all_in cs g = true /\ k s' cap = Some x.
Proof.
  induction fuel as [|fuel IH]; intros s cap x H; rewrite star_unfold in H.
  - destruct s as [|c s]; [by exists "", ""|].
    rewrite exec_set_cons in H.
    destruct (Re.cset_mem cs c); [|by exists "", (String c s)].
    destruct (_ <? _)%nat; by exists "", (String c s).
  - destruct s as [|c s]; [by exists "", ""|].
    rewrite exec_set_cons in H.
    destruct (Re.cset_mem cs c) eqn:Hc; [|by exists "", (String c s)].
    destruct (_ <? _)%nat; [|by exists "", (String c s)].
    destruct (Re.star _ k fuel s cap) as [y|] eqn:Hy;
      [|by exists "", (String c s)].
    injection H as ->. apply IH in Hy as (g & s' & -> & Hg & Hk).
    exists (String c g), s'. split_and!; try done. simpl. by rewrite Hc.
Qed.

Lemma exec_plus_set_inv (cs : Re.cset) (k : Re.cont) (s : string)
  (cap : option string) (x : string * option string) :
  Re.exec (Re.Plus (Re.Set' cs)) k s cap = Some x ->
  exists g s', s = g ++ s' /\ g <> "" /\ all_in cs g = true
               /\ k s' cap = Some x.
Proof.
  unfold Re.Plus. rewrite exec_seq. intros H.
  destruct s as [|c s]; [done|]. rewrite exec_set_cons in H.
  destruct (Re.cset_mem cs c) eqn:Hc; [|done]. rewrite exec_star in H.
  apply star_set_inv in H as (g & s' & -> & Hg & Hk).
  exists (String c g), s'. split_and!; try done. simpl. by rewrite Hc.
Qed.

Lemma exec_cap_word_inv (k : Re.cont) (s : string) (cap : option string)
  (x : string * option string) :
  Re.exec (Re.Cap word1) k s cap = Some x ->
  exists g s', s = g ++ s' /\ g <> "" /\ all_in Re.CWord g = true
               /\ k s' (Some g) = Some x.
Proof.
  rewrite exec_cap. unfold word1. intros H.
  apply exec_plus_set_inv in H as (g & s' & -> & Hne & Hg & Hk).
  exists g, s'. split_and!; try done.
  by rewrite str_length_app, Nat.add_sub, take_app in Hk.
Qed.

(** A pattern with one group, [(\w+)], between two parts without a group:
    a match captures a word. *)
Lemma exec_around_cap_word (pre_r post_r : Re.regex) (s : string)
  (x : string * option string) :
  capfree pre_r = true -> capfree post_r = true ->
  Re.exec pre_r
    (Re.exec (Re.Cap word1) (Re.exec post_r (fun s' cap => Some (s', cap))))
    s None = Some x ->
  exists g, snd x = Some g /\ g <> "" /\ all_in Re.CWord g = true.
Proof.
  intros Hpre Hpost H.
  apply (exec_capfree_inv _ Hpre) in H as (p1 & s1 & _ & H).
  apply exec_cap_word_inv in H as (g & s2 & _ & Hne & Hg & H).
  apply (exec_capfree_inv _ Hpost) in H as (p3 & s3 & _ & H).
  injection H as <-. by exists g.
Qed.

Lemma class_pattern_captures (s : string) (x : string * option string) :
  Re.match_here class_pattern s = Some x ->
  exists g, snd x = Some g /\ g <> "" /\ all_in Re.CWord g = true.
Proof.
  intros H.
  apply (exec_around_cap_word
           (Re.Seq (Re.Opt (Re.Seq (Re.Lit "public") spaces1))
              (Re.Seq (Re.Opt (Re.Seq (Re.Lit "abstract") spaces1))
                 (Re.Seq (Re.Lit "class") spaces1))) Re.Eps s x);
    [reflexivity|reflexivity|exact H].
Qed.

Lemma interface_pattern_captures (s : string) (x : string * option string) :
  Re.match_here interface_pattern s = Some x ->
  exists g, snd x = Some g /\ g <> "" /\ all_in Re.CWord g = true.
Proof.
  intros H.
  apply (exec_around_cap_word
           (Re.Seq (Re.Opt (Re.Seq (Re.Lit "public") spaces1))
              (Re.Seq (Re.Lit "interface") spaces1)) Re.Eps s x);
    [reflexivity|reflexivity|exact H].
Qed.

Lemma method_pattern_captures (s : string) (x : string * option string) :
  Re.match_here method_pattern s = Some x ->
  exists g, snd x = Some g /\ g <> "" /\ all_in Re.CWord g = true.
Proof.
  intros H.
  apply (exec_around_cap_word
           (Re.Seq (Re.Alt (Re.Lit "public")
                      (Re.Alt (Re.Lit "private") (Re.Lit "protected")))
              (Re.Seq spaces1
                 (Re.Seq (Re.Opt (Re.Seq (Re.Lit "static") spaces1))
                    (Re.Star (Re.Seq word1 spaces1)))))
           (Re.Seq spaces0
              (Re.Seq (Re.Set' (Re.CChr "("))
                 (Re.Seq (Re.Star (Re.Set' (Re.CNot ")")))
                    (Re.Seq (Re.Set' (Re.CChr ")"))
                       (Re.Seq spaces0 (Re.Set' (Re.CChr "{")))))))
           s x);
    [reflexivity|reflexivity|exact H].
Qed.

End Inversion.

(** ** Keywords and names *)

Section Keywords.

Local Open Scope string_scope.

Lemma prefix_app (sub t : string) : String.prefix sub (sub ++ t) = true.
Proof.
  induction sub as [|c sub IH]; [apply prefix_nil|].
  rewrite str_app_cons, prefix_cons, Ascii.eqb_refl. exact IH.
Qed.

Lemma contains_app_intro (sub pre t : string) :
  contains sub (pre ++ sub ++ t) = true.
Proof.
  induction pre as [|c pre IH].
  - rewrite str_app_nil_l. destruct (sub ++ t) eqn:E; cbn [contains];
      rewrite <- E, prefix_app; done.
  - rewrite str_app_cons. cbn [contains]. rewrite IH. apply orb_true_r.
Qed.

Lemma contains_drop (sub : string) (n : nat) (s : string) :
  contains sub s = false -> contains sub (str_drop n s) = false.
Proof.
  revert s. induction n as [|n IH]; intros s H; [by rewrite str_drop_0|].
  destruct s as [|c s]; [done|]. apply contains_cons in H as [_ H].
  by apply IH.
Qed.

(** No match anywhere, nothing listed. *)
Lemma scan_nil (r : Re.regex) (s : string) :
  (forall n, Re.match_here r (str_drop n s) = None) ->
  forall pos skip, Re.scan r pos skip s = [].
Proof.
  induction s as [|c s IH]; intros H pos skip.
  - pose proof (H 0%nat) as H0. simpl in H0.
    destruct skip; simpl; [|done]. by rewrite H0.
  - assert (Hs : forall n, Re.match_here r (str_drop n s) = None)
      by (intros n; exact (H (S n))).
    destruct skip; simpl; [|by apply IH].
    pose proof (H 0%nat) as H0. simpl in H0. rewrite H0. by apply IH.
Qed.

Lemma findall_nil (r : Re.regex) (content : string) (subs : list string) :
  (forall s x, Re.match_here r s = Some x ->
               exists sub, In sub subs /\ contains sub s = true) ->
  (forall sub, In sub subs -> contains sub content = false) ->
  Re.findall r content = [].
Proof.
  intros Hr Hc. unfold Re.findall, Re.findall_pos.
  rewrite scan_nil; [done|]. intros n.
  destruct (Re.match_here r (str_drop n content)) as [x|] eqn:Hm; [|done].
  apply Hr in Hm as (sub & Hin & Hsub).
  by rewrite (contains_drop sub n content (Hc sub Hin)) in Hsub.
Qed.

Lemma findall_forall (r : Re.regex) (P : string -> Prop) (content : string) :
  (forall s x, Re.match_here r s = Some x -> P (Re.group1 (snd x))) ->
  Forall P (Re.findall r content).
Proof.
  intros Hr. unfold Re.findall, Re.findall_pos. apply List.Forall_forall.
  intros g Hg. apply in_map_iff in Hg as ([p g'] & <- & Hin).
  apply scan_is_match in Hin as (rest & cap & Hm & ->).
  exact (Hr _ _ Hm).
Qed.

(** A match of the method pattern begins with a visibility keyword. *)
Lemma method_pattern_head (s : string) (x : string * option string) :
  Re.match_here method_pattern s = Some x ->
  exists kw t, (kw = "public" \/ kw = "private" \/ kw = "protected")
               /\ s = kw ++ t.
Proof.
  unfold Re.match_here, method_pattern. rewrite exec_seq, !exec_alt.
  intros H.
  destruct (Re.exec (Re.Lit "public") _ s None) as [y|] eqn:H1.
  { apply exec_Lit_inv in H1 as (t & -> & _). exists "public", t. auto. }
  destruct (Re.exec (Re.Lit "private") _ s None) as [y|] eqn:H2.
  { apply exec_Lit_inv in H2 as (t & -> & _). exists "private", t. auto. }
  apply exec_Lit_inv in H as (t & -> & _). exists "protected", t. auto.
Qed.

(** A match of the class pattern holds the word [class], one of the
    interface pattern the word [interface]. *)
Lemma class_pattern_keyword (s : string) (x : string * option string) :
  Re.match_here class_pattern s = Some x -> contains "class" s = true.
Proof.
  intros H.
  change (Re.exec
            (Re.Seq (Re.Opt (Re.Seq (Re.Lit "public") spaces1))
               (Re.Opt (Re.Seq (Re.Lit "abstract") spaces1)))
            (Re.exec (Re.Lit "class")
               (Re.exec (Re.Seq spaces1 (Re.Cap word1))
                  (fun s' cap => Some (s', cap)))) s None = Some x) in H.
  apply exec_capfree_inv in H as (pre & s1 & -> & H); [|reflexivity].
  apply exec_Lit_inv in H as (s2 & -> & _). apply contains_app_intro.
Qed.

Lemma interface_pattern_keyword (s : string) (x : string * option string) :
  Re.match_here interface_pattern s = Some x -> contains "interface" s = true.
Proof.
  intros H.
  change (Re.exec (Re.Opt (Re.Seq (Re.Lit "public") spaces1))
            (Re.exec (Re.Lit "interface")
               (Re.exec (Re.Seq spaces1 (Re.Cap word1))
                  (fun s' cap => Some (s', cap)))) s None = Some x) in H.
  apply exec_capfree_inv in H as (pre & s1 & -> & H); [|reflexivity].
  apply exec_Lit_inv in H as (s2 & -> & _). apply contains_app_intro.
Qed.

(** Every extracted name is a word: it is not empty and holds only
    characters of [\w], for types as for methods. *)
Theorem extracted_names_are_words (content : string) :
  Forall (fun name => name <> "" /\ all_in Re.CWord name = true)
    (_extract_classes content)
  /\ Forall (fun name => name <> "" /\ all_in Re.CWord name = true)
       (_extract_methods content).
Proof.
  split.
  - unfold _extract_classes. apply Forall_app. split; apply findall_forall.
    + intros s x H. apply class_pattern_captures in H as (g & -> & H). exact H.
    + intros s x H. apply interface_pattern_captures in H as (g & -> & H).
      exact H.
  - apply findall_forall.
    intros s x H. apply method_pattern_captures in H as (g & -> & H). exact H.
Qed.

(** A text that holds none of the three visibility keywords has no
    method: a method declared without one is not counted. *)
Theorem methods_need_visibility (content : string) :
  contains "public" content = false ->
  contains "private" content = false ->
  contains "protected" content = false ->
  _extract_methods content = [].
Proof.
  intros H1 H2 H3.
  apply (findall_nil _ _ ["public"; "private"; "protected"]).
  - intros s x H. apply method_pattern_head in H as (kw & t & Hkw & ->).
    exists kw. split; [|apply (contains_app_intro kw "" t)].
    destruct Hkw as [-> | [-> | ->]]; simpl; auto.
  - intros sub [<-|[<-|[<-|[]]]]; done.
Qed.

Lemma methods_need_visibility_witness :
  _extract_methods "@Test void addsTwoNumbers() { assertEquals(4, add(2, 2)); }"
  = [].
Proof. by apply methods_need_visibility. Defined.

(** A text that holds neither the word [class] nor the word [interface]
    declares no type: enumerations and records are not counted. *)
Theorem types_need_keyword (content : string) :
  contains "class" content = false ->
  contains "interface" content = false ->
  _extract_classes content = [].
Proof.
  intros H1 H2. unfold _extract_classes.
  rewrite (findall_nil class_pattern content ["class"]),
          (findall_nil interface_pattern content ["interface"]); try done.
  - intros s x H. exists "interface". split; [by left|].
    by apply interface_pattern_keyword in H.
  - by intros sub [<-|[]].
  - intros s x H. exists "class". split; [by left|].
    by apply class_pattern_keyword in H.
  - by intros sub [<-|[]].
Qed.

Lemma types_need_keyword_witness :
  _extract_classes "public enum Color { RED, GREEN }" = [].
Proof. by apply types_need_keyword. Defined.

(** The methods of a text are listed by the offsets of their matches; each
    match begins at a visibility keyword, and the name listed for it is the
    word the match captures. *)
Theorem extract_methods_by_offset (content : string) :
  _extract_methods content = map snd (Re.findall_pos method_pattern content)
  /\ StronglySorted (fun x y => (fst x < fst y)%nat)
       (Re.findall_pos method_pattern content)
  /\ forall p g, In (p, g) (Re.findall_pos method_pattern content) ->
       exists kw t rest,
         (kw = "public" \/ kw = "private" \/ kw = "protected")
         /\ str_drop p content = kw ++ t
         /\ Re.match_here method_pattern (str_drop p content)
            = Some (rest, Some g)
         /\ g <> "" /\ all_in Re.CWord g = true.
Proof.
  split; [done|]. split; [apply scan_sorted|].
  intros p g Hin. unfold Re.findall_pos in Hin.
  apply scan_is_match in Hin as (rest & cap & Hm & ->).
  rewrite Nat.sub_0_r in Hm.
  destruct (method_pattern_head _ _ Hm) as (kw & t & Hkw & Ht).
  destruct (method_pattern_captures _ _ Hm) as (g & Hg & Hne & Hw).
  simpl in Hg. subst cap. by exists kw, t, rest.
Qed.

End Keywords.

(** ** A service without tests *)

Section NoTests.

Lemma percentage_no_tests (b : Z) :
  0 < b -> percentage 0 b = Ok (PyFloat (S754_zero false)).
Proof.
  intros Hb. unfold percentage, truediv.
  destruct (Z.ltb_spec 0 b) as [_|]; [|lia].
  destruct (Z.eqb_spec b 0) as [|_]; [lia|].
  destruct b as [|p|p]; try lia. reflexivity.
Qed.

Lemma percentage_no_tests_low (b : Z) :
  0 <= b ->
  exists p, percentage 0 b = Ok p
    /\ round p 2 = (if b =? 0 then PyInt 0 else PyFloat (S754_zero false))
    /\ forall z, 0 < z -> lt_int (round p 2) z = true.
Proof.
  intros Hb. destruct (Z.eqb_spec b 0) as [->|Hne].
  - exists (PyInt 0). split_and!; try done.
    intros z Hz. simpl. by apply Z.ltb_lt.
  - exists (PyFloat (S754_zero false)).
    rewrite percentage_no_tests by lia. split_and!; try done.
    intros z Hz. simpl. by apply Z.ltb_lt.
Qed.

Lemma find_java_files_nil (w : world) (dir : Path) :
  w_rglob w dir = [] -> _find_java_files w dir = ([], []).
Proof. intros H. unfold _find_java_files. by rewrite H. Qed.

Lemma no_source_methods_rule (t : Z) :
  0 <= t -> int_lt_float t (int_mul 0 half) = false.
Proof. intros H. simpl. by apply Z.ltb_ge. Qed.

(** A service without test files (its test directory is missing, or holds
    no Java file): no test file is counted, the file coverage and the line
    ratio are zero, every declared source type is listed as missing, and the
    recommendations begin with the two for low coverage and low test volume;
    a service without source files either gets exactly these two. *)
Theorem service_without_tests (w : world) (service_path : Path)
  (name : string) :
  let test_path := child (child (child service_path "src") "test") "java" in
  (if exists_ w test_path then w_rglob w test_path else []) = [] ->
  exists cd out,
    analyze_service_coverage w service_path name = Ok (cd, out)
    /\ test_files cd = []
    /\ total_test_files (coverage_metrics cd) = 0
    /\ estimated_file_coverage (coverage_metrics cd)
       = (if total_source_files (coverage_metrics cd) =? 0
          then PyInt 0 else PyFloat (S754_zero false))
    /\ test_to_source_ratio (coverage_metrics cd)
       = (if total_source_loc (coverage_metrics cd) =? 0
          then PyInt 0 else PyFloat (S754_zero false))
    /\ map source_class (missing_tests cd) = flat_map classes (source_files cd)
    /\ recommendations cd
       = ([low_file_coverage; low_test_volume]
          ++ (match flat_map classes (source_files cd) with
              | [] => []
              | _ :: _ =>
                  [classes_without_tests
                     (Z.of_nat (length (flat_map classes (source_files cd))))]
              end)
          ++ (if int_lt_float 0
                   (int_mul (total_source_methods (coverage_metrics cd)) half)
              then [few_test_methods] else []))%list
    /\ (source_files cd = [] ->
        recommendations cd = [low_file_coverage; low_test_volume]).
Proof.
  intros test_path Hnone.
  destruct (analyze_service_coverage_ok w service_path name)
    as (cd & out & Hcd & _ & _ & Htf & _ & Hm & Hmiss & Hrec & _).
  fold test_path in Htf.
  assert (Ht : test_files cd = []).
  { rewrite Htf. destruct (exists_ w test_path); [|done].
    by rewrite find_java_files_nil. }
  exists cd, out. split; [done|]. split; [done|].
  rewrite Ht in Hm, Hmiss.
  destruct (calculate_coverage_metrics_ok (source_files cd) [])
    as (pf & pc & pl & Hcalc & Hpf & _ & Hpl).
  rewrite Hm in Hcalc. injection Hcalc as Hmet.
  change (Z.of_nat (length (@nil file_info))) with 0 in Hpf.
  change (sum_of lines_of_code []) with 0 in Hpl.
  destruct (percentage_no_tests_low (Z.of_nat (length (source_files cd))))
    as (pf' & Hpf' & Hrf & Hlf); [lia|].
  destruct (percentage_no_tests_low (sum_of lines_of_code (source_files cd)))
    as (pl' & Hpl' & Hrl & Hll); [rewrite sum_of_spec; lia|].
  rewrite Hpf in Hpf'. injection Hpf' as <-.
  rewrite Hpl in Hpl'. injection Hpl' as <-.
  assert (Hclasses : map source_class (missing_tests cd)
                     = flat_map classes (source_files cd)).
  { rewrite Hmiss. apply find_missing_tests_no_tests_classes. }
  assert (Hlen : length (missing_tests cd)
                 = length (flat_map classes (source_files cd))).
  { by rewrite <- Hclasses, length_map. }
  assert (Hrecs : recommendations cd
       = ([low_file_coverage; low_test_volume]
          ++ (match flat_map classes (source_files cd) with
              | [] => []
              | _ :: _ =>
                  [classes_without_tests
                     (Z.of_nat (length (flat_map classes (source_files cd))))]
              end)
          ++ (if int_lt_float 0
                   (int_mul (total_source_methods (coverage_metrics cd)) half)
              then [few_test_methods] else []))%list).
  { rewrite Hrec, generate_recommendations_rules, Hlen, Hmet.
    cbn [coverage_metrics estimated_file_coverage test_to_source_ratio
         total_test_methods total_source_methods].
    rewrite Hlf, Hll by lia.
    change (sum_len methods []) with 0.
    destruct (missing_tests cd) as [|e l], (flat_map classes (source_files cd));
      try done. }
  rewrite Hmet at 1 2 3 4 5.
  cbn [coverage_metrics estimated_file_coverage test_to_source_ratio
       total_test_files total_source_files total_source_loc].
  split_and!; try done.
  intros Hs. rewrite Hrecs, Hmet, Hs. reflexivity.
Qed.

(** The service of [world_widget]: one source file, no test directory. *)
Lemma service_without_tests_witness :
  exists cd out,
    analyze_service_coverage world_widget ["svc"%string] "svc" = Ok (cd, out)
    /\ test_files cd = []
    /\ map source_class (missing_tests cd) = ["Widget"%string].
Proof.
  assert (H : (if exists_ world_widget
                    (child (child (child ["svc"%string] "src") "test") "java")
               then w_rglob world_widget
                      (child (child (child ["svc"%string] "src") "test") "java")
               else []) = []) by (vm_compute; reflexivity).
  destruct (service_without_tests world_widget ["svc"%string] "svc" H)
    as (cd & out & Hcd & Ht & _ & _ & _ & Hmiss & _).
  exists cd, out. split_and!; try done.
  rewrite Hmiss.
  assert (Hcd' : exists cd' out',
             analyze_service_coverage world_widget ["svc"%string] "svc"
             = Ok (cd', out')
             /\ flat_map classes (source_files cd') = ["Widget"%string]).
  { eexists _, _. split; vm_compute; reflexivity. }
  destruct Hcd' as (cd' & out' & Hcd' & Hcl). rewrite Hcd in Hcd'.
  by injection Hcd' as <- <-.
Defined.

End NoTests.

(** ** Class and interface declarations *)

Section Declarations.

Local Open Scope string_scope.

Lemma spaces_spec (ws : string) :
  spaces ws = true -> ws <> "" /\ all_in Re.CSpace ws = true.
Proof.
  unfold spaces. intros H. apply andb_true_iff in H as [H1 H2].
  split; [|done]. by destruct ws.
Qed.

Lemma exec_Lit_fail (l : string) (k : Re.cont) (t : string)
  (cap : option string) :
  String.prefix l t = false -> Re.exec (Re.Lit l) k t cap = None.
Proof.
  revert t. induction l as [|c l IH]; intros t H.
  - by rewrite prefix_nil in H.
  - cbn [Re.Lit]. rewrite exec_seq. destruct t as [|d t]; [done|].
    rewrite prefix_cons in H. rewrite exec_set_cons. cbn [Re.cset_mem].
    rewrite Ascii.eqb_sym.
    destruct (Ascii.eqb c d); [|done]. by apply IH.
Qed.

(** An optional keyword with its white space, present or absent. *)
Lemma exec_opt_keyword (kw : string) (ws : option string) (k : Re.cont)
  (t : string) (cap : option string) (x : string * option string) :
  opt_spaces ws = true ->
  head_in Re.CSpace t = false ->
  String.prefix kw t = false ->
  k t cap = Some x ->
  Re.exec (Re.Opt (Re.Seq (Re.Lit kw) spaces1)) k
    ((match ws with Some s => kw ++ s | None => "" end) ++ t) cap = Some x.
Proof.
  intros Hws Hhead Hkw Hk. unfold Re.Opt. rewrite exec_alt, exec_seq.
  destruct ws as [s|].
  - apply spaces_spec in Hws as [Hne Hs].
    rewrite str_app_assoc, exec_Lit. unfold spaces1.
    by rewrite (exec_plus_greedy _ _ _ _ _ x).
  - rewrite str_app_nil_l, exec_Lit_fail by done. by rewrite exec_eps.
Qed.

Lemma exec_class_name (kw ws name t : string) (cap : option string) :
  spaces ws = true ->
  name <> "" -> all_in Re.CWord name = true -> head_in Re.CWord t = false ->
  Re.exec (Re.Seq (Re.Lit kw) (Re.Seq spaces1 (Re.Cap word1)))
    (fun s' cap' => Some (s', cap')) (kw ++ ws ++ name ++ t) cap
  = Some (t, Some name).
Proof.
  intros Hws Hne Hname Ht. apply spaces_spec in Hws as [Hwne Hws].
  rewrite exec_seq, exec_Lit, exec_seq. unfold spaces1.
  apply exec_plus_greedy; [done..| |].
  - destruct name as [|c name]; [done|]. rewrite str_app_cons. simpl in *.
    apply andb_true_iff in Hname as [Hc _]. by apply isword_not_isspace.
  - by apply exec_cap_word.
Qed.

Lemma class_text_app (public abstract : option string) (ws name t : string) :
  class_text public abstract ws name ++ t
  = (match public with Some wsp => "public" ++ wsp | None => "" end)
    ++ (match abstract with Some wsa => "abstract" ++ wsa | None => "" end)
    ++ "class" ++ ws ++ name ++ t.
Proof. unfold class_text. by rewrite !str_app_assoc. Qed.

Lemma interface_text_app (public : option string) (ws name t : string) :
  interface_text public ws name ++ t
  = (match public with Some wsp => "public" ++ wsp | None => "" end)
    ++ "interface" ++ ws ++ name ++ t.
Proof. unfold interface_text. by rewrite !str_app_assoc. Qed.

(** The class pattern matches a class declaration and captures its name. *)
Lemma class_pattern_declaration (public abstract : option string)
  (ws name t : string) :
  opt_spaces public = true -> opt_spaces abstract = true ->
  spaces ws = true ->
  name <> "" -> all_in Re.CWord name = true -> head_in Re.CWord t = false ->
  Re.match_here class_pattern (class_text public abstract ws name ++ t)
  = Some (t, Some name).
Proof.
  intros Hp Ha Hws Hne Hname Ht.
  rewrite class_text_app. unfold Re.match_here, class_pattern.
  rewrite exec_seq. apply exec_opt_keyword; [done| | |].
  { by destruct abstract. }
  { by destruct abstract. }
  rewrite exec_seq. apply exec_opt_keyword; [done..|].
  by apply exec_class_name.
Qed.

Lemma interface_pattern_declaration (public : option string)
  (ws name t : string) :
  opt_spaces public = true ->
  spaces ws = true ->
  name <> "" -> all_in Re.CWord name = true -> head_in Re.CWord t = false ->
  Re.match_here interface_pattern (interface_text public ws name ++ t)
  = Some (t, Some name).
Proof.
  intros Hp Hws Hne Hname Ht.
  rewrite interface_text_app. unfold Re.match_here, interface_pattern.
  rewrite exec_seq. apply exec_opt_keyword; [done..|].
  by apply exec_class_name.
Qed.

(** What [findall] lists for a text that goes on with a match, when the
    scan comes to it. *)
Lemma findall_declaration (r : Re.regex) (pre decl t name : string) :
  decl <> "" ->
  Re.match_here r (decl ++ t) = Some (t, Some name) ->
  (forall n, (n < String.length pre)%nat ->
     Re.match_here r (str_drop n (pre ++ decl ++ t)) = None) ->
  Re.findall r (pre ++ decl ++ t) = name :: Re.findall r t.
Proof.
  intros Hne Hm Hpre. unfold Re.findall, Re.findall_pos.
  rewrite scan_no_match_prefix by done.
  rewrite (scan_match _ _ _ _ (Some name)) by done.
  simpl. f_equal. apply scan_shift.
Qed.

(** A class declaration is counted as a type: when the scan for classes
    comes to it (no match of the class pattern begins in the text before
    it), its name is the next class listed; the interfaces follow the
    classes. *)
Theorem class_declaration_is_extracted
  (pre : string) (public abstract : option string) (ws name t : string) :
  opt_spaces public = true -> opt_spaces abstract = true ->
  spaces ws = true ->
  name <> "" -> all_in Re.CWord name = true -> head_in Re.CWord t = false ->
  (forall n, (n < String.length pre)%nat ->
     Re.match_here class_pattern
       (str_drop n (pre ++ class_text public abstract ws name ++ t)) = None) ->
  _extract_classes (pre ++ class_text public abstract ws name ++ t)
  = (name :: Re.findall class_pattern t
     ++ Re.findall interface_pattern
          (pre ++ class_text public abstract ws name ++ t))%list.
Proof.
  intros Hp Ha Hws Hne Hname Ht Hpre. unfold _extract_classes.
  rewrite (findall_declaration class_pattern pre _ t name); [done| |
    by apply class_pattern_declaration|done].
  unfold class_text. by destruct public, abstract.
Qed.

(** An interface declaration is counted as a type, after all classes. *)
Theorem interface_declaration_is_extracted
  (pre : string) (public : option string) (ws name t : string) :
  opt_spaces public = true ->
  spaces ws = true ->
  name <> "" -> all_in Re.CWord name = true -> head_in Re.CWord t = false ->
  (forall n, (n < String.length pre)%nat ->
     Re.match_here interface_pattern
       (str_drop n (pre ++ interface_text public ws name ++ t)) = None) ->
  _extract_classes (pre ++ interface_text public ws name ++ t)
  = (Re.findall class_pattern (pre ++ interface_text public ws name ++ t)
     ++ name :: Re.findall interface_pattern t)%list.
Proof.
  intros Hp Hws Hne Hname Ht Hpre. unfold _extract_classes.
  rewrite (findall_declaration interface_pattern pre _ t name); [done| |
    by apply interface_pattern_declaration|done].
  unfold interface_text. by destruct public.
Qed.

(** A public class [Foo] after a package clause; an interface [Shape]. *)
Lemma class_declaration_is_extracted_witness :
  _extract_classes ("package a; " ++ class_text (Some " ") None " " "Foo" ++ " { }")
  = ("Foo" :: Re.findall class_pattern " { }"
     ++ Re.findall interface_pattern
          ("package a; " ++ class_text (Some " ") None " " "Foo" ++ " { }"))%list.
Proof.
  apply (class_declaration_is_extracted
           "package a; " (Some " ") None " " "Foo" " { }"); try done.
  intros n Hn.
  do 11 (destruct n as [|n]; [vm_compute; reflexivity|]).
  simpl in Hn. lia.
Defined.

Lemma interface_declaration_is_extracted_witness :
  _extract_classes ("" ++ interface_text None " " "Shape" ++ " { }")
  = (Re.findall class_pattern ("" ++ interface_text None " " "Shape" ++ " { }")
     ++ "Shape" :: Re.findall interface_pattern " { }")%list.
Proof.
  apply (interface_declaration_is_extracted "" None " " "Shape" " { }");
    try done.
  intros n Hn. simpl in Hn. lia.
Defined.

End Declarations.

(** ** Method declarations *)

Section Methods.

Local Open Scope string_scope.

Lemma exec_method_tail (k : Re.cont) (name ws2 args ws3 rest : string)
  (cap : option string) (x : string * option string) :
  name <> "" -> all_in Re.CWord name = true ->
  all_in Re.CSpace ws2 = true ->
  all_in (Re.CNot ")") args = true ->
  all_in Re.CSpace ws3 = true ->
  k rest (Some name) = Some x ->
  Re.exec method_tail k
    (name ++ ws2 ++ String "(" (args ++ String ")" (ws3 ++ String "{" rest)))
    cap
  = Some x.
Proof.
  intros Hne Hname Hws2 Hargs Hws3 Hk. unfold method_tail.
  rewrite exec_seq.
  apply exec_cap_word; [done..| |].
  { rewrite <- (str_drop_0 ws2). by apply head_after_name. }
  rewrite exec_seq. unfold spaces0 at 1.
  apply exec_star_greedy; [done..|].
  rewrite exec_seq, exec_set_cons. cbn [Re.cset_mem].
  rewrite Ascii.eqb_refl.
  rewrite exec_seq.
  apply exec_star_greedy; [done| |].
  { cbn [head_in Re.cset_mem]. by rewrite Ascii.eqb_refl. }
  rewrite exec_seq, exec_set_cons. cbn [Re.cset_mem].
  rewrite Ascii.eqb_refl.
  rewrite exec_seq. unfold spaces0.
  apply exec_star_greedy; [done..|].
  by rewrite exec_set_cons.
Qed.

Lemma exec_method_tail_nohead (k : Re.cont) (t : string) (cap : option string) :
  head_in Re.CWord t = false -> Re.exec method_tail k t cap = None.
Proof.
  intros H. unfold method_tail. rewrite exec_seq.
  by apply exec_cap_word_nohead.
Qed.

(** [(?:\w+\s+)*] takes no round on a name, white space and a parenthesis,
    whatever the rounds it may still take. *)
Lemma star_words_skip (k : Re.cont) (name ws2 u : string)
  (cap : option string) (fuel : nat) :
  all_in Re.CWord name = true -> all_in Re.CSpace ws2 = true ->
  (forall t c, head_in Re.CWord t = false -> k t c = None) ->
  Re.star (Re.exec (Re.Seq word1 spaces1)) k fuel (name ++ ws2 ++ String "(" u) cap
  = k (name ++ ws2 ++ String "(" u) cap.
Proof.
  intros Hname Hws Hk. rewrite star_unfold.
  rewrite exec_word_spaces_fail; [done..|].
  intros m. destruct (_ <? _)%nat; [|done].
  destruct fuel; [done|].
  rewrite star_words_nohead by (by apply head_after_name).
  apply Hk. by apply head_after_name.
Qed.

Lemma word_spaces_spec (w ws : string) :
  word_spaces (w, ws) = true ->
  w <> "" /\ all_in Re.CWord w = true /\ ws <> "" /\ all_in Re.CSpace ws = true.
Proof.
  unfold word_spaces. cbn [fst snd]. intros H.
  apply andb_true_iff in H as [H Hs]. apply andb_true_iff in H as [Hne Hw].
  apply spaces_spec in Hs as [Hsne Hs]. split_and!; try done. by destruct w.
Qed.

Lemma head_word (w t : string) :
  w <> "" -> all_in Re.CWord w = true -> head_in Re.CSpace (w ++ t) = false.
Proof.
  intros Hne Hw. destruct w as [|c w]; [done|]. rewrite str_app_cons.
  simpl in *. apply andb_true_iff in Hw as [Hc _]. by apply isword_not_isspace.
Qed.

Lemma head_space (ws t : string) :
  ws <> "" -> all_in Re.CSpace ws = true -> head_in Re.CWord (ws ++ t) = false.
Proof.
  intros Hne Hw. destruct ws as [|c ws]; [done|]. rewrite str_app_cons.
  simpl in *. apply andb_true_iff in Hw as [Hc _]. by apply isspace_not_isword.
Qed.

(** The text after the visibility keyword begins with a word. *)
Lemma head_words_text (words : list (string * string)) (name t : string) :
  forallb word_spaces words = true ->
  name <> "" -> all_in Re.CWord name = true ->
  head_in Re.CSpace (words_text words ++ name ++ t) = false.
Proof.
  intros Hwords Hne Hname. destruct words as [|[w ws] l].
  - rewrite str_app_nil_l. by apply head_word.
  - cbn [forallb] in Hwords. apply andb_true_iff in Hwords as [Hw _].
    apply word_spaces_spec in Hw as (Hwne & Hw & _).
    cbn [words_text]. rewrite str_app_assoc. by apply head_word.
Qed.

(** [(?:\w+\s+)*] reads all the modifiers and the return type, and stops
    before the name. *)
Lemma star_words_all (k : Re.cont) (name ws2 u : string)
  (cap : option string) (x : string * option string) :
  name <> "" -> all_in Re.CWord name = true -> all_in Re.CSpace ws2 = true ->
  (forall t c, head_in Re.CWord t = false -> k t c = None) ->
  k (name ++ ws2 ++ String "(" u) cap = Some x ->
  forall (words : list (string * string)) (fuel : nat),
    forallb word_spaces words = true ->
    (String.length (words_text words ++ name ++ ws2 ++ String "(" u) <= fuel)%nat ->
    Re.star (Re.exec (Re.Seq word1 spaces1)) k fuel
      (words_text words ++ name ++ ws2 ++ String "(" u) cap
    = Some x.
Proof.
  intros Hne Hname Hws2 Hfail Hk words.
  induction words as [|[w ws] l IH]; intros fuel Hwords Hfuel.
  - rewrite str_app_nil_l, star_words_skip by done. exact Hk.
  - cbn [forallb] in Hwords. apply andb_true_iff in Hwords as [Hw Hl].
    apply word_spaces_spec in Hw as (Hwne & Hw & Hsne & Hs).
    cbn [words_text] in *. rewrite !str_app_assoc in *.
    rewrite star_unfold, exec_seq. unfold word1 at 1.
    rewrite (exec_plus_greedy _ _ _ _ _ x); [done..| |].
    { by apply head_space. }
    unfold spaces1.
    apply exec_plus_greedy; [done..| |].
    { by apply head_words_text. }
    match goal with
    | |- context [(?a <? ?b)%nat] =>
        destruct (Nat.ltb_spec a b) as [Hlt|Hge]
    end.
    2:{ rewrite !str_length_app in Hge. destruct w; [done|].
        simpl in Hge. lia. }
    destruct fuel as [|fuel].
    { rewrite !str_length_app in Hfuel. destruct w; [done|].
      simpl in Hfuel. lia. }
    apply IH; [done|]. rewrite !str_length_app in *.
    destruct w; [done|]. cbn [String.length] in *. lia.
Qed.

(** A keyword with its white space, tried on a word with its white
    space: it reads both or it fails. *)
Lemma exec_keyword_on_word (l : string) (k : Re.cont) (ws t : string)
  (cap : option string) (x : string * option string) :
  all_in Re.CWord l = true ->
  ws <> "" -> all_in Re.CSpace ws = true ->
  head_in Re.CSpace t = false ->
  k t cap = Some x ->
  forall w, all_in Re.CWord w = true ->
    Re.exec (Re.Seq (Re.Lit l) spaces1) k (w ++ ws ++ t) cap = Some x
    \/ Re.exec (Re.Seq (Re.Lit l) spaces1) k (w ++ ws ++ t) cap = None.
Proof.
  intros Hl Hne Hws Ht Hk.
  induction l as [|c l IH]; intros w Hw; rewrite exec_seq.
  - cbn [Re.Lit]. rewrite exec_eps. destruct w as [|d w].
    + left. rewrite str_app_nil_l. unfold spaces1.
      by apply exec_plus_greedy.
    + right. unfold spaces1, Re.Plus. rewrite exec_seq.
      apply exec_set_nohead. by apply head_word.
  - simpl in Hl. apply andb_true_iff in Hl as [Hc Hl].
    cbn [Re.Lit]. rewrite exec_seq. destruct w as [|d w].
    + right. rewrite str_app_nil_l. destruct ws as [|e ws]; [done|].
      simpl in Hws. apply andb_true_iff in Hws as [He _].
      rewrite str_app_cons, exec_set_cons. cbn [Re.cset_mem].
      destruct (Ascii.eqb_spec e c) as [->|_]; [|done].
      apply isspace_not_isword in He. congruence.
    + simpl in Hw. apply andb_true_iff in Hw as [_ Hw].
      rewrite str_app_cons, exec_set_cons.
      destruct (Re.cset_mem (Re.CChr c) d); [|by right].
      rewrite <- exec_seq. by apply IH.
Qed.

Lemma method_text_app (kw ws1 : string) (words : list (string * string))
  (name ws2 args ws3 rest : string) :
  method_text kw ws1 words name ws2 args ws3 ++ rest
  = kw ++ ws1 ++ words_text words ++ name ++ ws2 ++
    String "(" (args ++ String ")" (ws3 ++ String "{" rest)).
Proof.
  unfold method_text.
  by rewrite !str_app_assoc, !str_app_cons, !str_app_assoc, !str_app_cons,
       !str_app_assoc, !str_app_cons, str_app_nil_l.
Qed.

(** The method pattern matches a method declaration, with or without
    modifiers and a return type, and captures its name. *)
Lemma method_pattern_declaration (kw ws1 : string)
  (words : list (string * string)) (name ws2 args ws3 rest : string) :
  kw = "public" \/ kw = "private" \/ kw = "protected" ->
  spaces ws1 = true ->
  forallb word_spaces words = true ->
  name <> "" -> all_in Re.CWord name = true ->
  all_in Re.CSpace ws2 = true ->
  all_in (Re.CNot ")") args = true ->
  all_in Re.CSpace ws3 = true ->
  Re.match_here method_pattern
    (method_text kw ws1 words name ws2 args ws3 ++ rest)
  = Some (rest, Some name).
Proof.
  intros Hkw Hws1 Hwords Hne Hname Hws2 Hargs Hws3.
  apply spaces_spec in Hws1 as [Hws1' Hws1].
  rewrite method_text_app. unfold Re.match_here.
  change method_pattern with
    (Re.Seq (Re.Alt (Re.Lit "public")
               (Re.Alt (Re.Lit "private") (Re.Lit "protected")))
       (Re.Seq spaces1
          (Re.Seq (Re.Opt (Re.Seq (Re.Lit "static") spaces1))
             (Re.Seq (Re.Star (Re.Seq word1 spaces1)) method_tail)))).
  set (u := args ++ String ")" (ws3 ++ String "{" rest)).
  set (k0 := fun (s' : string) (cap : option string) => Some (s', cap)).
  assert (Htail : Re.exec method_tail k0 (name ++ ws2 ++ String "(" u) None
                  = Some (rest, Some name)).
  { by apply exec_method_tail. }
  assert (Hstar : forall l, forallb word_spaces l = true ->
            Re.exec (Re.Seq (Re.Star (Re.Seq word1 spaces1)) method_tail) k0
              (words_text l ++ name ++ ws2 ++ String "(" u) None
            = Some (rest, Some name)).
  { intros l Hl. rewrite exec_seq, exec_star.
    apply star_words_all; try done.
    intros t c Hhead. by apply exec_method_tail_nohead. }
  rewrite exec_seq, exec_visibility by done.
  rewrite exec_seq. unfold spaces1 at 1.
  apply exec_plus_greedy; [done..| |].
  { by apply head_words_text. }
  rewrite exec_seq. unfold Re.Opt. rewrite exec_alt.
  destruct words as [|[w ws] l].
  - rewrite str_app_nil_l.
    change method_tail with
      (Re.Seq (Re.Cap word1)
         (Re.Seq spaces0
         (Re.Seq (Re.Set' (Re.CChr "("))
         (Re.Seq (Re.Star (Re.Set' (Re.CNot ")")))
         (Re.Seq (Re.Set' (Re.CChr ")"))
         (Re.Seq spaces0
                 (Re.Set' (Re.CChr "{")))))))).
    rewrite exec_keyword_spaces_fail by done.
    cbv iota. rewrite exec_eps.
    exact (Hstar [] eq_refl).
  - pose proof (Hstar _ Hwords) as Hall.
    cbn [forallb] in Hwords. apply andb_true_iff in Hwords as [Hw Hl].
    apply word_spaces_spec in Hw as (Hwne & Hw & Hsne & Hs).
    cbn [words_text] in *. rewrite !str_app_assoc in *.
    destruct (exec_keyword_on_word "static"
                (Re.exec (Re.Seq (Re.Star (Re.Seq word1 spaces1)) method_tail) k0)
                ws (words_text l ++ name ++ ws2 ++ String "(" u)
                None (rest, Some name)) with (w := w) as [H|H]; try done.
    + by apply head_words_text.
    + by apply Hstar.
    + by rewrite H.
    + rewrite H, exec_eps. exact Hall.
Qed.

(** A method declaration is counted under its name: a visibility keyword,
    then any number of modifiers and a return type, each a word followed by
    white space, then the name, an argument list that holds no closing
    parenthesis, and the opening brace. When the scan comes to it (no match
    of the method pattern begins in the text before it), its name is the
    next method listed, and the scan goes on after the brace. *)
Theorem method_declaration_is_extracted
  (pre kw ws1 : string) (words : list (string * string))
  (name ws2 args ws3 rest : string) :
  kw = "public" \/ kw = "private" \/ kw = "protected" ->
  spaces ws1 = true ->
  forallb word_spaces words = true ->
  name <> "" -> all_in Re.CWord name = true ->
  all_in Re.CSpace ws2 = true ->
  all_in (Re.CNot ")") args = true ->
  all_in Re.CSpace ws3 = true ->
  (forall n, (n < String.length pre)%nat ->
     Re.match_here method_pattern
       (str_drop n
          (pre ++ method_text kw ws1 words name ws2 args ws3 ++ rest))
     = None) ->
  _extract_methods (pre ++ method_text kw ws1 words name ws2 args ws3 ++ rest)
  = name :: _extract_methods rest.
Proof.
  intros Hkw Hws1 Hwords Hne Hname Hws2 Hargs Hws3 Hpre.
  unfold _extract_methods.
  apply findall_declaration; [|by apply method_pattern_declaration|done].
  unfold method_text. destruct Hkw as [-> | [-> | ->]]; done.
Qed.

(** A static method with a return type, inside a class body. *)
Lemma method_declaration_is_extracted_witness :
  _extract_methods
    ("class A { "
     ++ method_text "public" " " [("static", " "); ("int", "  ")]
          "count" "" "int a, int b" " "
     ++ " return a + b; } }")
  = "count" :: _extract_methods " return a + b; } }".
Proof.
  apply (method_declaration_is_extracted
           "class A { " "public" " " [("static", " "); ("int", "  ")]
           "count" "" "int a, int b" " " " return a + b; } }");
    try done; [by left|].
  intros n Hn.
  do 10 (destruct n as [|n]; [vm_compute; reflexivity|]).
  simpl in Hn. lia.
Defined.

End Methods.

(** ** The gradle outcome *)

Section Gradle.

Lemma gradle_report_shape (o : subprocess_outcome) :
  success (gradle_report o) = (return_code (gradle_report o) =? 0)
  /\ (success (gradle_report o) = true ->
      error (gradle_report o) = None
      /\ exists out err, o = Completed 0 out err)
  /\ (error (gradle_report o) = None <->
      exists returncode out err, o = Completed returncode out err)
  /\ (error (gradle_report o) = None \/
      stdout (gradle_report o) = None /\ stderr (gradle_report o) = None
      /\ return_code (gradle_report o) = -1).
Proof.
  destruct o as [rc out err| |msg]; cbn; split_and!; try done; auto.
  - intros Hrc. apply Z.eqb_eq in Hrc as ->. split; [done|]. by eexists _, _.
  - split; [by eexists _, _, _|done].
  - split; [done|]. by intros (? & ? & ? & ?).
  - split; [done|]. by intros (? & ? & ? & ?).
Qed.

(** The gradle outcome in the report: when the runs of gradle end as
    [subprocess.run] makes them end, every service of the report holds a
    gradle result whose [success] is true exactly when its return code is
    0; and a result that carries an error text (a timeout, an exception)
    has the return code -1 and no output. *)
Theorem report_gradle_results (self : analyzer) (w : world)
  (outcome : Path -> subprocess_outcome) :
  (forall service_path, w_gradle w service_path
                        = gradle_report (outcome service_path)) ->
  exists r out,
    generate_comprehensive_report self w = Ok (r, out)
    /\ forall name cd, In (name, cd) (services r) ->
         exists g,
           gradle_test_result cd = Some g
           /\ success g = (return_code g =? 0)
           /\ (error g = None \/
               stdout g = None /\ stderr g = None /\ return_code g = -1).
Proof.
  intros Hg.
  destruct (generate_comprehensive_report_ok self w)
    as (cd1 & out1 & cd2 & out2 & stats & _ & _ & _ & Hrep).
  cbv zeta in Hrep. rewrite Hrep. eexists _, _. split; [reflexivity|].
  cbn [services]. intros name cd Hin.
  unfold run_gradle_test_report in Hin. rewrite !Hg in Hin.
  destruct (exists_ w (data_preprocessor_path self)),
           (exists_ w (model_trainer_path self));
    cbn in Hin; repeat destruct Hin as [[= <- <-]|Hin]; try done;
    eexists; (split; [reflexivity|]);
    match goal with
    | |- context [gradle_report ?o] =>
        destruct (gradle_report_shape o) as (H1 & _ & _ & H4)
    end; by split.
Qed.

(** The worlds of the examples: gradle cannot be started. *)
Lemma report_gradle_results_witness :
  exists r out,
    generate_comprehensive_report
      {| project_root := [];
         data_preprocessor_path := ["svc"%string];
         model_trainer_path := ["other"%string];
         results_dir := ["test-results"%string] |} world_widget = Ok (r, out)
    /\ forall name cd, In (name, cd) (services r) ->
         exists g,
           gradle_test_result cd = Some g
           /\ success g = (return_code g =? 0)
           /\ (error g = None \/
               stdout g = None /\ stderr g = None /\ return_code g = -1).
Proof.
  apply (report_gradle_results _ world_widget
           (fun _ => OtherException "gradlew")).
  intros service_path. reflexivity.
Defined.

End Gradle.

(** ** No metric is negative *)

Section Signs.

Lemma binary_round_aux_sign (m e : Z) (l : location) :
  0 <= m -> not_negative (binary_round_aux prec emax false m e l) = true.
Proof.
  intros H. unfold binary_round_aux.
  pose proof (shr_fexp_nonneg m e l H) as H1.
  destruct (shr_fexp prec emax m e l) as [mrs' e']; simpl in H1.
  pose proof (shr_fexp_nonneg _ e' loc_Exact
                (round_nearest_even_nonneg _ (loc_of_shr_record mrs') H1)) as H2.
  destruct (shr_fexp prec emax _ e' loc_Exact) as [mrs'' e'']; simpl in H2.
  destruct (shr_m mrs'') as [|p|p]; [done| |lia].
  by destruct (e'' <=? emax - prec).
Qed.

Lemma SFdiv_not_negative (m1 m2 : positive) (e1 e2 : Z) :
  not_negative (SFdiv prec emax (S754_finite false m1 e1) (S754_finite false m2 e2))
  = true.
Proof.
  simpl. pose proof (SFdiv_core_nonneg m1 m2 e1 e2) as H.
  destruct (SFdiv_core_binary prec emax (Zpos m1) e1 (Zpos m2) e2) as [[mz ez] lz].
  simpl in H. by apply binary_round_aux_sign.
Qed.

Lemma truediv_not_negative (a b : Z) :
  0 <= a -> 0 < b -> exists q, truediv a b = Ok q /\ not_negative q = true.
Proof.
  intros Ha Hb. unfold truediv.
  destruct (Z.eqb_spec b 0) as [|_]; [lia|].
  eexists; split; [reflexivity|].
  destruct b as [|pb|pb]; try lia. destruct a as [|pa|pa]; try lia; [done|].
  apply SFdiv_not_negative.
Qed.

Lemma mul_int_100_not_negative (x : spec_float) :
  not_negative x = true -> not_negative (mul_int x 100) = true.
Proof.
  intros H. unfold mul_int.
  change (float_of_int 100) with (S754_finite false 7036874417766400 (-46)).
  destruct x as [s|s| |s m e]; try done.
  - simpl in *. by destruct s.
  - simpl in H. destruct s; [done|]. simpl. by apply binary_round_aux_sign.
Qed.

Lemma float_round_2_not_negative (x : spec_float) :
  not_negative x = true -> not_negative (float_round x 2) = true.
Proof.
  intros H. destruct x as [s|s| |s m e]; try done.
  simpl in H. destruct s; [done|]. unfold float_round.
  set (q := match e with Z0 => _ | Zpos _ => _ | Zneg _ => _ end).
  assert (Hq : 0 <= q).
  { subst q. destruct e as [|p|p].
    - lia.
    - pose proof (Z.pow_pos_nonneg 2 (Zpos p)). lia.
    - apply round_half_even_nonneg; [lia|]. by apply Z.pow_pos_nonneg. }
  destruct (Z.eqb_spec q 0) as [|Hne]; [done|].
  change (int_as_float (10 ^ 2)) with (S754_finite false 100 0).
  destruct q as [|p|p]; try lia. apply SFdiv_not_negative.
Qed.

Lemma not_negative_lt_0 (x : spec_float) :
  not_negative x = true -> float_lt_int x 0 = false.
Proof.
  destruct x as [s|s| |s m e]; try done.
  - simpl. by destruct s.
  - simpl. destruct s; [done|]. intros _.
    destruct e as [|p|p]; apply Z.ltb_ge; lia.
Qed.

Lemma percentage_not_negative (a b : Z) :
  0 <= a -> 0 <= b ->
  exists p, percentage a b = Ok p /\ lt_int (round p 2) 0 = false.
Proof.
  intros Ha Hb. unfold percentage.
  destruct (Z.ltb_spec 0 b) as [Hpos|Hle].
  - destruct (truediv_not_negative a b Ha Hpos) as (q & -> & Hq).
    cbn [bind]. eexists; split; [reflexivity|]. cbn [round lt_int].
    by apply not_negative_lt_0, float_round_2_not_negative,
             mul_int_100_not_negative.
  - by eexists.
Qed.

(** No metric is negative: the eight totals are natural numbers, and each
    of the three percentages is a number that is not below zero. *)
Theorem metrics_not_negative (source_files test_files : list file_info) :
  exists m,
    _calculate_coverage_metrics source_files test_files = Ok m
    /\ 0 <= total_source_files m /\ 0 <= total_test_files m
    /\ 0 <= total_source_classes m /\ 0 <= total_test_classes m
    /\ 0 <= total_source_methods m /\ 0 <= total_test_methods m
    /\ 0 <= total_source_loc m /\ 0 <= total_test_loc m
    /\ lt_int (estimated_file_coverage m) 0 = false
    /\ lt_int (estimated_class_coverage m) 0 = false
    /\ lt_int (test_to_source_ratio m) 0 = false.
Proof.
  destruct (calculate_coverage_metrics_ok source_files test_files)
    as (pf & pc & pl & -> & Hpf & Hpc & Hpl).
  eexists; split; [reflexivity|].
  cbn [total_source_files total_test_files total_source_classes
       total_test_classes total_source_methods total_test_methods
       total_source_loc total_test_loc estimated_file_coverage
       estimated_class_coverage test_to_source_ratio].
  rewrite !sum_len_spec, !sum_of_spec in *.
  destruct (percentage_not_negative (Z.of_nat (length test_files))
              (Z.of_nat (length source_files))) as (p1 & H1 & Hn1); [lia..|].
  destruct (percentage_not_negative
              (Z.of_nat (length (flat_map classes test_files)))
              (Z.of_nat (length (flat_map classes source_files))))
    as (p2 & H2 & Hn2); [lia..|].
  destruct (percentage_not_negative
              (Z.of_nat (list_sum (map lines_of_code test_files)))
              (Z.of_nat (list_sum (map lines_of_code source_files))))
    as (p3 & H3 & Hn3); [lia..|].
  rewrite Hpf in H1. rewrite Hpc in H2. rewrite Hpl in H3.
  injection H1 as <-. injection H2 as <-. injection H3 as <-.
  split_and!; try done; lia.
Qed.

End Signs.
